(** * aad-pod-identity: the Windows route-policy reconciliation engine

    A shallow embedding of
      - pkg/nmi/server/endpointpolicy.go   (gateway, locator, policy editor),
      - pkg/nmi/server/redirector_windows.go (reconciliation loop with self-heal),
      - the earlier incremental Windows redirector (type [WindowsRedirector],
        package-level [podMap]),
      - the NMI Windows health probe that taints the node,
    together with the properties the specification states about them.

    Go slices are modelled with their backing array where the code aliases
    them, effects (backend calls, sleeps, pod listing, node updates, process
    exit) are threaded through a small state monad whose state records the
    chronological trace of effects. *)

From Stdlib Require Import ZArith Lia Ascii String.
From stdpp Require Import base option list strings gmap.

Local Open Scope string_scope.
Local Open Scope list_scope.
Local Open Scope Z_scope.

(* ===================================================================== *)
(** ** Go values shared by all packages *)
(* ===================================================================== *)

(** Go [error] values as the code builds them: [errors.New] and [fmt.Errorf]
    without [%w] give a plain message, [fmt.Errorf] with [%w] keeps the wrapped
    error, and [endpointPolicyError] is the repository's own struct. *)
Inductive error : Type :=
| errorString (s : string)
| wrapError (msg : string) (err : error)
| endpointPolicyError (errType : string) (err : error).

(** The [Error()] method; for [endpointPolicyError] it is
    [fmt.Sprintf("%s: %v", e.errType, e.err)]. *)
Fixpoint Error (e : error) : string :=
  match e with
  | errorString s => s
  | wrapError msg _ => msg
  | endpointPolicyError errType err => errType +:+ ": " +:+ Error err
  end.

(** [fmt.Errorf(prefix + "%w", err)] and [fmt.Errorf(prefix + "%v", err)]. *)
Definition Errorf_w (pre : string) (err : error) : error :=
  wrapError (pre +:+ Error err) err.
Definition Errorf_v (pre : string) (err : error) : error :=
  errorString (pre +:+ Error err).

(** JSON text, at the level of the value it denotes. *)
#[local] Unset Elimination Schemes.
Inductive JSON : Type :=
| JNull
| JBool (b : bool)
| JNumber (n : Z)
| JString (s : string)
| JArray (vs : list JSON)
| JObject (members : list (string * JSON)).
#[local] Set Elimination Schemes.

(** [json.RawMessage]: a byte slice that is either the text of a JSON value or
    bytes that [encoding/json] rejects with a syntax error. *)
Inductive RawMessage : Type :=
| Text (v : JSON)
| Garbage (bytes : string).

(** [hcsshim.ProxyPolicy], the fields the repository reads and writes. *)
Record ProxyPolicy : Type := mkProxyPolicy {
  Type_ : string;
  IP : string;
  Port : string;
  Destination : string
}.

(** The zero value of [var proxyPolicy v1.ProxyPolicy]. *)
Definition zeroProxyPolicy : ProxyPolicy := mkProxyPolicy "" "" "" "".

(** [v1.Proxy]. *)
Definition Proxy : string := "PROXY".

(** [hcsshim.HNSEndpoint]: identifier, address (in its [String()] form, which
    is what the code compares) and the ordered policy collection. *)
Record HNSEndpoint : Type := mkHNSEndpoint {
  Id : string;
  IPAddress : string;
  Policies : list RawMessage
}.

(* --------------------------------------------------------------------- *)
(** *** encoding/json on these types *)
(* --------------------------------------------------------------------- *)

Module json.

Definition lower (c : ascii) : ascii :=
  let n := nat_of_ascii c in
  if ((65 <=? n)%nat && (n <=? 90)%nat)%bool then ascii_of_nat (n + 32) else c.

Fixpoint fold (s : string) : string :=
  match s with
  | EmptyString => EmptyString
  | String c r => String (lower c) (fold r)
  end.

(** Object keys select a struct field by name, ignoring letter case. *)
Definition keyIs (key field : string) : bool := String.eqb (fold key) (fold field).

Definition SyntaxError : error := errorString "invalid character looking for beginning of value".
Definition UnmarshalTypeError : error := errorString "json: cannot unmarshal value into Go struct field".

(** Storing one member into a string field: a JSON string is stored, [null]
    leaves the field alone, any other value is a type error and leaves the
    field alone. *)
Definition stringField (v : JSON) (old : string) : string * option error :=
  match v with
  | JString s => (s, None)
  | JNull => (old, None)
  | _ => (old, Some UnmarshalTypeError)
  end.

Definition setMember (key : string) (v : JSON) (pp : ProxyPolicy) : ProxyPolicy * option error :=
  if keyIs key "Type" then
    let '(s, e) := stringField v (Type_ pp) in (mkProxyPolicy s (IP pp) (Port pp) (Destination pp), e)
  else if keyIs key "IP" then
    let '(s, e) := stringField v (IP pp) in (mkProxyPolicy (Type_ pp) s (Port pp) (Destination pp), e)
  else if keyIs key "Port" then
    let '(s, e) := stringField v (Port pp) in (mkProxyPolicy (Type_ pp) (IP pp) s (Destination pp), e)
  else if keyIs key "Destination" then
    let '(s, e) := stringField v (Destination pp) in (mkProxyPolicy (Type_ pp) (IP pp) (Port pp) s, e)
  else (pp, None).

(** Members are stored in order; decoding goes on after a type error and
    reports the earliest one. *)
Fixpoint setMembers (ms : list (string * JSON)) (pp : ProxyPolicy) (err : option error)
  : ProxyPolicy * option error :=
  match ms with
  | [] => (pp, err)
  | (k, v) :: rest =>
      let '(pp', e) := setMember k v pp in
      setMembers rest pp' (match err with Some _ => err | None => e end)
  end.

(** [json.Unmarshal(p, &proxyPolicy)]: the struct pointed to is updated in
    place, so fields for which the text has no member keep the value they
    had before the call. *)
Definition Unmarshal (p : RawMessage) (pp : ProxyPolicy) : ProxyPolicy * option error :=
  match p with
  | Garbage _ => (pp, Some SyntaxError)
  | Text JNull => (pp, None)
  | Text (JObject ms) => setMembers ms pp None
  | Text _ => (pp, Some UnmarshalTypeError)
  end.

(** A field tagged [omitempty] is left out when it is the empty string. *)
Definition omitempty (name value : string) : list (string * JSON) :=
  if String.eqb value "" then [] else [(name, JString value)].

(** [json.Marshal(policy)] for a [*ProxyPolicy]; it cannot fail. *)
Definition Marshal (pp : ProxyPolicy) : RawMessage :=
  Text (JObject (("Type", JString (Type_ pp))
                   :: omitempty "IP" (IP pp)
                   ++ omitempty "Port" (Port pp)
                   ++ omitempty "Destination" (Destination pp))).

End json.

(* ===================================================================== *)
(** ** The backend RPC, pods, nodes and the server *)
(* ===================================================================== *)

(** A [[]byte] carried by a backend request or response, at the level of what
    [encoding/json] makes of it. *)
Inductive Body : Type :=
| NoBody                                   (* nil *)
| EndpointJSON (e : HNSEndpoint)           (* json.Marshal(endpoint) *)
| EndpointsJSON (es : list HNSEndpoint)    (* the text of an array of endpoints *)
| Undecodable (bytes : string).            (* bytes that do not decode as []HNSEndpoint *)

Inductive EntityType : Type := EndpointV1.
Inductive OperationType : Type := Enumerate | Modify.

Record HNSRequest : Type := mkHNSRequest {
  Entity : EntityType;
  Operation : OperationType;
  Request : Body
}.

Record HNSResponse : Type := mkHNSResponse {
  Error_ : option error;
  Response : Body
}.

(** [v1.Pod], the fields the redirectors read. *)
Record Pod : Type := mkPod {
  UID : string;
  Name : string;
  Spec_NodeName : string;
  Status_PodIP : string;
  Status_HostIP : string
}.

(** [corev1.Taint] and [corev1.Node]. *)
Record Taint : Type := mkTaint {
  Key : string;
  Value : string;
  Effect : string
}.

Record Node : Type := mkNode {
  ObjectMeta_Name : string;
  Spec_Taints : list Taint
}.

(** The fields of [Server] that the redirectors read; [Initialized] is
    written, so it lives in the state below. *)
Record Server : Type := mkServer {
  NodeName : string;
  HostIP : string;
  MetadataIP : string;
  MetadataPort : string;
  NMIPort : string
}.

Inductive Metric : Type :=
| NMIHostPolicyApplyFailedCountM
| NMIHostPolicyApplyCountM.

(** What the process does to the outside, in the order it does it.
    [EvApplyCall] and [EvDeleteCall] mark the entry of
    [ApplyEndpointRoutePolicy] and [DeleteEndpointRoutePolicy], so that
    "a call is issued" can be read off the trace. *)
Inductive Event : Type :=
| EvInvokeHNS (req : HNSRequest)
| EvSleep (seconds : Z)
| EvListPods
| EvReport (podIP nodeName : string) (m : Metric)
| EvApplyCall (podIP : string)
| EvDeleteCall (podIP : string)
| EvNodeGet (name : string)
| EvNodeUpdate (node : Node)
| EvWriteHeader (statusCode : Z)
| EvWrite (body : string).

(** The collaborators.  Each answers as a function of everything that has
    happened so far, which covers any deterministic backend, pod source and
    node API. *)
Record Env : Type := mkEnv {
  InvokeHNSRequestFunc : list Event -> HNSRequest -> HNSResponse;
  ListPods : list Event -> list Pod * option error;
  Nodes_Get : list Event -> string -> Node * option error;
  Nodes_Update : list Event -> Node -> option error
}.

(** Process state: the trace, the package-level [podMap] of the incremental
    redirector and [server.Initialized]. *)
Record World : Type := mkWorld {
  trace : list Event;
  podMap : gmap string string;
  Initialized : bool
}.

Definition extend (w : World) (evs : list Event) : World :=
  mkWorld (trace w ++ evs) (podMap w) (Initialized w).

(** A computation returns, exits the process ([os.Exit]), panics (a nil
    pointer is dereferenced) or, for the loops that are run with a bound, runs
    out of it. *)
Inductive Outcome (A : Type) : Type :=
| Ret (a : A)
| Exited (code : Z)
| Panic
| OutOfFuel.
Arguments Ret {A} a.
Arguments Exited {A} code.
Arguments Panic {A}.
Arguments OutOfFuel {A}.

Definition M (A : Type) : Type := World -> Outcome A * World.

Definition ret {A} (a : A) : M A := fun w => (Ret a, w).

Definition bind {A B} (c : M A) (k : A -> M B) : M B := fun w =>
  match c w with
  | (Ret a, w') => k a w'
  | (Exited code, w') => (Exited code, w')
  | (Panic, w') => (Panic, w')
  | (OutOfFuel, w') => (OutOfFuel, w')
  end.

#[global] Instance M_ret : MRet M := @ret.
#[global] Instance M_bind : MBind M := fun A B k c => bind c k.

Definition emit (e : Event) : M unit := fun w => (Ret tt, extend w [e]).
Definition getTrace : M (list Event) := fun w => (Ret (trace w), w).
Definition os_Exit {A} (code : Z) : M A := fun w => (Exited code, w).
Definition panic {A} : M A := fun w => (Panic, w).
Definition outOfFuel {A} : M A := fun w => (OutOfFuel, w).

(** [time.Sleep(n * time.Second)]. *)
Definition time_Sleep (seconds : Z) : M unit := emit (EvSleep seconds).

(** [for _, x := range xs { body x }]. *)
Fixpoint forRange {A} (xs : list A) (body : A -> M unit) : M unit :=
  match xs with
  | [] => mret tt
  | x :: rest => _ ← body x; forRange rest body
  end.

(* ===================================================================== *)
(** ** pkg/nmi/server/endpointpolicy.go *)
(* ===================================================================== *)

Module endpointpolicy.

Definition InvalidOperation : string := "InvalidOperation".
Definition NotFound : string := "NotFound".
Definition UnKnown : string := "UnKnown".

(* ------------------------------------------------------------------- *)
(** *** updateEndpointPolicies *)

(** The state of the loop in [updateEndpointPolicies].  [policies] and
    [endpointPolicies] are two slice headers over one backing array:
    [backing] is that array (its first [len(policies)] cells), [epLen] is
    [len(endpointPolicies)]; [len(policies)] never changes. *)
Record LoopState : Type := mkLoopState {
  backing : list RawMessage;
  epLen : nat;
  count : Z;
  index : Z;
  proxyPolicy : ProxyPolicy
}.

(** [append(s[:index], s[index+1:]...)] for a slice [s] of length [len] over
    [arr]: the capacity suffices, so the cells [index+1 .. len-1] are copied
    down by one inside [arr] and the result has length [len - 1]; the cells
    from [len - 1] on keep what they held. *)
Definition appendCut (arr : list RawMessage) (len idx : nat) : list RawMessage :=
  take idx arr ++ take (len - (idx + 1)) (drop (idx + 1) arr) ++ drop (len - 1) arr.

(** One iteration [i] of [for i, p := range policies]: [p] is read from the
    backing array as it is now, and decoded into the one [proxyPolicy]
    declared before the loop. *)
Definition body (metadataIP : string) (i : nat) (st : LoopState) : LoopState :=
  match backing st !! i with
  | None => st
  | Some p =>
      let '(pp, err) := json.Unmarshal p (proxyPolicy st) in
      match err with
      | None =>
          if String.eqb (IP pp) metadataIP then
            let count' := count st + 1 in
            let index' := Z.of_nat i - count' in
            mkLoopState (appendCut (backing st) (epLen st) (Z.to_nat index'))
                        (epLen st - 1) count' index' pp
          else mkLoopState (backing st) (epLen st) (count st) (index st) pp
      | Some _ => mkLoopState (backing st) (epLen st) (count st) (index st) pp
      end
  end.

Definition loop (metadataIP : string) (idxs : list nat) (st : LoopState) : LoopState :=
  fold_left (fun s i => body metadataIP i s) idxs st.

Definition updateEndpointPolicies (policies : list RawMessage) (metadataIP : string)
  : list RawMessage :=
  let st0 := mkLoopState policies (length policies) (-1) 0 zeroProxyPolicy in
  let st := loop metadataIP (seq 0 (length policies)) st0 in
  take (epLen st) (backing st).

(* ------------------------------------------------------------------- *)
(** *** The gateway *)

Section WithEnv.
Variable env : Env.

Definition callHcnProxyAgentInternal (req : HNSRequest) : M (Body * option error) :=
  tr ← getTrace;
  let res := InvokeHNSRequestFunc env tr req in
  _ ← emit (EvInvokeHNS req);
  match Error_ res with
  | Some e => mret (NoBody, Some e)
  | None => mret (Response res, None)
  end.

Definition maxRetryCount : Z := 4.

(** The [for] loop of [callHcnProxyAgent], with its two loop variables. *)
Fixpoint callHcnProxyAgent_loop (fuel : nat) (req : HNSRequest) (retryCount sleepFactor : Z)
  : M (Body * option error) :=
  match fuel with
  | O => outOfFuel
  | S fuel' =>
      '(response, err) ← callHcnProxyAgentInternal req;
      match err with
      | Some e =>
          if retryCount >? maxRetryCount then mret (NoBody, Some e)
          else
            _ ← time_Sleep sleepFactor;
            callHcnProxyAgent_loop fuel' req (retryCount + 1) (sleepFactor * 2)
      | None => mret (response, None)
      end
  end.

Definition callHcnProxyAgent (req : HNSRequest) : M (Body * option error) :=
  callHcnProxyAgent_loop 5 req 1 1.

(* ------------------------------------------------------------------- *)
(** *** The locator *)

(** [json.Unmarshal(response, &endpoints)]. *)
Definition UnmarshalEndpoints (response : Body) : list HNSEndpoint * option error :=
  match response with
  | EndpointsJSON es => (es, None)
  | NoBody => ([], Some (errorString "unexpected end of JSON input"))
  | EndpointJSON _ => ([], Some json.UnmarshalTypeError)
  | Undecodable _ => ([], Some json.SyntaxError)
  end.

(** The scan [for _, ep := range endpoints]: the first endpoint with the
    address. *)
Fixpoint scan (endpoints : list HNSEndpoint) (ip : string) : option HNSEndpoint :=
  match endpoints with
  | [] => None
  | ep :: rest => if String.eqb (IPAddress ep) ip then Some ep else scan rest ip
  end.

Definition enumerateRequest : HNSRequest := mkHNSRequest EndpointV1 Enumerate NoBody.

Fixpoint getEndpointByIP_loop (fuel : nat) (ip : string) (retryCount sleepFactor : Z)
  : M (option HNSEndpoint * option error) :=
  match fuel with
  | O => outOfFuel
  | S fuel' =>
      '(response, err) ← callHcnProxyAgent enumerateRequest;
      match err with
      | Some e => mret (None, Some (endpointPolicyError InvalidOperation e))
      | None =>
          let '(endpoints, err) := UnmarshalEndpoints response in
          match err with
          | Some e => mret (None, Some (endpointPolicyError InvalidOperation e))
          | None =>
              match scan endpoints ip with
              | Some ep => mret (Some ep, None)
              | None =>
                  if retryCount >? maxRetryCount then
                    mret (None, Some (endpointPolicyError NotFound
                            (errorString ("No endpoint found for Pod IP - " +:+ ip +:+ "."))))
                  else
                    _ ← time_Sleep sleepFactor;
                    getEndpointByIP_loop fuel' ip (retryCount + 1) (sleepFactor * 2)
              end
          end
      end
  end.

Definition getEndpointByIP (ip : string) : M (option HNSEndpoint * option error) :=
  getEndpointByIP_loop 5 ip 1 1.

(* ------------------------------------------------------------------- *)
(** *** The policy editor *)

(** [json.Marshal(endpoint)]: a raw policy entry is copied into the output
    after validation, so an entry that is not JSON text makes it fail. *)
Definition isText (p : RawMessage) : bool :=
  match p with Text _ => true | Garbage _ => false end.

Definition MarshalEndpoint (endpoint : HNSEndpoint) : Body * option error :=
  if forallb isText (Policies endpoint) then (EndpointJSON endpoint, None)
  else (NoBody, Some (errorString "json: error calling MarshalJSON for type json.RawMessage")).

(** [addEndpointPolicy] writes through its [endpoint] pointer; the endpoint
    as it is when the function returns is the first component. *)
Definition addEndpointPolicy (endpoint : HNSEndpoint)
           (metadataIP metadataPort nmiIP nmiPort : string)
  : M (HNSEndpoint * option error) :=
  let endpoint :=
    mkHNSEndpoint (Id endpoint) (IPAddress endpoint)
                  (updateEndpointPolicies (Policies endpoint) metadataIP) in
  let policy := mkProxyPolicy Proxy metadataIP metadataPort (nmiIP +:+ ":" +:+ nmiPort) in
  let jsonStr := json.Marshal policy in
  let endpoint :=
    mkHNSEndpoint (Id endpoint) (IPAddress endpoint) (Policies endpoint ++ [jsonStr]) in
  match MarshalEndpoint endpoint with
  | (_, Some err) => mret (endpoint, Some err)
  | (jsonStr, None) =>
      let request := mkHNSRequest EndpointV1 Modify jsonStr in
      '(_, err) ← callHcnProxyAgent request;
      mret (endpoint, err)
  end.

Definition deleteEndpointPolicy (endpoint : HNSEndpoint) (metadataIP : string)
  : M (HNSEndpoint * option error) :=
  let endpoint :=
    mkHNSEndpoint (Id endpoint) (IPAddress endpoint)
                  (updateEndpointPolicies (Policies endpoint) metadataIP) in
  match MarshalEndpoint endpoint with
  | (_, Some err) => mret (endpoint, Some err)
  | (jsonStr, None) =>
      let request := mkHNSRequest EndpointV1 Modify jsonStr in
      '(_, err) ← callHcnProxyAgent request;
      mret (endpoint, err)
  end.

(* ------------------------------------------------------------------- *)
(** *** The two exported operations *)

Definition ApplyEndpointRoutePolicy (podIP metadataIP metadataPort nmiIP nmiPort : string)
  : M (option error * string) :=
  _ ← emit (EvApplyCall podIP);
  if String.eqb podIP "" then mret (Some (errorString "Missing IP Address"), NotFound)
  else
    '(endpoint, err) ← getEndpointByIP podIP;
    match err, endpoint with
    | Some err, _ =>
        match err with
        | endpointPolicyError errType inner =>
            if String.eqb errType InvalidOperation then
              mret (Some (Errorf_w ("Get endpoint for Pod IP - " +:+ podIP +:+ ". Error: ") inner),
                    errType)
            else if String.eqb errType NotFound then mret (None, "")
            else mret (Some (Errorf_w ("Get endpoint for Pod IP - " +:+ podIP +:+ ". Error: ") err),
                       UnKnown)
        | _ => mret (Some (Errorf_w ("Get endpoint for Pod IP - " +:+ podIP +:+ ". Error: ") err),
                     UnKnown)
        end
    | None, Some endpoint =>
        '(endpoint, err) ← addEndpointPolicy endpoint metadataIP metadataPort nmiIP nmiPort;
        match err with
        | Some err =>
            mret (Some (Errorf_w ("Could not add policy for ip [" +:+ podIP +:+ "] to endpoint - "
                                    +:+ Id endpoint +:+ ". Error: ") err), UnKnown)
        | None => mret (None, "")
        end
    | None, None => panic
    end.

Definition DeleteEndpointRoutePolicy (podIP metadataIP : string) : M (option error * string) :=
  _ ← emit (EvDeleteCall podIP);
  if String.eqb podIP "" then mret (Some (errorString "Missing IP Address"), NotFound)
  else
    '(endpoint, err) ← getEndpointByIP podIP;
    match err, endpoint with
    | Some err, _ =>
        match err with
        | endpointPolicyError errType inner =>
            if String.eqb errType InvalidOperation then
              mret (Some (Errorf_w ("Get endpoint for Pod IP - " +:+ podIP +:+ ". Error: ") inner),
                    errType)
            else if String.eqb errType NotFound then mret (None, "")
            else mret (Some (Errorf_w ("Get endpoint for Pod IP - " +:+ podIP +:+ ". Error: ") err),
                       UnKnown)
        | _ => mret (Some (Errorf_w ("Get endpoint for Pod IP - " +:+ podIP +:+ ". Error: ") err),
                     UnKnown)
        end
    | None, Some endpoint =>
        '(endpoint, err) ← deleteEndpointPolicy endpoint metadataIP;
        match err with
        | Some err =>
            mret (Some (Errorf_v ("Could't delete policy for ip [" +:+ podIP +:+ "] to endpoint - "
                                    +:+ Id endpoint +:+ ". Error: ") err), UnKnown)
        | None => mret (None, "")
        end
    | None, None => panic
    end.

End WithEnv.

End endpointpolicy.

(* ===================================================================== *)
(** ** pkg/nmi/server/redirector_windows.go *)
(* ===================================================================== *)

(** What one pass of a redirector's [select] receives. *)
Inductive Received : Type :=
| signalChan
| mainRoutineDone
| PodObjChannel (pod : Pod).

Module redirector_windows.
Import endpointpolicy.

Section WithEnv.
Variable env : Env.

Definition PodClient_ListPods : M (list Pod * option error) :=
  tr ← getTrace;
  _ ← emit EvListPods;
  mret (ListPods env tr).

Definition Reporter_ReportIPRoutePolicyOperation (podIP nodeName : string) (m : Metric)
  : M unit :=
  emit (EvReport podIP nodeName m).

Definition uploadIPRoutePolicyMetrics (err : option error) (server : Server) (podIP : string)
  : M unit :=
  _ ← match err with
      | Some _ => Reporter_ReportIPRoutePolicyOperation podIP (NodeName server)
                    NMIHostPolicyApplyFailedCountM
      | None => mret tt
      end;
  Reporter_ReportIPRoutePolicyOperation podIP (NodeName server) NMIHostPolicyApplyCountM.

(** The condition guarding the apply in [ApplyRoutePolicyForExistingPods]. *)
Definition listedPodInScope (server : Server) (podItem : Pod) : bool :=
  String.eqb (Spec_NodeName podItem) (NodeName server)
  && negb (String.eqb (Status_PodIP podItem) "")
  && negb (String.eqb (Status_PodIP podItem) (HostIP server)).

Definition ApplyRoutePolicyForExistingPods (server : Server) : M unit :=
  '(listPods, _) ← PodClient_ListPods;
  forRange listPods (fun podItem =>
    if listedPodInScope server podItem then
      '(err, _) ← ApplyEndpointRoutePolicy env (Status_PodIP podItem) (MetadataIP server)
                    (MetadataPort server) (HostIP server) (NMIPort server);
      uploadIPRoutePolicyMetrics err server (Status_PodIP podItem)
    else mret tt).

Definition RoutePolicySelfHeal (server : Server) : M unit :=
  _ ← time_Sleep 10;
  ApplyRoutePolicyForExistingPods server.

Definition DeleteRoutePolicyForExistingPods (server : Server) : M unit :=
  '(listPods, err) ← PodClient_ListPods;
  let exitCode := match err with Some _ => 1 | None => 0 end in
  _ ← forRange listPods (fun podItem =>
        if String.eqb (Spec_NodeName podItem) (NodeName server) then
          '(err, _) ← DeleteEndpointRoutePolicy env (Status_PodIP podItem) (MetadataIP server);
          uploadIPRoutePolicyMetrics err server (Status_PodIP podItem)
        else mret tt);
  _ ← time_Sleep 10;
  os_Exit exitCode.

(** The condition guarding the apply in [Sync]. *)
Definition eventPodInScope (server : Server) (pod : Pod) : bool :=
  negb (String.eqb (Status_PodIP pod) "")
  && String.eqb (NodeName server) (Spec_NodeName pod)
  && negb (String.eqb (HostIP server) (Status_PodIP pod)).

(** Lines 56-65 of [Sync]: what is done with the pair
    [ApplyEndpointRoutePolicy] returned. *)
Definition afterApply (server : Server) (podIP : string) (err : option error) (t : string)
  : M unit :=
  _ ← uploadIPRoutePolicyMetrics err server podIP;
  match err with
  | Some _ => if negb (String.eqb t NotFound) then RoutePolicySelfHeal server else mret tt
  | None => mret tt
  end.

(** [close(subRoutineDone)] has no effect the model records. *)
Definition close_subRoutineDone : M unit := mret tt.

(** One pass of the [select] in [Sync]. *)
Definition Sync_select (server : Server) (r : Received) : M unit :=
  match r with
  | signalChan =>
      _ ← DeleteRoutePolicyForExistingPods server;
      close_subRoutineDone
  | mainRoutineDone =>
      _ ← DeleteRoutePolicyForExistingPods server;
      close_subRoutineDone
  | PodObjChannel pod =>
      if eventPodInScope server pod then
        '(err, t) ← ApplyEndpointRoutePolicy env (Status_PodIP pod) (MetadataIP server)
                      (MetadataPort server) (HostIP server) (NMIPort server);
        afterApply server (Status_PodIP pod) err t
      else mret tt
  end.

Definition setInitialized (b : bool) : M unit := fun w =>
  (Ret tt, mkWorld (trace w) (podMap w) b).

(** [Sync], run on what its [select] receives, in order. *)
Definition Sync (server : Server) (received : list Received) : M unit :=
  _ ← ApplyRoutePolicyForExistingPods server;
  _ ← setInitialized true;
  forRange received (Sync_select server).

End WithEnv.

End redirector_windows.

(* ===================================================================== *)
(** ** The incremental Windows redirector ([WindowsRedirector], [podMap]) *)
(* ===================================================================== *)

Module WindowsRedirector.
Import endpointpolicy.

Section WithEnv.
Variable env : Env.

Definition PodClient_ListPods : M (list Pod * option error) :=
  tr ← getTrace;
  _ ← emit EvListPods;
  mret (ListPods env tr).

(** [podMap[uid]], [podMap[uid] = ip] and [delete(podMap, uid)]. *)
Definition podMap_lookup (uid : string) : M (option string) := fun w =>
  (Ret (podMap w !! uid), w).
Definition podMap_store (uid ip : string) : M unit := fun w =>
  (Ret tt, mkWorld (trace w) (<[uid := ip]> (podMap w)) (Initialized w)).
Definition podMap_delete (uid : string) : M unit := fun w =>
  (Ret tt, mkWorld (trace w) (delete uid (podMap w)) (Initialized w)).

Definition ApplyRoutePolicyForExistingPods (server : Server) : M unit :=
  '(listPods, _) ← PodClient_ListPods;
  forRange listPods (fun podItem =>
    if String.eqb (Spec_NodeName podItem) (NodeName server)
       && negb (String.eqb (Status_PodIP podItem) "")
       && negb (String.eqb (Status_PodIP podItem) (HostIP server))
    then
      _ ← ApplyEndpointRoutePolicy env (Status_PodIP podItem) (MetadataIP server)
            (MetadataPort server) (HostIP server) (NMIPort server);
      mret tt
    else mret tt).

Definition DeleteRoutePolicyForExistingPods (server : Server) : M unit :=
  '(listPods, err) ← PodClient_ListPods;
  let exitCode := match err with Some _ => 1 | None => 0 end in
  _ ← forRange listPods (fun podItem =>
        if String.eqb (Spec_NodeName podItem) (NodeName server) then
          _ ← DeleteEndpointRoutePolicy env (Status_PodIP podItem) (MetadataIP server);
          mret tt
        else mret tt);
  _ ← time_Sleep 10;
  os_Exit exitCode.

(** One pass of the [select] in [(s *WindowsRedirector) Sync]; this
    redirector has no [mainRoutineDone] channel. *)
Definition Sync_select (server : Server) (r : Received) : M unit :=
  match r with
  | signalChan => DeleteRoutePolicyForExistingPods server
  | mainRoutineDone => mret tt
  | PodObjChannel pod =>
      if String.eqb (NodeName server) (Spec_NodeName pod)
         && negb (String.eqb (HostIP server) (Status_PodIP pod))
      then
        o ← podMap_lookup (UID pod);
        match o with
        | Some podIP =>
            _ ← DeleteEndpointRoutePolicy env podIP (MetadataIP server);
            podMap_delete (UID pod)
        | None =>
            _ ← podMap_store (UID pod) (Status_PodIP pod);
            _ ← ApplyEndpointRoutePolicy env (Status_PodIP pod) (MetadataIP server)
                  (MetadataPort server) (HostIP server) (NMIPort server);
            mret tt
        end
      else mret tt
  end.

Definition Sync (server : Server) (received : list Received) : M unit :=
  _ ← redirector_windows.setInitialized true;
  forRange received (Sync_select server).


End WithEnv.

End WindowsRedirector.

(* ===================================================================== *)
(** ** The NMI Windows health probe that taints the node *)
(* ===================================================================== *)

Module probes.

Definition TaintEffectNoSchedule : string := "NoSchedule".
Definition hcnagentfailed : string := "hcnagentfailed".

(** [removeTaint]: [newTaints] starts nil and collects the taints whose key
    is not [taintName]. *)
Fixpoint removeTaint_loop (taints : list Taint) (taintName : string) (newTaints : list Taint)
  : list Taint :=
  match taints with
  | [] => newTaints
  | taint :: rest =>
      if String.eqb (Key taint) taintName then removeTaint_loop rest taintName newTaints
      else removeTaint_loop rest taintName (newTaints ++ [taint])
  end.

Definition removeTaint (taints : list Taint) (taintName : string) : list Taint :=
  removeTaint_loop taints taintName [].

Section WithEnv.
Variable env : Env.

Definition hcnclient_InvokeHNSRequest (req : HNSRequest) : M HNSResponse :=
  tr ← getTrace;
  _ ← emit (EvInvokeHNS req);
  mret (InvokeHNSRequestFunc env tr req).

Definition Nodes_Get_ (name : string) : M (Node * option error) :=
  tr ← getTrace;
  _ ← emit (EvNodeGet name);
  mret (Nodes_Get env tr name).

Definition Nodes_Update_ (node : Node) : M (option error) :=
  tr ← getTrace;
  _ ← emit (EvNodeUpdate node);
  mret (Nodes_Update env tr node).

(** The handler [initNMIWindowsHealthProbe] registers for [/healthz]. *)
Definition healthz (condition : bool) (nodeName : string) : M unit :=
  let request := mkHNSRequest EndpointV1 Enumerate NoBody in
  res ← hcnclient_InvokeHNSRequest request;
  _ ← match Error_ res with
      | Some _ =>
          '(currentNode, _) ← Nodes_Get_ nodeName;
          let currentNode :=
            mkNode (ObjectMeta_Name currentNode)
                   (Spec_Taints currentNode ++ [mkTaint hcnagentfailed "" TaintEffectNoSchedule]) in
          _ ← Nodes_Update_ currentNode;
          emit (EvWriteHeader 500)
      | None =>
          '(currentNode, _) ← Nodes_Get_ nodeName;
          let currentNode :=
            mkNode (ObjectMeta_Name currentNode)
                   (removeTaint (Spec_Taints currentNode) hcnagentfailed) in
          _ ← Nodes_Update_ currentNode;
          emit (EvWriteHeader 200)
      end;
  if condition then emit (EvWrite "Active") else emit (EvWrite "Not Active").

End WithEnv.

End probes.

(* ===================================================================== *)
(** ** Vocabulary of the statements *)
(* ===================================================================== *)

(** Events of the gateway: raw backend calls and the back-off sleeps. *)
Definition isGateway (e : Event) : bool :=
  match e with
  | EvInvokeHNS _ | EvSleep _ => true
  | _ => false
  end.

(** [k] failed attempts of [req], each followed by its sleep. *)
Fixpoint backoff (req : HNSRequest) (k : nat) (sleepFactor : Z) : list Event :=
  match k with
  | O => []
  | S k' => EvInvokeHNS req :: EvSleep sleepFactor :: backoff req k' (sleepFactor * 2)
  end.

(** What the gateway does for a request that keeps failing, up to its last
    attempt. *)
Definition schedule (req : HNSRequest) : list Event :=
  [EvInvokeHNS req; EvSleep 1; EvInvokeHNS req; EvSleep 2;
   EvInvokeHNS req; EvSleep 4; EvInvokeHNS req; EvSleep 8].

(** What one enumeration through the gateway means to the locator. *)
Inductive Enumeration : Type :=
| EnumFailed (e : error)
| EnumFound (ep : HNSEndpoint)
| EnumMiss.

Definition classify (ip : string) (r : Body * option error) : Enumeration :=
  match r with
  | (_, Some e) => EnumFailed e
  | (response, None) =>
      match endpointpolicy.UnmarshalEndpoints response with
      | (_, Some e) => EnumFailed e
      | (endpoints, None) =>
          match endpointpolicy.scan endpoints ip with
          | Some ep => EnumFound ep
          | None => EnumMiss
          end
      end
  end.

Definition enumerate (env : Env) : M (Body * option error) :=
  endpointpolicy.callHcnProxyAgent env endpointpolicy.enumerateRequest.

(** The state after one enumeration per delay, each followed by a sleep of
    that delay. *)
Fixpoint afterMisses (env : Env) (delays : list Z) (w : World) : World :=
  match delays with
  | [] => w
  | d :: rest => afterMisses env rest (extend (snd (enumerate env w)) [EvSleep d])
  end.

Fixpoint doubling (k : nat) (sleepFactor : Z) : list Z :=
  match k with
  | O => []
  | S k' => sleepFactor :: doubling k' (sleepFactor * 2)
  end.

Definition notFoundError (ip : string) : error :=
  endpointPolicyError endpointpolicy.NotFound
    (errorString ("No endpoint found for Pod IP - " +:+ ip +:+ ".")).

(** What an enumeration shows, read off the gateway's result itself.  The
    result [lists] the endpoints when it carries no error and its bytes are
    the text of a list of endpoints; it is [undecodable] when it carries no
    error and its bytes are not such a text. *)
Definition lists (r : Body * option error) (endpoints : list HNSEndpoint) : Prop :=
  r = (EndpointsJSON endpoints, None).

Definition undecodable (r : Body * option error) : Prop :=
  snd r = None /\ forall endpoints, fst r <> EndpointsJSON endpoints.

(** No endpoint of the list has the address. *)
Definition noneWith (ip : string) (endpoints : list HNSEndpoint) : Prop :=
  Forall (fun ep => IPAddress ep <> ip) endpoints.

(** [ep] is an endpoint of the list, it has the address, and no endpoint
    before it has. *)
Definition firstWith (ip : string) (endpoints : list HNSEndpoint) (ep : HNSEndpoint) : Prop :=
  exists before after,
    endpoints = before ++ ep :: after /\ noneWith ip before /\ IPAddress ep = ip.

(** The enumeration succeeded, decoded and holds no endpoint with the
    address. *)
Definition misses (ip : string) (r : Body * option error) : Prop :=
  exists endpoints, lists r endpoints /\ noneWith ip endpoints.

(** What the locator can return for [ip]: an endpoint with that address, or
    an [endpointPolicyError] classified [InvalidOperation] or [NotFound]. *)
Definition locatorResult (ip : string) (r : option HNSEndpoint * option error) : Prop :=
  (exists ep, r = (Some ep, None) /\ IPAddress ep = ip) \/
  (exists e, r = (None, Some (endpointPolicyError endpointpolicy.InvalidOperation e))) \/
  r = (None, Some (notFoundError ip)).

(** What [ApplyEndpointRoutePolicy] and [DeleteEndpointRoutePolicy] can
    return for a non-empty pod address. *)
Definition editResult (r : option error * string) : Prop :=
  r = (None, "") \/
  (exists e, r = (Some e, endpointpolicy.InvalidOperation)) \/
  (exists e, r = (Some e, endpointpolicy.UnKnown)).

Definition missingIP : option error * string :=
  (Some (errorString "Missing IP Address"), endpointpolicy.NotFound).

(** The addresses for which [ApplyEndpointRoutePolicy], respectively
    [DeleteEndpointRoutePolicy], was called, in order. *)
Definition applyCalls (tr : list Event) : list string :=
  omap (fun e => match e with EvApplyCall ip => Some ip | _ => None end) tr.

Definition deleteCalls (tr : list Event) : list string :=
  omap (fun e => match e with EvDeleteCall ip => Some ip | _ => None end) tr.

(** The events of [uploadIPRoutePolicyMetrics]. *)
Definition metricsOf (err : option error) (server : Server) (podIP : string) : list Event :=
  match err with
  | Some _ => [EvReport podIP (NodeName server) NMIHostPolicyApplyFailedCountM]
  | None => []
  end ++ [EvReport podIP (NodeName server) NMIHostPolicyApplyCountM].

(** A pod is in scope: it is assigned to this node, has an address, and the
    address is not the host's. *)
Definition inScope (server : Server) (pod : Pod) : Prop :=
  Spec_NodeName pod = NodeName server /\
  Status_PodIP pod <> "" /\
  Status_PodIP pod <> HostIP server.

Definition onThisNode (server : Server) (pod : Pod) : bool :=
  String.eqb (Spec_NodeName pod) (NodeName server).

(** The marker the probe adds. *)
Definition failedTaint : Taint :=
  mkTaint probes.hcnagentfailed "" probes.TaintEffectNoSchedule.

Definition hasKey (key : string) (t : Taint) : bool := String.eqb (Key t) key.

Definition countKey (key : string) (taints : list Taint) : nat :=
  length (List.filter (hasKey key) taints).

Definition otherKeys (key : string) (taints : list Taint) : list Taint :=
  List.filter (fun t => negb (hasKey key t)) taints.

(** The removal the specification describes: drop the entries that decode
    (on their own) without error to a policy whose address is
    [targetAddr], keep all others in order. *)
Definition decodedTarget (p : RawMessage) : option string :=
  match json.Unmarshal p zeroProxyPolicy with
  | (pp, None) => Some (IP pp)
  | (_, Some _) => None
  end.

Definition targets (targetAddr : string) (p : RawMessage) : bool :=
  match decodedTarget p with
  | Some a => String.eqb a targetAddr
  | None => false
  end.

Definition spec_removeTarget (policies : list RawMessage) (targetAddr : string)
  : list RawMessage :=
  List.filter (fun p => negb (targets targetAddr p)) policies.

Definition countTarget (targetAddr : string) (policies : list RawMessage) : nat :=
  length (List.filter (targets targetAddr) policies).

(** The entry [addEndpointPolicy] builds, and the policy collection it leaves
    in the endpoint. *)
Definition freshEntry (metadataIP metadataPort nmiIP nmiPort : string) : RawMessage :=
  json.Marshal (mkProxyPolicy Proxy metadataIP metadataPort (nmiIP +:+ ":" +:+ nmiPort)).

Definition addedPolicies (policies : list RawMessage)
           (metadataIP metadataPort nmiIP nmiPort : string) : list RawMessage :=
  endpointpolicy.updateEndpointPolicies policies metadataIP
  ++ [freshEntry metadataIP metadataPort nmiIP nmiPort].

(** Whether the scan of [updateEndpointPolicies] takes [p] for an entry of
    [targetAddr] when its [proxyPolicy] variable holds [pp]. *)
Definition matchesIn (targetAddr : string) (pp : ProxyPolicy) (p : RawMessage) : bool :=
  match json.Unmarshal p pp with
  | (pp', None) => String.eqb (IP pp') targetAddr
  | (_, Some _) => false
  end.

(** An entry whose reading does not depend on what was decoded before it. *)
Definition selfContained (targetAddr : string) (p : RawMessage) : Prop :=
  forall pp, matchesIn targetAddr pp p = targets targetAddr p.

(* ===================================================================== *)
(** ** Concrete collaborators and inputs *)
(* ===================================================================== *)

Definition world0 : World := mkWorld [] ∅ false.

(** An environment with the given backend and pod listing, and a node API
    that knows a taint-free node under every name and accepts updates. *)
Definition envOf (backend : list Event -> HNSRequest -> HNSResponse) (pods : list Pod) : Env :=
  mkEnv backend (fun _ => (pods, None)) (fun _ name => (mkNode name [], None)) (fun _ _ => None).

(** A backend with a fixed set of endpoints that accepts every request. *)
Definition backendWith (endpoints : list HNSEndpoint) : list Event -> HNSRequest -> HNSResponse :=
  fun _ _ => mkHNSResponse None (EndpointsJSON endpoints).

(** A backend that fails every request. *)
Definition backendDown : list Event -> HNSRequest -> HNSResponse :=
  fun _ _ => mkHNSResponse (Some (errorString "hcn agent unreachable")) NoBody.

(** A backend with a fixed set of endpoints whose [Modify] always fails
    with "boom". *)
Definition backendModifyFails (endpoints : list HNSEndpoint)
  : list Event -> HNSRequest -> HNSResponse :=
  fun _ req =>
    match Operation req with
    | Enumerate => mkHNSResponse None (EndpointsJSON endpoints)
    | Modify => mkHNSResponse (Some (errorString "boom")) NoBody
    end.

Definition countInvocations (tr : list Event) : nat :=
  length (List.filter (fun e => match e with EvInvokeHNS _ => true | _ => false end) tr).

(** A backend whose enumeration is empty for the first three calls and holds
    [ep] from the fourth call on. *)
Definition backendLate (ep : HNSEndpoint) : list Event -> HNSRequest -> HNSResponse :=
  fun tr _ =>
    if (countInvocations tr <? 3)%nat then mkHNSResponse None (EndpointsJSON [])
    else mkHNSResponse None (EndpointsJSON [ep]).

Definition thisServer : Server :=
  mkServer "node-1" "10.0.0.1" "169.254.169.254" "80" "8429".

(** Pods of the scenarios: [podA] is in scope on [thisServer], [podB] is on
    the node but has no address yet, [podC] is on another node. *)
Definition podA : Pod := mkPod "uid-a" "a" "node-1" "10.0.0.5" "10.0.0.1".
Definition podB : Pod := mkPod "uid-b" "b" "node-1" "" "10.0.0.1".
Definition podC : Pod := mkPod "uid-c" "c" "node-2" "10.0.1.7" "10.0.0.2".

Definition endpointA : HNSEndpoint := mkHNSEndpoint "ep-5" "10.0.0.5" [].

(** The node as last submitted to [Update], [initial] if none was. *)
Fixpoint lastUpdate (tr : list Event) (initial : Node) : Node :=
  match tr with
  | [] => initial
  | EvNodeUpdate node :: rest => lastUpdate rest node
  | _ :: rest => lastUpdate rest initial
  end.

(** A node API that stores what is submitted, over a backend that is down. *)
Definition envNodeStore (initial : Node) : Env :=
  mkEnv backendDown (fun _ => ([], None))
        (fun tr _ => (lastUpdate tr initial, None)) (fun _ _ => None).

Definition cleanNode : Node := mkNode "node-1" [mkTaint "dedicated" "gpu" "NoSchedule"].

(** A world in which the incremental redirector has applied the policy of
    [podA] when its address was 10.0.0.9. *)
Definition worldApplied : World := mkWorld [] {["uid-a" := "10.0.0.9"]} false.

(** Policy entries of the scenarios: the redirection entry for the metadata
    address as [addEndpointPolicy] writes it, a redirection entry for another
    address, and an entry of another kind, which has no address member. *)
Definition imds : string := "169.254.169.254".

Definition imdsEntry : RawMessage :=
  json.Marshal (mkProxyPolicy Proxy imds "80" "10.0.0.1:8429").

Definition otherEntry : RawMessage :=
  json.Marshal (mkProxyPolicy Proxy "10.96.0.10" "53" "10.0.0.1:5353").

Definition aclEntry : RawMessage :=
  Text (JObject [("Type", JString "ACL"); ("Action", JString "Allow");
                 ("Direction", JString "Out"); ("Priority", JNumber 200)]).

(** A backend whose enumeration holds [early] for the first three calls and
    [late] from the fourth call on. *)
Definition backendSettling (early late : list HNSEndpoint)
  : list Event -> HNSRequest -> HNSResponse :=
  fun tr _ =>
    if (countInvocations tr <? 3)%nat then mkHNSResponse None (EndpointsJSON early)
    else mkHNSResponse None (EndpointsJSON late).

(** Endpoints of the locator scenario: one of another pod, and two with the
    address 10.0.0.5, the first of which carries policies. *)
Definition endpointOther : HNSEndpoint := mkHNSEndpoint "ep-7" "10.0.0.7" [otherEntry].
Definition endpointFirst : HNSEndpoint := mkHNSEndpoint "ep-5" "10.0.0.5" [imdsEntry; aclEntry].
Definition endpointSecond : HNSEndpoint := mkHNSEndpoint "ep-9" "10.0.0.5" [].


(* ===================================================================== *)
(** ** Cost of a run: backend requests issued and time slept *)
(* ===================================================================== *)

(** The requests passed to the backend, in order. *)
Definition requestsOf (tr : list Event) : list HNSRequest :=
  omap (fun e => match e with EvInvokeHNS req => Some req | _ => None end) tr.

(** The seconds spent in [time.Sleep]. *)
Fixpoint sleptOf (tr : list Event) : Z :=
  match tr with
  | [] => 0
  | EvSleep s :: rest => s + sleptOf rest
  | _ :: rest => sleptOf rest
  end.

(** The [Modify] request that carries [endpoint]. *)
Definition modifyRequest (endpoint : HNSEndpoint) : HNSRequest :=
  mkHNSRequest EndpointV1 Modify (EndpointJSON endpoint).

(** The loop variables of the two retry loops as they can be when an
    iteration starts. *)
Definition retryState (retryCount sleepFactor : Z) : Prop :=
  (retryCount = 1 /\ sleepFactor = 1) \/ (retryCount = 2 /\ sleepFactor = 2) \/
  (retryCount = 3 /\ sleepFactor = 4) \/ (retryCount = 4 /\ sleepFactor = 8) \/
  (retryCount = 5 /\ sleepFactor = 16).

(** The error [json.Marshal(endpoint)] returns for an entry that is not
    JSON text. *)
Definition marshalerError : error :=
  errorString "json: error calling MarshalJSON for type json.RawMessage".

(** [errors.Unwrap]. *)
Definition Unwrap (e : error) : option error :=
  match e with
  | wrapError _ inner => Some inner
  | _ => None
  end.

(** The endpoint [deleteEndpointPolicy] leaves. *)
Definition scanned (endpoint : HNSEndpoint) (metadataIP : string) : HNSEndpoint :=
  mkHNSEndpoint (Id endpoint) (IPAddress endpoint)
    (endpointpolicy.updateEndpointPolicies (Policies endpoint) metadataIP).

(** The endpoint [addEndpointPolicy] leaves. *)
Definition upserted (endpoint : HNSEndpoint) (metadataIP metadataPort nmiIP nmiPort : string)
  : HNSEndpoint :=
  mkHNSEndpoint (Id endpoint) (IPAddress endpoint)
    (addedPolicies (Policies endpoint) metadataIP metadataPort nmiIP nmiPort).

(** A backend as the mocks of the repository's tests are: the answer depends
    on the operation only. *)
Definition mockBackend (onEnumerate onModify : HNSResponse)
  : list Event -> HNSRequest -> HNSResponse :=
  fun _ req =>
    match Operation req with
    | Enumerate => onEnumerate
    | Modify => onModify
    end.

(** The messages [ApplyEndpointRoutePolicy] and [DeleteEndpointRoutePolicy]
    put before the cause of an error. *)
Definition locateFailed (podIP : string) : string :=
  "Get endpoint for Pod IP - " +:+ podIP +:+ ". Error: ".

Definition addFailed (podIP id : string) : string :=
  "Could not add policy for ip [" +:+ podIP +:+ "] to endpoint - " +:+ id +:+ ". Error: ".

Definition deleteFailed (podIP id : string) : string :=
  "Could't delete policy for ip [" +:+ podIP +:+ "] to endpoint - " +:+ id +:+ ". Error: ".

(** What an operation returns once the editor has returned [err]. *)
Definition applied (podIP id : string) (err : option error) : option error * string :=
  match err with
  | Some cause => (Some (Errorf_w (addFailed podIP id) cause), endpointpolicy.UnKnown)
  | None => (None, "")
  end.

Definition deleted (podIP id : string) (err : option error) : option error * string :=
  match err with
  | Some cause => (Some (Errorf_v (deleteFailed podIP id) cause), endpointpolicy.UnKnown)
  | None => (None, "")
  end.

Definition noEndpoint : HNSEndpoint := mkHNSEndpoint "" "" [].

(* ===================================================================== *)
(** ** Metrics reported by the redirector *)
(* ===================================================================== *)

(** The addresses reported with [NMIHostPolicyApplyCountM], respectively
    [NMIHostPolicyApplyFailedCountM], in order. *)
Definition countReports (tr : list Event) : list string :=
  omap (fun e => match e with
                 | EvReport ip _ NMIHostPolicyApplyCountM => Some ip
                 | _ => None
                 end) tr.

Definition failedReports (tr : list Event) : list string :=
  omap (fun e => match e with
                 | EvReport ip _ NMIHostPolicyApplyFailedCountM => Some ip
                 | _ => None
                 end) tr.

(** The node names the reports carry. *)
Definition reportNodes (tr : list Event) : list string :=
  omap (fun e => match e with EvReport _ nodeName _ => Some nodeName | _ => None end) tr.

(** The number of pod listings. *)
Definition listings (tr : list Event) : nat :=
  length (List.filter (fun e => match e with EvListPods => true | _ => false end) tr).

(** What [Sync] received is a signal. *)
Definition isSignal (r : Received) : bool :=
  match r with
  | signalChan | mainRoutineDone => true
  | PodObjChannel _ => false
  end.

(** An address [redirector_windows.go] may apply a policy for. *)
Definition applicable (server : Server) (ip : string) : Prop :=
  ip <> "" /\ ip <> HostIP server.

(** The reports among the events of one operation followed by its metrics:
    one count report for the address, at most one failure report, which is
    there when the address is empty, all for this node. *)
Definition accounted (server : Server) (ip : string) (evs : list Event) : Prop :=
  countReports evs = [ip] /\
  (failedReports evs = [ip] \/ failedReports evs = []) /\
  (ip = "" -> failedReports evs = [ip]) /\
  Forall (eq (NodeName server)) (reportNodes evs) /\
  listings evs = 0%nat.

(** The reports among the events of a loop that ran one operation for each
    of [ips]. *)
Definition accountedAll (server : Server) (ips : list string) (evs : list Event) : Prop :=
  countReports evs = ips /\
  sublist (failedReports evs) ips /\
  List.filter (String.eqb "") (failedReports evs) = List.filter (String.eqb "") ips /\
  Forall (eq (NodeName server)) (reportNodes evs) /\
  listings evs = 0%nat.

(* ===================================================================== *)
(** ** pkg/nmi/server/redirector_linux.go *)
(* ===================================================================== *)

Module redirector_linux.

(** The [Server] fields this file reads. *)
Record Server : Type := mkServer {
  NodeName : string;
  HostIP : string;
  MetadataIP : string;
  MetadataPort : string;
  NMIPort : string;
  IPTableUpdateTimeIntervalInSeconds : Z
}.

(** What the redirector does to the outside: the calls into the [iptables]
    package and the sleep before exiting. *)
Inductive Action : Type :=
| AddCustomChainCall (destIP destPort targetip targetPort : string)
| LogCustomChainCall
| DeleteCustomChainCall
| SleepCall (seconds : Z).

(** The [iptables] package; each function answers as a function of what was
    done so far. *)
Record Iptables : Type := mkIptables {
  AddCustomChain : list Action -> string -> string -> string -> string -> option error;
  LogCustomChain : list Action -> option error;
  DeleteCustomChain : list Action -> option error
}.

(** Process state: what was done, and [server.Initialized]. *)
Record State : Type := mkState {
  done : list Action;
  Initialized : bool
}.

Definition L (A : Type) : Type := State -> Outcome A * State.

#[global] Instance L_ret : MRet L := fun A a s => (Ret a, s).
#[global] Instance L_bind : MBind L := fun A B k c s =>
  match c s with
  | (Ret a, s') => k a s'
  | (Exited code, s') => (Exited code, s')
  | (Panic, s') => (Panic, s')
  | (OutOfFuel, s') => (OutOfFuel, s')
  end.

Definition act {A} (a : Action) (answer : list Action -> A) : L A := fun s =>
  (Ret (answer (done s)), mkState (done s ++ [a]) (Initialized s)).

(** [klog.Fatalf] logs and exits with status 255. *)
Definition klog_Fatalf {A} : L A := fun s => (Exited 255, s).
Definition os_Exit {A} (code : Z) : L A := fun s => (Exited code, s).
Definition panic {A} : L A := fun s => (Panic, s).
Definition setInitialized (b : bool) : L unit := fun s => (Ret tt, mkState (done s) b).

(** What one pass of the [select] receives. *)
Inductive Received : Type :=
| mainRoutineDone
| signalChan
| ticker_C.

(** [time.Second * time.Duration(n)], an [int64] count of nanoseconds. *)
Definition wrap64 (z : Z) : Z := (z + 2 ^ 63) mod 2 ^ 64 - 2 ^ 63.
Definition tickerDuration (server : Server) : Z :=
  wrap64 (1000000000 * IPTableUpdateTimeIntervalInSeconds server).

Section WithIptables.
Variable iptables : Iptables.

Definition updateIPTableRulesInternal (server : Server) : L unit :=
  err ← act (AddCustomChainCall (MetadataIP server) (MetadataPort server)
                                (HostIP server) (NMIPort server))
            (fun tr => AddCustomChain iptables tr (MetadataIP server) (MetadataPort server)
                         (HostIP server) (NMIPort server));
  match err with
  | Some _ => klog_Fatalf
  | None =>
      err ← act LogCustomChainCall (LogCustomChain iptables);
      match err with
      | Some _ => klog_Fatalf
      | None => mret tt
      end
  end.

Definition handleTermination : L unit :=
  err ← act DeleteCustomChainCall (DeleteCustomChain iptables);
  let exitCode := match err with Some _ => 1 | None => 0 end in
  _ ← act (SleepCall 10) (fun _ => tt);
  os_Exit exitCode.

(** One pass of the [select] in [updateIPTableRules]. *)
Definition updateIPTableRules_select (server : Server) (r : Received) : L unit :=
  match r with
  | mainRoutineDone => mret tt
  | signalChan => handleTermination
  | ticker_C => updateIPTableRulesInternal server
  end.

Fixpoint serve (server : Server) (received : list Received) : L unit :=
  match received with
  | [] => mret tt
  | r :: rest => _ ← updateIPTableRules_select server r; serve server rest
  end.

(** [updateIPTableRules], run on what its [select] receives, in order.
    [time.NewTicker] panics for a duration that is not positive. *)
Definition updateIPTableRules (server : Server) (received : list Received) : L unit :=
  if tickerDuration server <=? 0 then panic
  else
    _ ← updateIPTableRulesInternal server;
    _ ← setInitialized true;
    serve server received.

End WithIptables.

(** The two calls of one installation of the rules. *)
Definition installation (server : Server) : list Action :=
  [AddCustomChainCall (MetadataIP server) (MetadataPort server) (HostIP server) (NMIPort server);
   LogCustomChainCall].

(** [n] installations in a row. *)
Fixpoint installations (server : Server) (n : nat) : list Action :=
  match n with
  | O => []
  | S n' => installation server ++ installations server n'
  end.

(** The number of ticks received. *)
Definition ticks (received : list Received) : nat :=
  length (List.filter (fun r => match r with ticker_C => true | _ => false end) received).

Definition noSignal (received : list Received) : Prop :=
  Forall (fun r => r <> signalChan) received.

(** An [iptables] package whose installation calls succeed. *)
Definition installs (iptables : Iptables) : Prop :=
  (forall tr a b c d, AddCustomChain iptables tr a b c d = None) /\
  (forall tr, LogCustomChain iptables tr = None).

(** Concrete input: interval of 60 seconds, an [iptables] package that
    accepts everything but the deletion. *)
Definition linuxServer : Server :=
  mkServer "node-1" "10.0.0.1" "169.254.169.254" "80" "2579" 60.

Definition iptablesKeepsChain : Iptables :=
  mkIptables (fun _ _ _ _ _ => None) (fun _ => None)
             (fun _ => Some (errorString "chain in use")).

End redirector_linux.

(* ===================================================================== *)
(** ** Running computations *)
(* ===================================================================== *)

Lemma extend_nil (w : World) : extend w [] = w.
Proof. destruct w; unfold extend; simpl. by rewrite app_nil_r. Qed.

Lemma extend_extend (w : World) (a b : list Event) :
  extend (extend w a) b = extend w (a ++ b).
Proof. unfold extend; simpl. by rewrite app_assoc. Qed.

Lemma trace_extend (w : World) (a : list Event) : trace (extend w a) = trace w ++ a.
Proof. reflexivity. Qed.

Lemma podMap_extend (w : World) (a : list Event) : podMap (extend w a) = podMap w.
Proof. reflexivity. Qed.

Lemma run_bind {A B} (c : M A) (k : A -> M B) (w : World) :
  (c ≫= k) w =
  match c w with
  | (Ret a, w') => k a w'
  | (Exited code, w') => (Exited code, w')
  | (Panic, w') => (Panic, w')
  | (OutOfFuel, w') => (OutOfFuel, w')
  end.
Proof. reflexivity. Qed.

Lemma run_bind_ret {A B} (c : M A) (k : A -> M B) (w w' : World) (a : A) :
  c w = (Ret a, w') -> (c ≫= k) w = k a w'.
Proof. intros H. rewrite run_bind, H. reflexivity. Qed.

Ltac unfold_M :=
  unfold time_Sleep; unfold mbind, M_bind, bind, mret, M_ret, ret, getTrace, emit; cbn beta iota.

(* ===================================================================== *)
(** ** The gateway's bounded retry *)
(* ===================================================================== *)

Module gateway_facts.
Import endpointpolicy.

Section WithEnv.
Variable env : Env.

Lemma backoff_schedule req k : (k <= 4)%nat -> backoff req k 1 = take (2 * k) (schedule req).
Proof.
  intros H. do 5 (destruct k as [|k]; [reflexivity|]). lia.
Qed.

Lemma Forall_isGateway_backoff req k sf : Forall (fun e => isGateway e = true) (backoff req k sf).
Proof.
  revert sf. induction k as [|k IH]; intros sf; simpl; [constructor|].
  repeat constructor. apply IH.
Qed.

Lemma callHcnProxyAgentInternal_run req w :
  callHcnProxyAgentInternal env req w =
  (Ret match Error_ (InvokeHNSRequestFunc env (trace w) req) with
       | Some e => (NoBody, Some e)
       | None => (Response (InvokeHNSRequestFunc env (trace w) req), None)
       end,
   extend w [EvInvokeHNS req]).
Proof.
  unfold callHcnProxyAgentInternal. unfold_M.
  destruct (Error_ (InvokeHNSRequestFunc env (trace w) req)); reflexivity.
Qed.

Lemma callHcnProxyAgent_loop_step fuel req rc sf w :
  callHcnProxyAgent_loop env (S fuel) req rc sf w =
  match Error_ (InvokeHNSRequestFunc env (trace w) req) with
  | None => (Ret (Response (InvokeHNSRequestFunc env (trace w) req), None),
             extend w [EvInvokeHNS req])
  | Some e =>
      if rc >? maxRetryCount then (Ret (NoBody, Some e), extend w [EvInvokeHNS req])
      else callHcnProxyAgent_loop env fuel req (rc + 1) (sf * 2)
             (extend w [EvInvokeHNS req; EvSleep sf])
  end.
Proof.
  cbn [callHcnProxyAgent_loop]. rewrite run_bind, callHcnProxyAgentInternal_run.
  destruct (Error_ (InvokeHNSRequestFunc env (trace w) req)) as [e|]; [|reflexivity].
  destruct (rc >? maxRetryCount); [reflexivity|].
  rewrite run_bind. unfold_M. rewrite extend_extend. reflexivity.
Qed.

(** The loop from any reachable loop state: it returns after [k] failed
    attempts, [retryCount + k <= 5]; an error is returned only by the
    attempt made with [retryCount = 5]. *)
Lemma callHcnProxyAgent_loop_spec req :
  forall fuel rc sf w,
    rc <= 5 -> 5 - rc < Z.of_nat fuel ->
    exists k : nat,
      rc + Z.of_nat k <= 5 /\
      (forall j, (j < k)%nat ->
         Error_ (InvokeHNSRequestFunc env (trace w ++ backoff req j sf) req) <> None) /\
      match Error_ (InvokeHNSRequestFunc env (trace w ++ backoff req k sf) req) with
      | None =>
          callHcnProxyAgent_loop env fuel req rc sf w =
          (Ret (Response (InvokeHNSRequestFunc env (trace w ++ backoff req k sf) req), None),
           extend w (backoff req k sf ++ [EvInvokeHNS req]))
      | Some e =>
          rc + Z.of_nat k = 5 /\
          callHcnProxyAgent_loop env fuel req rc sf w =
          (Ret (NoBody, Some e), extend w (backoff req k sf ++ [EvInvokeHNS req]))
      end.
Proof.
  induction fuel as [|fuel IH]; intros rc sf w Hrc Hfuel; [lia|].
  destruct (Error_ (InvokeHNSRequestFunc env (trace w) req)) as [e|] eqn:E.
  - destruct (rc >? maxRetryCount) eqn:Hgt.
    + exists O. unfold maxRetryCount in Hgt. apply Z.gtb_lt in Hgt.
      split; [lia|]. split; [intros j Hj; lia|].
      cbn [backoff]. rewrite app_nil_r, E. split; [lia|].
      rewrite callHcnProxyAgent_loop_step, E.
      unfold maxRetryCount. apply Z.gtb_lt in Hgt. rewrite Hgt. reflexivity.
    + assert (rc <= 4) by (unfold maxRetryCount in Hgt; rewrite Z.gtb_ltb in Hgt;
                           apply Z.ltb_ge in Hgt; lia).
      destruct (IH (rc + 1) (sf * 2) (extend w [EvInvokeHNS req; EvSleep sf]))
        as (k & Hk & Hfail & Hres); [lia|lia|].
      exists (S k). split; [lia|]. split.
      * intros [|j] Hj; cbn [backoff].
        -- rewrite app_nil_r, E. discriminate.
        -- specialize (Hfail j ltac:(lia)). rewrite trace_extend, <- app_assoc in Hfail.
           exact Hfail.
      * rewrite trace_extend, <- app_assoc in Hres. cbn [app] in Hres. cbn [backoff].
        rewrite callHcnProxyAgent_loop_step, E, Hgt.
        rewrite extend_extend in Hres. cbn [app] in Hres.
        destruct (Error_ (InvokeHNSRequestFunc env
                   (trace w ++ EvInvokeHNS req :: EvSleep sf :: backoff req k (sf * 2)) req));
          [destruct Hres as [Hr1 Hr2]; split; [lia|exact Hr2] | exact Hres].
  - exists O. split; [lia|]. split; [intros j Hj; lia|].
    cbn [backoff]. rewrite app_nil_r, E.
    rewrite callHcnProxyAgent_loop_step, E. reflexivity.
Qed.

(** The gateway always returns, and all it does is call the backend and
    sleep. *)
Lemma callHcnProxyAgent_returns req w :
  exists r evs,
    callHcnProxyAgent env req w = (Ret r, extend w evs) /\
    Forall (fun e => isGateway e = true) evs.
Proof.
  destruct (callHcnProxyAgent_loop_spec req 5 1 1 w) as (k & _ & _ & H); [lia|lia|].
  unfold callHcnProxyAgent.
  destruct (Error_ _) in H; [destruct H as [_ H]|]; rewrite H; eexists _, _;
    (split; [reflexivity|]);
    (apply Forall_app; split; [apply Forall_isGateway_backoff|repeat constructor]).
Qed.

End WithEnv.

End gateway_facts.

(** C3.  For every request and every behaviour of the backend, the gateway
    [callHcnProxyAgent] stops after [k <= 4] failed attempts of the raw call:
    what it has done is the first [2k] events of the schedule
    call, sleep 1, call, sleep 2, call, sleep 4, call, sleep 8, followed by one
    more call; all [k] earlier attempts failed; if that last call succeeds its
    response is returned, and if it fails then [k = 4] (it was the fifth
    attempt) and its error is returned as it is. *)
Theorem callHcnProxyAgent_bounded_retry (env : Env) (req : HNSRequest) (w : World) :
  exists k : nat,
    (k <= 4)%nat /\
    (forall j, (j < k)%nat ->
       Error_ (InvokeHNSRequestFunc env
                 (trace w ++ take (2 * j) (schedule req)) req) <> None) /\
    let done := take (2 * k) (schedule req) in
    let res := InvokeHNSRequestFunc env (trace w ++ done) req in
    match Error_ res with
    | None =>
        endpointpolicy.callHcnProxyAgent env req w =
        (Ret (Response res, None), extend w (done ++ [EvInvokeHNS req]))
    | Some e =>
        k = 4%nat /\
        endpointpolicy.callHcnProxyAgent env req w =
        (Ret (NoBody, Some e), extend w (done ++ [EvInvokeHNS req]))
    end.
Proof.
  destruct (gateway_facts.callHcnProxyAgent_loop_spec env req 5 1 1 w)
    as (k & Hk & Hfail & Hres); [lia|lia|].
  assert (Hk4 : (k <= 4)%nat) by lia.
  exists k. split; [exact Hk4|]. split.
  - intros j Hj. rewrite <- gateway_facts.backoff_schedule by lia. apply Hfail, Hj.
  - cbv zeta. rewrite <- gateway_facts.backoff_schedule by lia.
    unfold endpointpolicy.callHcnProxyAgent.
    destruct (Error_ _); [|exact Hres].
    destruct Hres as [H5 Hrun]. split; [lia|exact Hrun].
Qed.

(* ===================================================================== *)
(** ** The locator's existence retry *)
(* ===================================================================== *)

Module locator_facts.
Import endpointpolicy.

Section WithEnv.
Variable env : Env.

Lemma doubling_delays k : (k <= 4)%nat -> doubling k 1 = take k [1; 2; 4; 8].
Proof. intros H. do 5 (destruct k as [|k]; [reflexivity|]). lia. Qed.

Lemma enumerate_returns w :
  exists r evs, enumerate env w = (Ret r, extend w evs) /\
                Forall (fun e => isGateway e = true) evs.
Proof. apply gateway_facts.callHcnProxyAgent_returns. Qed.

Lemma getEndpointByIP_loop_step fuel ip rc sf w r w1 :
  enumerate env w = (Ret r, w1) ->
  getEndpointByIP_loop env (S fuel) ip rc sf w =
  match classify ip r with
  | EnumFailed e => (Ret (None, Some (endpointPolicyError InvalidOperation e)), w1)
  | EnumFound ep => (Ret (Some ep, None), w1)
  | EnumMiss =>
      if rc >? maxRetryCount then (Ret (None, Some (notFoundError ip)), w1)
      else getEndpointByIP_loop env fuel ip (rc + 1) (sf * 2) (extend w1 [EvSleep sf])
  end.
Proof.
  intros Hen. cbn [getEndpointByIP_loop]. rewrite run_bind.
  unfold enumerate in Hen. rewrite Hen. destruct r as [response [e|]]; [reflexivity|].
  unfold classify. destruct (UnmarshalEndpoints response) as [endpoints [e|]]; [reflexivity|].
  destruct (scan endpoints ip); [reflexivity|].
  destruct (rc >? maxRetryCount); reflexivity.
Qed.

Lemma getEndpointByIP_loop_spec ip :
  forall fuel rc sf w,
    rc <= 5 -> 5 - rc < Z.of_nat fuel ->
    exists k : nat,
      rc + Z.of_nat k <= 5 /\
      (forall j, (j < k)%nat ->
         exists r, fst (enumerate env (afterMisses env (doubling j sf) w)) = Ret r /\
                   classify ip r = EnumMiss) /\
      exists r w',
        enumerate env (afterMisses env (doubling k sf) w) = (Ret r, w') /\
        match classify ip r with
        | EnumFailed e =>
            getEndpointByIP_loop env fuel ip rc sf w =
            (Ret (None, Some (endpointPolicyError InvalidOperation e)), w')
        | EnumFound ep =>
            getEndpointByIP_loop env fuel ip rc sf w = (Ret (Some ep, None), w')
        | EnumMiss =>
            rc + Z.of_nat k = 5 /\
            getEndpointByIP_loop env fuel ip rc sf w =
            (Ret (None, Some (notFoundError ip)), w')
        end.
Proof.
  induction fuel as [|fuel IH]; intros rc sf w Hrc Hfuel; [lia|].
  destruct (enumerate_returns w) as (r & evs & Hen & _).
  pose proof (getEndpointByIP_loop_step fuel ip rc sf w r _ Hen) as Hstep.
  destruct (classify ip r) as [e|ep|] eqn:Hcl.
  - exists O. split; [lia|]. split; [intros j Hj; lia|].
    exists r, (extend w evs). cbn [doubling afterMisses]. rewrite Hcl. auto.
  - exists O. split; [lia|]. split; [intros j Hj; lia|].
    exists r, (extend w evs). cbn [doubling afterMisses]. rewrite Hcl. auto.
  - destruct (rc >? maxRetryCount) eqn:Hgt.
    + unfold maxRetryCount in Hgt. apply Z.gtb_lt in Hgt.
      exists O. split; [lia|]. split; [intros j Hj; lia|].
      exists r, (extend w evs). cbn [doubling afterMisses]. rewrite Hcl.
      split; [exact Hen|]. split; [lia|exact Hstep].
    + assert (rc <= 4) by (unfold maxRetryCount in Hgt; rewrite Z.gtb_ltb in Hgt;
                           apply Z.ltb_ge in Hgt; lia).
      destruct (IH (rc + 1) (sf * 2) (extend (extend w evs) [EvSleep sf]))
        as (k & Hk & Hmiss & r' & w' & Hen' & Hres); [lia|lia|].
      assert (Hw : extend (snd (enumerate env w)) [EvSleep sf]
                   = extend (extend w evs) [EvSleep sf]) by (rewrite Hen; reflexivity).
      exists (S k). split; [lia|]. split.
      * intros [|j] Hj; cbn [doubling afterMisses].
        -- exists r. rewrite Hen. auto.
        -- rewrite Hw. apply Hmiss. lia.
      * exists r', w'. cbn [doubling afterMisses]. rewrite Hw. split; [exact Hen'|].
        rewrite Hstep.
        destruct (classify ip r'); [exact Hres|exact Hres|].
        destruct Hres as [H5 Hrun]. split; [lia|exact Hrun].
Qed.

Lemma scan_found endpoints ip ep : scan endpoints ip = Some ep -> IPAddress ep = ip.
Proof.
  induction endpoints as [|ep' rest IH]; simpl; [discriminate|].
  destruct (String.eqb (IPAddress ep') ip) eqn:E; [|exact IH].
  intros [= <-]. by apply String.eqb_eq.
Qed.

Lemma getEndpointByIP_loop_returns ip :
  forall fuel rc sf w,
    rc <= 5 -> 5 - rc < Z.of_nat fuel ->
    exists r evs,
      getEndpointByIP_loop env fuel ip rc sf w = (Ret r, extend w evs) /\
      Forall (fun e => isGateway e = true) evs /\ locatorResult ip r.
Proof.
  induction fuel as [|fuel IH]; intros rc sf w Hrc Hfuel; [lia|].
  destruct (enumerate_returns w) as (r & evs & Hen & Hevs).
  rewrite (getEndpointByIP_loop_step fuel ip rc sf w r _ Hen).
  destruct (classify ip r) as [e|ep|] eqn:Hcl.
  - eexists _, evs. split; [reflexivity|]. split; [exact Hevs|]. right; left; eauto.
  - eexists _, evs. split; [reflexivity|]. split; [exact Hevs|]. left. exists ep.
    split; [reflexivity|]. unfold classify in Hcl. destruct r as [b [?|]]; [discriminate|].
    destruct (UnmarshalEndpoints b) as [eps [?|]]; [discriminate|].
    destruct (scan eps ip) eqn:Hs; [|discriminate]. injection Hcl as <-.
    eapply scan_found, Hs.
  - destruct (rc >? maxRetryCount) eqn:Hgt.
    + eexists _, evs. split; [reflexivity|]. split; [exact Hevs|]. right; right; reflexivity.
    + assert (rc <= 4) by (unfold maxRetryCount in Hgt; rewrite Z.gtb_ltb in Hgt;
                           apply Z.ltb_ge in Hgt; lia).
      destruct (IH (rc + 1) (sf * 2) (extend (extend w evs) [EvSleep sf]))
        as (r' & evs' & Hrun & Hevs' & Hres); [lia|lia|].
      exists r', (evs ++ [EvSleep sf] ++ evs'). rewrite Hrun.
      rewrite !extend_extend. split; [reflexivity|].
      split; [|exact Hres].
      apply Forall_app; split; [exact Hevs|]. apply Forall_app; split; [|exact Hevs'].
      repeat constructor.
Qed.

Lemma getEndpointByIP_returns ip w :
  exists r evs,
    getEndpointByIP env ip w = (Ret r, extend w evs) /\
    Forall (fun e => isGateway e = true) evs /\ locatorResult ip r.
Proof. apply getEndpointByIP_loop_returns; lia. Qed.

End WithEnv.

End locator_facts.

(** The locator as a function of what its enumerations see. *)
Lemma getEndpointByIP_cases (env : Env) (ip : string) (w : World) :
  exists k : nat,
    (k <= 4)%nat /\
    (forall j, (j < k)%nat ->
       exists r, fst (enumerate env (afterMisses env (take j [1; 2; 4; 8]) w)) = Ret r /\
                 classify ip r = EnumMiss) /\
    exists r w',
      enumerate env (afterMisses env (take k [1; 2; 4; 8]) w) = (Ret r, w') /\
      match classify ip r with
      | EnumFailed e =>
          endpointpolicy.getEndpointByIP env ip w =
          (Ret (None, Some (endpointPolicyError endpointpolicy.InvalidOperation e)), w')
      | EnumFound ep =>
          endpointpolicy.getEndpointByIP env ip w = (Ret (Some ep, None), w')
      | EnumMiss =>
          k = 4%nat /\
          endpointpolicy.getEndpointByIP env ip w = (Ret (None, Some (notFoundError ip)), w')
      end.
Proof.
  destruct (locator_facts.getEndpointByIP_loop_spec env ip 5 1 1 w)
    as (k & Hk & Hmiss & r & w' & Hen & Hres); [lia|lia|].
  assert (Hk4 : (k <= 4)%nat) by lia.
  exists k. split; [exact Hk4|]. split.
  - intros j Hj. rewrite <- locator_facts.doubling_delays by lia. apply Hmiss, Hj.
  - exists r, w'. rewrite <- locator_facts.doubling_delays by lia. split; [exact Hen|].
    unfold endpointpolicy.getEndpointByIP.
    destruct (classify ip r); [exact Hres|exact Hres|].
    destruct Hres as [H5 Hrun]. split; [lia|exact Hrun].
Qed.

(** An enumeration as the locator classifies it, against what the
    gateway's result itself shows. *)
Module enumeration_facts.

Lemma scan_first endpoints ip ep :
  endpointpolicy.scan endpoints ip = Some ep -> firstWith ip endpoints ep.
Proof.
  induction endpoints as [|ep' rest IH]; simpl; [discriminate|].
  destruct (String.eqb (IPAddress ep') ip) eqn:E.
  - intros [= <-]. exists [], rest. split; [reflexivity|]. split; [constructor|].
    by apply String.eqb_eq.
  - intros H. destruct (IH H) as (before & after & -> & Hnone & Hip).
    exists (ep' :: before), after. split; [reflexivity|]. split; [|exact Hip].
    constructor; [by apply String.eqb_neq|exact Hnone].
Qed.

Lemma scan_none endpoints ip :
  endpointpolicy.scan endpoints ip = None -> noneWith ip endpoints.
Proof.
  induction endpoints as [|ep' rest IH]; simpl; [constructor|].
  destruct (String.eqb (IPAddress ep') ip) eqn:E; [discriminate|].
  intros H. constructor; [by apply String.eqb_neq|exact (IH H)].
Qed.

Lemma noneWith_scan endpoints ip :
  noneWith ip endpoints -> endpointpolicy.scan endpoints ip = None.
Proof.
  induction 1 as [|ep' rest Hne _ IH]; simpl; [reflexivity|].
  apply String.eqb_neq in Hne. rewrite Hne. exact IH.
Qed.

Lemma firstWith_scan endpoints ip ep :
  firstWith ip endpoints ep -> endpointpolicy.scan endpoints ip = Some ep.
Proof.
  intros (before & after & -> & Hnone & Hip).
  induction Hnone as [|ep' rest Hne _ IH]; simpl.
  - apply String.eqb_eq in Hip. rewrite Hip. reflexivity.
  - apply String.eqb_neq in Hne. rewrite Hne. exact IH.
Qed.

Lemma classify_reads ip r :
  match classify ip r with
  | EnumFailed e => snd r = Some e \/ undecodable r
  | EnumFound ep => exists endpoints, lists r endpoints /\ firstWith ip endpoints ep
  | EnumMiss => misses ip r
  end.
Proof.
  destruct r as [response [e|]]; [left; reflexivity|].
  destruct response as [|e0|es|bytes]; cbn;
    try (right; split; [reflexivity|]; intros endpoints; discriminate).
  destruct (endpointpolicy.scan es ip) as [ep|] eqn:Hscan.
  - exists es. split; [reflexivity|]. apply scan_first, Hscan.
  - exists es. split; [reflexivity|]. apply scan_none, Hscan.
Qed.

Lemma misses_classify ip r : misses ip r -> classify ip r = EnumMiss.
Proof.
  intros (endpoints & -> & Hnone). cbn. rewrite (noneWith_scan _ _ Hnone). reflexivity.
Qed.

Lemma firstWith_classify ip r endpoints ep :
  lists r endpoints -> firstWith ip endpoints ep -> classify ip r = EnumFound ep.
Proof.
  intros -> Hfirst. cbn. rewrite (firstWith_scan _ _ _ Hfirst). reflexivity.
Qed.

End enumeration_facts.

(** C4.  The locator [getEndpointByIP] is a two-tier retry.
    (1) For every target address and every behaviour of the backend there is
    [k <= 4] such that: each of the first [k] enumerations through the
    gateway returned without error the text of a list of endpoints none of
    which has the address, and was followed by a sleep of 1, 2, 4, 8 (the
    first [k] of these); the next enumeration decides the result with no
    further enumeration and no further sleep.  If the gateway returned an error,
    that error comes back classified [InvalidOperation]; if it returned
    bytes that are not the text of a list of endpoints, an error comes back
    classified [InvalidOperation]; if it returned a list in which some
    endpoint has the address, the first such endpoint of the list comes
    back, as it is in the list; a further list without the address happens
    only for [k = 4] (the fifth enumeration) and gives the error classified
    [NotFound].
    (2) In particular, when the first three enumerations list no endpoint
    with the address and the fourth lists one, the first endpoint with the
    address in the fourth list is returned, in the state the fourth
    enumeration left. *)
Theorem getEndpointByIP_two_tier_retry (env : Env) (ip : string) (w : World) :
  (exists k : nat,
     (k <= 4)%nat /\
     (forall j, (j < k)%nat ->
        exists r, fst (enumerate env (afterMisses env (take j [1; 2; 4; 8]) w)) = Ret r /\
                  misses ip r) /\
     exists r w',
       enumerate env (afterMisses env (take k [1; 2; 4; 8]) w) = (Ret r, w') /\
       ((exists e,
           snd r = Some e /\
           endpointpolicy.getEndpointByIP env ip w =
           (Ret (None, Some (endpointPolicyError endpointpolicy.InvalidOperation e)), w')) \/
        (undecodable r /\
         exists e,
           endpointpolicy.getEndpointByIP env ip w =
           (Ret (None, Some (endpointPolicyError endpointpolicy.InvalidOperation e)), w')) \/
        (exists endpoints ep,
           lists r endpoints /\ firstWith ip endpoints ep /\
           endpointpolicy.getEndpointByIP env ip w = (Ret (Some ep, None), w')) \/
        (misses ip r /\ k = 4%nat /\
         endpointpolicy.getEndpointByIP env ip w
         = (Ret (None, Some (notFoundError ip)), w')))) /\
  (forall endpoints ep,
     (forall j, (j < 3)%nat ->
        exists r, fst (enumerate env (afterMisses env (take j [1; 2; 4; 8]) w)) = Ret r /\
                  misses ip r) ->
     (exists r, fst (enumerate env (afterMisses env [1; 2; 4] w)) = Ret r /\
                lists r endpoints /\ firstWith ip endpoints ep) ->
     endpointpolicy.getEndpointByIP env ip w
     = (Ret (Some ep, None), snd (enumerate env (afterMisses env [1; 2; 4] w)))).
Proof.
  split.
  - destruct (getEndpointByIP_cases env ip w) as (k & Hk & Hmiss & r & w' & Hen & Hres).
    exists k. split; [exact Hk|]. split.
    + intros j Hj. destruct (Hmiss j Hj) as (rj & Hrj & Hcl). exists rj. split; [exact Hrj|].
      pose proof (enumeration_facts.classify_reads ip rj) as Hread.
      rewrite Hcl in Hread. exact Hread.
    + exists r, w'. split; [exact Hen|].
      pose proof (enumeration_facts.classify_reads ip r) as Hread.
      destruct (classify ip r) as [e|ep|].
      * destruct Hread as [Herr|Hund].
        -- left. exists e. split; [exact Herr|exact Hres].
        -- right. left. split; [exact Hund|]. exists e. exact Hres.
      * destruct Hread as (endpoints & Hlists & Hfirst).
        right. right. left. exists endpoints, ep. auto.
      * destruct Hres as [-> Hrun]. right. right. right. auto.
  - intros endpoints ep Hmiss3 (r3 & Hr3 & Hlists & Hfirst).
    pose proof (enumeration_facts.firstWith_classify ip r3 endpoints ep Hlists Hfirst) as Hfound.
    destruct (getEndpointByIP_cases env ip w) as (k & Hk & Hmiss & r & w' & Hen & Hres).
    destruct (decide (k < 3)%nat) as [Hlt|Hge].
    + destruct (Hmiss3 k Hlt) as (rk & Hrk & Hclk).
      apply enumeration_facts.misses_classify in Hclk.
      rewrite Hen in Hrk. injection Hrk as <-. rewrite Hclk in Hres. lia.
    + destruct (decide (k = 3)%nat) as [->|Hne].
      * change (take 3 [1; 2; 4; 8]) with [1; 2; 4] in Hen.
        rewrite Hen in Hr3 |- *. injection Hr3 as <-. rewrite Hfound in Hres. exact Hres.
      * assert (k = 4)%nat as -> by lia.
        destruct (Hmiss 3%nat ltac:(lia)) as (r' & Hr & Hcl).
        change (take 3 [1; 2; 4; 8]) with [1; 2; 4] in Hr.
        rewrite Hr3 in Hr. injection Hr as <-. congruence.
Qed.

(** The theorem on the scenario of the specification: a backend whose first
    three enumerations list another pod's endpoint only and whose fourth
    lists that endpoint and then two with the address; the first of the two
    is returned, with its policies. *)
Lemma getEndpointByIP_two_tier_retry_witness :
  endpointpolicy.getEndpointByIP
    (envOf (backendSettling [endpointOther] [endpointOther; endpointFirst; endpointSecond]) [])
    "10.0.0.5" world0
  = (Ret (Some endpointFirst, None),
     snd (enumerate
            (envOf (backendSettling [endpointOther]
                      [endpointOther; endpointFirst; endpointSecond]) [])
            (afterMisses
               (envOf (backendSettling [endpointOther]
                         [endpointOther; endpointFirst; endpointSecond]) [])
               [1; 2; 4] world0))).
Proof.
  apply (proj2 (getEndpointByIP_two_tier_retry
                  (envOf (backendSettling [endpointOther]
                            [endpointOther; endpointFirst; endpointSecond]) [])
                  "10.0.0.5" world0)
               [endpointOther; endpointFirst; endpointSecond] endpointFirst).
  - intros j Hj.
    exists (EndpointsJSON [endpointOther], None).
    split; [destruct j as [|[|[|j]]]; [vm_compute; reflexivity ..|lia]|].
    exists [endpointOther]. split; [reflexivity|]. repeat constructor. discriminate.
  - exists (EndpointsJSON [endpointOther; endpointFirst; endpointSecond], None).
    split; [vm_compute; reflexivity|]. split; [reflexivity|].
    exists [endpointOther], [endpointSecond]. split; [reflexivity|].
    split; [repeat constructor; discriminate|reflexivity].
Defined.

(** The two locator scenarios of the specification.  A backend whose first three
    enumerations are empty and whose fourth holds the endpoint: the locator
    returns the endpoint after four enumerations and sleeps of 1, 2 and 4.
    A backend that fails every call: the locator returns an
    [InvalidOperation]-classified error after the gateway's five attempts,
    without an enumeration of its own after that. *)
Example getEndpointByIP_scenarios :
  let en := EvInvokeHNS endpointpolicy.enumerateRequest in
  endpointpolicy.getEndpointByIP (envOf (backendLate endpointA) []) "10.0.0.5" world0
  = (Ret (Some endpointA, None),
     extend world0 [en; EvSleep 1; en; EvSleep 2; en; EvSleep 4; en]) /\
  endpointpolicy.getEndpointByIP (envOf backendDown []) "10.0.0.5" world0
  = (Ret (None, Some (endpointPolicyError endpointpolicy.InvalidOperation
                        (errorString "hcn agent unreachable"))),
     extend world0 [en; EvSleep 1; en; EvSleep 2; en; EvSleep 4; en; EvSleep 8; en]).
Proof. split; vm_compute; reflexivity. Qed.

(* ===================================================================== *)
(** ** The two exported operations *)
(* ===================================================================== *)

Module editor_facts.
Import endpointpolicy.

Ltac solve_located_error :=
  match goal with
  | err : error |- _ =>
      destruct err as [?|? ?|errType ?]; try reflexivity;
      destruct (String.eqb errType InvalidOperation); [reflexivity|];
      destruct (String.eqb errType NotFound); reflexivity
  end.

Section WithEnv.
Variable env : Env.

Lemma addEndpointPolicy_returns endpoint metadataIP metadataPort nmiIP nmiPort w :
  exists r evs,
    addEndpointPolicy env endpoint metadataIP metadataPort nmiIP nmiPort w
    = (Ret r, extend w evs) /\
    Forall (fun e => isGateway e = true) evs /\
    Id (fst r) = Id endpoint.
Proof.
  unfold addEndpointPolicy. cbv zeta.
  destruct (MarshalEndpoint _) as [jsonStr [err|]].
  - eexists _, []. rewrite extend_nil. split; [reflexivity|]. split; [constructor|reflexivity].
  - rewrite run_bind.
    destruct (gateway_facts.callHcnProxyAgent_returns env
                (mkHNSRequest EndpointV1 Modify jsonStr) w) as ([b err] & evs & Hrun & Hevs).
    rewrite Hrun. eexists _, evs. split; [reflexivity|]. split; [exact Hevs|reflexivity].
Qed.

Lemma deleteEndpointPolicy_returns endpoint metadataIP w :
  exists r evs,
    deleteEndpointPolicy env endpoint metadataIP w = (Ret r, extend w evs) /\
    Forall (fun e => isGateway e = true) evs /\
    Id (fst r) = Id endpoint.
Proof.
  unfold deleteEndpointPolicy. cbv zeta.
  destruct (MarshalEndpoint _) as [jsonStr [err|]].
  - eexists _, []. rewrite extend_nil. split; [reflexivity|]. split; [constructor|reflexivity].
  - rewrite run_bind.
    destruct (gateway_facts.callHcnProxyAgent_returns env
                (mkHNSRequest EndpointV1 Modify jsonStr) w) as ([b err] & evs & Hrun & Hevs).
    rewrite Hrun. eexists _, evs. split; [reflexivity|]. split; [exact Hevs|reflexivity].
Qed.

Lemma ApplyEndpointRoutePolicy_empty metadataIP metadataPort nmiIP nmiPort w :
  ApplyEndpointRoutePolicy env "" metadataIP metadataPort nmiIP nmiPort w
  = (Ret missingIP, extend w [EvApplyCall ""]).
Proof. reflexivity. Qed.

Lemma DeleteEndpointRoutePolicy_empty metadataIP w :
  DeleteEndpointRoutePolicy env "" metadataIP w
  = (Ret missingIP, extend w [EvDeleteCall ""]).
Proof. reflexivity. Qed.

(** With a non-empty address the operation is decided by the locator. *)
Lemma ApplyEndpointRoutePolicy_nonempty podIP metadataIP metadataPort nmiIP nmiPort w :
  podIP <> "" ->
  ApplyEndpointRoutePolicy env podIP metadataIP metadataPort nmiIP nmiPort w =
  match getEndpointByIP env podIP (extend w [EvApplyCall podIP]) with
  | (Ret (_, Some err), w1) =>
      match err with
      | endpointPolicyError errType inner =>
          if String.eqb errType InvalidOperation then
            (Ret (Some (Errorf_w ("Get endpoint for Pod IP - " +:+ podIP +:+ ". Error: ") inner),
                  errType), w1)
          else if String.eqb errType NotFound then (Ret (None, ""), w1)
          else (Ret (Some (Errorf_w ("Get endpoint for Pod IP - " +:+ podIP +:+ ". Error: ")
                             err), UnKnown), w1)
      | _ =>
          (Ret (Some (Errorf_w ("Get endpoint for Pod IP - " +:+ podIP +:+ ". Error: ") err),
                UnKnown), w1)
      end
  | (Ret (Some endpoint, None), w1) =>
      match addEndpointPolicy env endpoint metadataIP metadataPort nmiIP nmiPort w1 with
      | (Ret (endpoint', Some err), w2) =>
          (Ret (Some (Errorf_w ("Could not add policy for ip [" +:+ podIP +:+ "] to endpoint - "
                                  +:+ Id endpoint' +:+ ". Error: ") err), UnKnown), w2)
      | (Ret (_, None), w2) => (Ret (None, ""), w2)
      | (Exited c, w2) => (Exited c, w2)
      | (Panic, w2) => (Panic, w2)
      | (OutOfFuel, w2) => (OutOfFuel, w2)
      end
  | (Ret (None, None), w1) => (Panic, w1)
  | (Exited c, w1) => (Exited c, w1)
  | (Panic, w1) => (Panic, w1)
  | (OutOfFuel, w1) => (OutOfFuel, w1)
  end.
Proof.
  intros Hne. apply String.eqb_neq in Hne.
  unfold ApplyEndpointRoutePolicy. rewrite run_bind. unfold emit at 1. cbn beta iota.
  rewrite Hne. rewrite run_bind.
  destruct (getEndpointByIP env podIP (extend w [EvApplyCall podIP])) as [[[ep err]| | |] w1];
    try reflexivity.
  destruct ep as [ep|], err as [err|]; try solve_located_error; try reflexivity.
  rewrite run_bind.
  destruct (addEndpointPolicy env ep metadataIP metadataPort nmiIP nmiPort w1)
    as [[[ep' [err|]]| | |] w2]; reflexivity.
Qed.

Lemma DeleteEndpointRoutePolicy_nonempty podIP metadataIP w :
  podIP <> "" ->
  DeleteEndpointRoutePolicy env podIP metadataIP w =
  match getEndpointByIP env podIP (extend w [EvDeleteCall podIP]) with
  | (Ret (_, Some err), w1) =>
      match err with
      | endpointPolicyError errType inner =>
          if String.eqb errType InvalidOperation then
            (Ret (Some (Errorf_w ("Get endpoint for Pod IP - " +:+ podIP +:+ ". Error: ") inner),
                  errType), w1)
          else if String.eqb errType NotFound then (Ret (None, ""), w1)
          else (Ret (Some (Errorf_w ("Get endpoint for Pod IP - " +:+ podIP +:+ ". Error: ")
                             err), UnKnown), w1)
      | _ =>
          (Ret (Some (Errorf_w ("Get endpoint for Pod IP - " +:+ podIP +:+ ". Error: ") err),
                UnKnown), w1)
      end
  | (Ret (Some endpoint, None), w1) =>
      match deleteEndpointPolicy env endpoint metadataIP w1 with
      | (Ret (endpoint', Some err), w2) =>
          (Ret (Some (Errorf_v ("Could't delete policy for ip [" +:+ podIP +:+ "] to endpoint - "
                                  +:+ Id endpoint' +:+ ". Error: ") err), UnKnown), w2)
      | (Ret (_, None), w2) => (Ret (None, ""), w2)
      | (Exited c, w2) => (Exited c, w2)
      | (Panic, w2) => (Panic, w2)
      | (OutOfFuel, w2) => (OutOfFuel, w2)
      end
  | (Ret (None, None), w1) => (Panic, w1)
  | (Exited c, w1) => (Exited c, w1)
  | (Panic, w1) => (Panic, w1)
  | (OutOfFuel, w1) => (OutOfFuel, w1)
  end.
Proof.
  intros Hne. apply String.eqb_neq in Hne.
  unfold DeleteEndpointRoutePolicy. rewrite run_bind. unfold emit at 1. cbn beta iota.
  rewrite Hne. rewrite run_bind.
  destruct (getEndpointByIP env podIP (extend w [EvDeleteCall podIP])) as [[[ep err]| | |] w1];
    try reflexivity.
  destruct ep as [ep|], err as [err|]; try solve_located_error; try reflexivity.
  rewrite run_bind.
  destruct (deleteEndpointPolicy env ep metadataIP w1)
    as [[[ep' [err|]]| | |] w2]; reflexivity.
Qed.

(** Both operations always return; after the mark of their entry they only
    use the gateway; an empty address gives the [NotFound]-classified
    "Missing IP Address" without any gateway event, a non-empty one never
    gives the classification [NotFound]. *)
Lemma ApplyEndpointRoutePolicy_returns podIP metadataIP metadataPort nmiIP nmiPort w :
  exists r evs,
    ApplyEndpointRoutePolicy env podIP metadataIP metadataPort nmiIP nmiPort w
    = (Ret r, extend w (EvApplyCall podIP :: evs)) /\
    Forall (fun e => isGateway e = true) evs /\
    ((podIP = "" /\ evs = [] /\ r = missingIP) \/ (podIP <> "" /\ editResult r)).
Proof.
  destruct (decide (podIP = "")) as [->|Hne].
  - exists missingIP, []. split; [reflexivity|]. split; [constructor|]. left; auto.
  - rewrite ApplyEndpointRoutePolicy_nonempty by exact Hne.
    destruct (locator_facts.getEndpointByIP_returns env podIP (extend w [EvApplyCall podIP]))
      as (r & evs & Hrun & Hevs & Hres).
    rewrite Hrun, extend_extend. cbn [app].
    destruct Hres as [(ep & -> & _) | [(e & ->) | ->]].
    + destruct (addEndpointPolicy_returns ep metadataIP metadataPort nmiIP nmiPort
                  (extend w (EvApplyCall podIP :: evs))) as ([ep' err] & evs' & Hadd & Hevs' & _).
      rewrite Hadd, extend_extend. cbn [app].
      destruct err as [err|]; eexists _, (evs ++ evs');
        (split; [reflexivity|]); (split; [apply Forall_app; auto|]); right; (split; [exact Hne|]).
      * right; right; eauto.
      * left; reflexivity.
    + eexists _, evs. cbn. split; [reflexivity|]. split; [exact Hevs|].
      right. split; [exact Hne|]. right; left; eauto.
    + eexists _, evs. cbn. split; [reflexivity|]. split; [exact Hevs|].
      right. split; [exact Hne|]. left; reflexivity.
Qed.

Lemma DeleteEndpointRoutePolicy_returns podIP metadataIP w :
  exists r evs,
    DeleteEndpointRoutePolicy env podIP metadataIP w
    = (Ret r, extend w (EvDeleteCall podIP :: evs)) /\
    Forall (fun e => isGateway e = true) evs /\
    ((podIP = "" /\ evs = [] /\ r = missingIP) \/ (podIP <> "" /\ editResult r)).
Proof.
  destruct (decide (podIP = "")) as [->|Hne].
  - exists missingIP, []. split; [reflexivity|]. split; [constructor|]. left; auto.
  - rewrite DeleteEndpointRoutePolicy_nonempty by exact Hne.
    destruct (locator_facts.getEndpointByIP_returns env podIP (extend w [EvDeleteCall podIP]))
      as (r & evs & Hrun & Hevs & Hres).
    rewrite Hrun, extend_extend. cbn [app].
    destruct Hres as [(ep & -> & _) | [(e & ->) | ->]].
    + destruct (deleteEndpointPolicy_returns ep metadataIP
                  (extend w (EvDeleteCall podIP :: evs))) as ([ep' err] & evs' & Hadd & Hevs' & _).
      rewrite Hadd, extend_extend. cbn [app].
      destruct err as [err|]; eexists _, (evs ++ evs');
        (split; [reflexivity|]); (split; [apply Forall_app; auto|]); right; (split; [exact Hne|]).
      * right; right; eauto.
      * left; reflexivity.
    + eexists _, evs. cbn. split; [reflexivity|]. split; [exact Hevs|].
      right. split; [exact Hne|]. right; left; eauto.
    + eexists _, evs. cbn. split; [reflexivity|]. split; [exact Hevs|].
      right. split; [exact Hne|]. left; reflexivity.
Qed.

Lemma editResult_not_NotFound r : editResult r -> snd r <> NotFound.
Proof. intros [->|[(e & ->)|(e & ->)]]; simpl; discriminate. Qed.

End WithEnv.

End editor_facts.

(** C10.  With a non-empty pod address, when the locator ends with an error
    classified [NotFound], [ApplyEndpointRoutePolicy] and
    [DeleteEndpointRoutePolicy] both return a nil error and the empty
    classification, in the state the locator left.  Whenever one of them
    returns the classification [NotFound], the pod address was empty, the
    returned error is "Missing IP Address", and nothing was done besides
    entering the function: no backend call. *)
Theorem absent_endpoint_reported_as_success
        (env : Env) (podIP metadataIP metadataPort nmiIP nmiPort : string) (w : World) :
  (podIP <> "" ->
   (forall o e w1,
      endpointpolicy.getEndpointByIP env podIP (extend w [EvApplyCall podIP])
      = (Ret (o, Some (endpointPolicyError endpointpolicy.NotFound e)), w1) ->
      endpointpolicy.ApplyEndpointRoutePolicy env podIP metadataIP metadataPort nmiIP nmiPort w
      = (Ret (None, ""), w1)) /\
   (forall o e w1,
      endpointpolicy.getEndpointByIP env podIP (extend w [EvDeleteCall podIP])
      = (Ret (o, Some (endpointPolicyError endpointpolicy.NotFound e)), w1) ->
      endpointpolicy.DeleteEndpointRoutePolicy env podIP metadataIP w
      = (Ret (None, ""), w1))) /\
  (forall r w',
     endpointpolicy.ApplyEndpointRoutePolicy env podIP metadataIP metadataPort nmiIP nmiPort w
     = (Ret r, w') ->
     snd r = endpointpolicy.NotFound ->
     podIP = "" /\ r = missingIP /\ w' = extend w [EvApplyCall ""]) /\
  (forall r w',
     endpointpolicy.DeleteEndpointRoutePolicy env podIP metadataIP w = (Ret r, w') ->
     snd r = endpointpolicy.NotFound ->
     podIP = "" /\ r = missingIP /\ w' = extend w [EvDeleteCall ""]).
Proof.
  split; [|split].
  - intros Hne. split; intros o e w1 Hloc.
    + rewrite editor_facts.ApplyEndpointRoutePolicy_nonempty, Hloc by exact Hne.
      destruct o; reflexivity.
    + rewrite editor_facts.DeleteEndpointRoutePolicy_nonempty, Hloc by exact Hne.
      destruct o; reflexivity.
  - intros r w' Hrun Hcls.
    destruct (editor_facts.ApplyEndpointRoutePolicy_returns
                env podIP metadataIP metadataPort nmiIP nmiPort w)
      as (r0 & evs & Hrun0 & _ & [(-> & -> & ->)|(Hne & Hres)]);
      rewrite Hrun0 in Hrun; injection Hrun as <- <-.
    + auto.
    + exfalso. eapply editor_facts.editResult_not_NotFound; eauto.
  - intros r w' Hrun Hcls.
    destruct (editor_facts.DeleteEndpointRoutePolicy_returns env podIP metadataIP w)
      as (r0 & evs & Hrun0 & _ & [(-> & -> & ->)|(Hne & Hres)]);
      rewrite Hrun0 in Hrun; injection Hrun as <- <-.
    + auto.
    + exfalso. eapply editor_facts.editResult_not_NotFound; eauto.
Qed.

(** The theorem at work: no endpoint for 10.0.0.5 on an empty backend, and
    the empty address. *)
Lemma absent_endpoint_reported_as_success_witness :
  let env := envOf (backendWith []) [] in
  (fst (endpointpolicy.ApplyEndpointRoutePolicy env "10.0.0.5" "169.254.169.254" "80"
          "10.0.0.1" "8429" world0) = Ret (None, "") /\
   fst (endpointpolicy.DeleteEndpointRoutePolicy env "10.0.0.5" "169.254.169.254" world0)
   = Ret (None, "")) /\
  ("" = "" /\ missingIP = missingIP /\
   extend world0 [EvApplyCall ""] = extend world0 [EvApplyCall ""]) /\
  ("" = "" /\ missingIP = missingIP /\
   extend world0 [EvDeleteCall ""] = extend world0 [EvDeleteCall ""]).
Proof.
  intros env.
  pose proof (absent_endpoint_reported_as_success env "10.0.0.5" "169.254.169.254" "80"
                "10.0.0.1" "8429" world0) as [Habsent _].
  pose proof (absent_endpoint_reported_as_success env "" "169.254.169.254" "80"
                "10.0.0.1" "8429" world0) as (_ & Happly & Hdelete).
  split; [|split].
  - destruct (Habsent ltac:(discriminate)) as [Ha Hd]. split.
    + erewrite Ha; [reflexivity|]. vm_compute. reflexivity.
    + erewrite Hd; [reflexivity|]. vm_compute. reflexivity.
  - apply (Happly missingIP (extend world0 [EvApplyCall ""])); reflexivity.
  - apply (Hdelete missingIP (extend world0 [EvDeleteCall ""])); reflexivity.
Defined.

(* ===================================================================== *)
(** ** The reconciliation loop (redirector_windows.go) *)
(* ===================================================================== *)

Module redirector_facts.
Import endpointpolicy redirector_windows.

Lemma applyCalls_app a b : applyCalls (a ++ b) = applyCalls a ++ applyCalls b.
Proof. apply omap_app. Qed.

Lemma deleteCalls_app a b : deleteCalls (a ++ b) = deleteCalls a ++ deleteCalls b.
Proof. apply omap_app. Qed.

Lemma gateway_no_calls evs :
  Forall (fun e => isGateway e = true) evs -> applyCalls evs = [] /\ deleteCalls evs = [].
Proof.
  induction 1 as [|e evs He _ [IHa IHd]]; [split; reflexivity|].
  destruct e; try discriminate He; split; assumption.
Qed.

Lemma metrics_no_calls err server ip :
  applyCalls (metricsOf err server ip) = [] /\ deleteCalls (metricsOf err server ip) = [].
Proof. destruct err; split; reflexivity. Qed.

Lemma listedPodInScope_spec server pod :
  listedPodInScope server pod = true <-> inScope server pod.
Proof.
  unfold listedPodInScope, inScope.
  rewrite !andb_true_iff, !negb_true_iff, String.eqb_eq, !String.eqb_neq. tauto.
Qed.

Lemma eventPodInScope_spec server pod :
  eventPodInScope server pod = true <-> inScope server pod.
Proof.
  unfold eventPodInScope, inScope.
  rewrite !andb_true_iff, !negb_true_iff, String.eqb_eq, !String.eqb_neq.
  split; intros H; repeat split; intuition congruence.
Qed.

Lemma uploadIPRoutePolicyMetrics_run err server podIP w :
  uploadIPRoutePolicyMetrics err server podIP w = (Ret tt, extend w (metricsOf err server podIP)).
Proof.
  unfold uploadIPRoutePolicyMetrics, Reporter_ReportIPRoutePolicyOperation, metricsOf.
  destruct err; unfold_M; [rewrite extend_extend|]; reflexivity.
Qed.

Section WithEnv.
Variable env : Env.

Lemma PodClient_ListPods_run w :
  PodClient_ListPods env w = (Ret (ListPods env (trace w)), extend w [EvListPods]).
Proof. reflexivity. Qed.

(** The body of the listing loop of [ApplyRoutePolicyForExistingPods]. *)
Lemma apply_loop_run server (pods : list Pod) :
  forall w,
    exists mid,
      forRange pods (fun podItem =>
        if listedPodInScope server podItem then
          '(err, _) ← ApplyEndpointRoutePolicy env (Status_PodIP podItem) (MetadataIP server)
                        (MetadataPort server) (HostIP server) (NMIPort server);
          uploadIPRoutePolicyMetrics err server (Status_PodIP podItem)
        else mret tt) w = (Ret tt, extend w mid) /\
      applyCalls mid = map Status_PodIP (List.filter (listedPodInScope server) pods) /\
      deleteCalls mid = [].
Proof.
  induction pods as [|pod pods IH]; intros w.
  - exists []. rewrite extend_nil. auto.
  - cbn [forRange List.filter]. rewrite run_bind.
    destruct (listedPodInScope server pod) eqn:Hin.
    + rewrite run_bind.
      destruct (editor_facts.ApplyEndpointRoutePolicy_returns env (Status_PodIP pod)
                  (MetadataIP server) (MetadataPort server) (HostIP server) (NMIPort server) w)
        as ([err t] & evs & Hrun & Hevs & _).
      rewrite Hrun, uploadIPRoutePolicyMetrics_run, extend_extend.
      destruct (IH (extend w ((EvApplyCall (Status_PodIP pod) :: evs)
                                ++ metricsOf err server (Status_PodIP pod))))
        as (mid & Hloop & Ha & Hd).
      rewrite Hloop, extend_extend. eexists. split; [reflexivity|].
      destruct (gateway_no_calls evs Hevs) as [Ha0 Hd0].
      destruct (metrics_no_calls err server (Status_PodIP pod)) as [Ha1 Hd1].
      rewrite !applyCalls_app, !deleteCalls_app, Ha, Hd, Ha1, Hd1.
      cbn [app]. change (applyCalls (EvApplyCall (Status_PodIP pod) :: evs))
        with (Status_PodIP pod :: applyCalls evs).
      change (deleteCalls (EvApplyCall (Status_PodIP pod) :: evs)) with (deleteCalls evs).
      rewrite Ha0, Hd0. auto.
    + unfold_M. apply IH.
Qed.

(** Full reconciliation: it returns, and the apply calls it issues are
    those for the in-scope pods of the listing, one each, in order. *)
Lemma ApplyRoutePolicyForExistingPods_run server w :
  exists mid,
    ApplyRoutePolicyForExistingPods env server w = (Ret tt, extend w (EvListPods :: mid)) /\
    applyCalls mid
    = map Status_PodIP (List.filter (listedPodInScope server) (fst (ListPods env (trace w)))) /\
    deleteCalls mid = [].
Proof.
  unfold ApplyRoutePolicyForExistingPods. rewrite run_bind, PodClient_ListPods_run.
  destruct (ListPods env (trace w)) as [pods err]. cbn [fst].
  destruct (apply_loop_run server pods (extend w [EvListPods])) as (mid & Hrun & Hcalls).
  exists mid. rewrite Hrun, extend_extend. auto.
Qed.

(** The listing loop of [DeleteRoutePolicyForExistingPods]. *)
Lemma delete_loop_run server (pods : list Pod) :
  forall w,
    exists mid,
      forRange pods (fun podItem =>
        if String.eqb (Spec_NodeName podItem) (NodeName server) then
          '(err, _) ← DeleteEndpointRoutePolicy env (Status_PodIP podItem) (MetadataIP server);
          uploadIPRoutePolicyMetrics err server (Status_PodIP podItem)
        else mret tt) w = (Ret tt, extend w mid) /\
      deleteCalls mid = map Status_PodIP (List.filter (onThisNode server) pods) /\
      applyCalls mid = [].
Proof.
  induction pods as [|pod pods IH]; intros w.
  - exists []. rewrite extend_nil. auto.
  - cbn [forRange List.filter]. rewrite run_bind. unfold onThisNode at 1.
    destruct (String.eqb (Spec_NodeName pod) (NodeName server)) eqn:Hin.
    + rewrite run_bind.
      destruct (editor_facts.DeleteEndpointRoutePolicy_returns env (Status_PodIP pod)
                  (MetadataIP server) w)
        as ([err t] & evs & Hrun & Hevs & _).
      rewrite Hrun, uploadIPRoutePolicyMetrics_run, extend_extend.
      destruct (IH (extend w ((EvDeleteCall (Status_PodIP pod) :: evs)
                                ++ metricsOf err server (Status_PodIP pod))))
        as (mid & Hloop & Hd & Ha).
      rewrite Hloop, extend_extend. eexists. split; [reflexivity|].
      destruct (gateway_no_calls evs Hevs) as [Ha0 Hd0].
      destruct (metrics_no_calls err server (Status_PodIP pod)) as [Ha1 Hd1].
      rewrite !applyCalls_app, !deleteCalls_app, Ha, Hd, Ha1, Hd1.
      cbn [app]. change (deleteCalls (EvDeleteCall (Status_PodIP pod) :: evs))
        with (Status_PodIP pod :: deleteCalls evs).
      change (applyCalls (EvDeleteCall (Status_PodIP pod) :: evs)) with (applyCalls evs).
      rewrite Ha0, Hd0. auto.
    + unfold_M. apply IH.
Qed.

Lemma RoutePolicySelfHeal_run server w :
  RoutePolicySelfHeal env server w
  = ApplyRoutePolicyForExistingPods env server (extend w [EvSleep 10]).
Proof. reflexivity. Qed.

Lemma afterApply_run server podIP err t w :
  afterApply env server podIP err t w =
  match err with
  | Some _ =>
      if negb (String.eqb t NotFound)
      then ApplyRoutePolicyForExistingPods env server
             (extend w (metricsOf err server podIP ++ [EvSleep 10]))
      else (Ret tt, extend w (metricsOf err server podIP))
  | None => (Ret tt, extend w (metricsOf err server podIP))
  end.
Proof.
  unfold afterApply. rewrite run_bind, uploadIPRoutePolicyMetrics_run.
  destruct err as [e|]; [|reflexivity].
  destruct (negb (String.eqb t NotFound)); [|reflexivity].
  rewrite RoutePolicySelfHeal_run, extend_extend. reflexivity.
Qed.

End WithEnv.

End redirector_facts.

(** C7.  Teardown.  On the termination signal and on the shutdown signal
    [Sync] runs [DeleteRoutePolicyForExistingPods]: after listing the pods it
    calls [DeleteEndpointRoutePolicy] exactly once for every listed pod whose
    node name is this node's, in listing order and whatever the pod's address
    is, and issues no apply call; whatever these calls return, the last thing
    it does is sleep 10; then the process exits, with code 1 if listing the
    pods returned an error and 0 otherwise. *)
Theorem teardown_removes_sleeps_exits (env : Env) (server : Server) (w : World) :
  exists mid,
    let final :=
      (Exited (match snd (ListPods env (trace w)) with Some _ => 1 | None => 0 end),
       extend w (EvListPods :: mid ++ [EvSleep 10])) in
    redirector_windows.Sync_select env server signalChan w = final /\
    redirector_windows.Sync_select env server mainRoutineDone w = final /\
    redirector_windows.DeleteRoutePolicyForExistingPods env server w = final /\
    deleteCalls mid
    = map Status_PodIP (List.filter (onThisNode server) (fst (ListPods env (trace w)))) /\
    applyCalls mid = [].
Proof.
  assert (exists mid,
    redirector_windows.DeleteRoutePolicyForExistingPods env server w
    = (Exited (match snd (ListPods env (trace w)) with Some _ => 1 | None => 0 end),
       extend w (EvListPods :: mid ++ [EvSleep 10])) /\
    deleteCalls mid
    = map Status_PodIP (List.filter (onThisNode server) (fst (ListPods env (trace w)))) /\
    applyCalls mid = []) as (mid & Hrun & Hcalls).
  { unfold redirector_windows.DeleteRoutePolicyForExistingPods.
    rewrite run_bind, redirector_facts.PodClient_ListPods_run.
    destruct (ListPods env (trace w)) as [pods err]. cbn [fst snd].
    destruct (redirector_facts.delete_loop_run env server pods (extend w [EvListPods]))
      as (mid & Hrun & Hcalls).
    exists mid. rewrite run_bind, Hrun. unfold_M. unfold os_Exit.
    rewrite !extend_extend. auto. }
  exists mid. cbv zeta. unfold redirector_windows.Sync_select.
  rewrite !run_bind, Hrun. auto.
Qed.

(** Teardown on the scenario of the specification: two pods on the node, one of
    them without an address, and a backend that is down: two remove calls,
    the sleep of 10 last, exit code 0. *)
Example teardown_two_pods :
  let r := redirector_windows.DeleteRoutePolicyForExistingPods
             (envOf backendDown [podA; podB; podC]) thisServer world0 in
  fst r = Exited 0 /\
  deleteCalls (trace (snd r)) = ["10.0.0.5"; ""] /\
  last (trace (snd r)) = Some (EvSleep 10).
Proof. vm_compute. auto. Qed.

(** C6.  In the event-driven phase of [Sync], for an in-scope pod: when
    [ApplyEndpointRoutePolicy] returns an error whose classification is not
    [NotFound], the loop reports the metrics, sleeps 10, lists the pods as
    they are then and issues an apply call for each in-scope pod of that
    listing, and only then returns to the [select].  What [Sync] does with a
    returned error classified [NotFound] is to report the metrics and
    nothing else: no sleep, no listing. *)
Theorem apply_error_triggers_self_heal
        (env : Env) (server : Server) (pod : Pod) (w w1 : World) (e : error) (t : string) :
  inScope server pod ->
  endpointpolicy.ApplyEndpointRoutePolicy env (Status_PodIP pod) (MetadataIP server)
    (MetadataPort server) (HostIP server) (NMIPort server) w = (Ret (Some e, t), w1) ->
  (t <> endpointpolicy.NotFound ->
   exists mid,
     let healed := metricsOf (Some e) server (Status_PodIP pod) ++ [EvSleep 10] in
     redirector_windows.Sync_select env server (PodObjChannel pod) w
     = (Ret tt, extend w1 (healed ++ EvListPods :: mid)) /\
     applyCalls mid
     = map Status_PodIP
         (List.filter (redirector_windows.listedPodInScope server)
                      (fst (ListPods env (trace w1 ++ healed))))) /\
  (forall podIP w',
     redirector_windows.afterApply env server podIP (Some e) endpointpolicy.NotFound w'
     = (Ret tt, extend w' (metricsOf (Some e) server podIP))).
Proof.
  intros Hscope Hrun. split.
  - intros Hne. apply redirector_facts.eventPodInScope_spec in Hscope.
    unfold redirector_windows.Sync_select. rewrite Hscope, run_bind, Hrun.
    rewrite redirector_facts.afterApply_run.
    apply String.eqb_neq in Hne. rewrite Hne. cbn [negb].
    destruct (redirector_facts.ApplyRoutePolicyForExistingPods_run env server
                (extend w1 (metricsOf (Some e) server (Status_PodIP pod) ++ [EvSleep 10])))
      as (mid & Hheal & Hcalls & _).
    exists mid. cbv zeta. rewrite Hheal, extend_extend. split; [reflexivity|exact Hcalls].
  - intros podIP w'. rewrite redirector_facts.afterApply_run. reflexivity.
Qed.

(** The theorem on the scenario of the specification: the backend
    enumerates the pod's endpoint but every [Modify] fails with "boom"; the
    apply returns an [UnKnown]-classified error and self-heal runs once. *)
Lemma apply_error_triggers_self_heal_witness :
  exists e w1 mid,
    Error e = "Could not add policy for ip [10.0.0.5] to endpoint - ep-5. Error: boom" /\
    redirector_windows.Sync_select (envOf (backendModifyFails [endpointA]) [podA; podB; podC])
      thisServer (PodObjChannel podA) world0
    = (Ret tt, extend w1 ((metricsOf (Some e) thisServer "10.0.0.5" ++ [EvSleep 10])
                            ++ EvListPods :: mid)) /\
    applyCalls mid = ["10.0.0.5"].
Proof.
  pose (env := envOf (backendModifyFails [endpointA]) [podA; podB; podC]).
  pose (r := endpointpolicy.ApplyEndpointRoutePolicy env "10.0.0.5" "169.254.169.254" "80"
               "10.0.0.1" "8429" world0).
  pose (e := Errorf_w "Could not add policy for ip [10.0.0.5] to endpoint - ep-5. Error: "
               (errorString "boom")).
  assert (Hscope : inScope thisServer podA) by (repeat split; discriminate).
  assert (Hrun : r = (Ret (Some e, endpointpolicy.UnKnown), snd r)) by (vm_compute; reflexivity).
  destruct (apply_error_triggers_self_heal env thisServer podA world0 (snd r) e
              endpointpolicy.UnKnown Hscope Hrun) as [Hheal _].
  destruct (Hheal ltac:(discriminate)) as (mid & Hsync & Hcalls).
  exists e, (snd r), mid. split; [reflexivity|]. split; [exact Hsync|exact Hcalls].
Defined.

(** X22.  The scope condition in redirector_windows.go.  Full reconciliation issues
    its apply calls for the in-scope pods of the listing and for no other;
    the event-driven phase does nothing at all for a pod that is not in
    scope, and for a pod in scope it calls apply for that pod's address. *)
Lemma redirector_windows_applies_only_in_scope (env : Env) (server : Server) (w : World) :
  (exists mid,
     redirector_windows.ApplyRoutePolicyForExistingPods env server w
     = (Ret tt, extend w (EvListPods :: mid)) /\
     forall ip, ip ∈ applyCalls mid <->
                exists pod, pod ∈ fst (ListPods env (trace w)) /\ inScope server pod /\
                            Status_PodIP pod = ip) /\
  (forall pod, ~ inScope server pod ->
     redirector_windows.Sync_select env server (PodObjChannel pod) w = (Ret tt, w)) /\
  (forall pod, inScope server pod ->
     exists evs,
       snd (redirector_windows.Sync_select env server (PodObjChannel pod) w)
       = extend w (EvApplyCall (Status_PodIP pod) :: evs)).
Proof.
  split; [|split].
  - destruct (redirector_facts.ApplyRoutePolicyForExistingPods_run env server w)
      as (mid & Hrun & Hcalls & _).
    exists mid. split; [exact Hrun|]. intros ip. rewrite Hcalls.
    rewrite list_elem_of_fmap. split.
    + intros (pod & -> & Hin). apply list_elem_of_In, filter_In in Hin as [Hin Hsc].
      exists pod. rewrite list_elem_of_In.
      apply redirector_facts.listedPodInScope_spec in Hsc. auto.
    + intros (pod & Hin & Hsc & <-). exists pod. split; [reflexivity|].
      apply list_elem_of_In, filter_In. rewrite <- list_elem_of_In.
      apply redirector_facts.listedPodInScope_spec in Hsc. auto.
  - intros pod Hout. unfold redirector_windows.Sync_select.
    destruct (redirector_windows.eventPodInScope server pod) eqn:E; [|reflexivity].
    apply redirector_facts.eventPodInScope_spec in E. contradiction.
  - intros pod Hsc. apply redirector_facts.eventPodInScope_spec in Hsc.
    unfold redirector_windows.Sync_select. rewrite Hsc, run_bind.
    destruct (editor_facts.ApplyEndpointRoutePolicy_returns env (Status_PodIP pod)
                (MetadataIP server) (MetadataPort server) (HostIP server) (NMIPort server) w)
      as ([err t] & evs & Hrun & _).
    rewrite Hrun, redirector_facts.afterApply_run.
    destruct err as [e|].
    + destruct (negb (String.eqb t endpointpolicy.NotFound)).
      * destruct (redirector_facts.ApplyRoutePolicyForExistingPods_run env server
                    (extend (extend w (EvApplyCall (Status_PodIP pod) :: evs))
                            (metricsOf (Some e) server (Status_PodIP pod) ++ [EvSleep 10])))
          as (mid & Hheal & _).
        rewrite Hheal, !extend_extend. eexists. reflexivity.
      * rewrite extend_extend. eexists. reflexivity.
    + rewrite extend_extend. eexists. reflexivity.
Qed.

(* ===================================================================== *)
(** ** The incremental redirector and its [podMap] *)
(* ===================================================================== *)

(** C5, evaluated on the incremental redirector.  [podB] is assigned to this
    node and has no address yet, so it is not in scope; the event-driven
    phase of [(s *WindowsRedirector) Sync] nevertheless calls
    [ApplyEndpointRoutePolicy] with the empty address and records the pod in
    [podMap], whatever the backend.  The same event in redirector_windows.go
    does nothing. *)
Theorem incremental_Sync_applies_without_address (env : Env) :
  ~ inScope thisServer podB /\
  WindowsRedirector.Sync_select env thisServer (PodObjChannel podB) world0
  = (Ret tt, mkWorld [EvApplyCall ""] {["uid-b" := ""]} false) /\
  redirector_windows.Sync_select env thisServer (PodObjChannel podB) world0
  = (Ret tt, world0).
Proof.
  split; [|split].
  - intros (_ & Hip & _). apply Hip. reflexivity.
  - reflexivity.
  - reflexivity.
Qed.


(** One event of the incremental redirector that passes its node and
    host-address test, by what [podMap] holds for the pod's UID. *)
Module podMap_facts.

Section WithEnv.
Variable env : Env.
Variable server : Server.

Lemma guard_true pod :
  NodeName server = Spec_NodeName pod -> HostIP server <> Status_PodIP pod ->
  String.eqb (NodeName server) (Spec_NodeName pod)
  && negb (String.eqb (HostIP server) (Status_PodIP pod)) = true.
Proof.
  intros Hnode Hhost. apply andb_true_iff. split; [by apply String.eqb_eq|].
  apply negb_true_iff. by apply String.eqb_neq.
Qed.

Lemma event_without_entry pod w :
  NodeName server = Spec_NodeName pod -> HostIP server <> Status_PodIP pod ->
  podMap w !! UID pod = None ->
  exists r evs,
    endpointpolicy.ApplyEndpointRoutePolicy env (Status_PodIP pod) (MetadataIP server)
      (MetadataPort server) (HostIP server) (NMIPort server)
      (mkWorld (trace w) (<[UID pod := Status_PodIP pod]> (podMap w)) (Initialized w))
    = (Ret r, mkWorld (trace w ++ EvApplyCall (Status_PodIP pod) :: evs)
                      (<[UID pod := Status_PodIP pod]> (podMap w)) (Initialized w)) /\
    WindowsRedirector.Sync_select env server (PodObjChannel pod) w
    = (Ret tt, mkWorld (trace w ++ EvApplyCall (Status_PodIP pod) :: evs)
                       (<[UID pod := Status_PodIP pod]> (podMap w)) (Initialized w)) /\
    deleteCalls evs = [] /\ applyCalls evs = [].
Proof.
  intros Hnode Hhost Hlook.
  destruct (editor_facts.ApplyEndpointRoutePolicy_returns env (Status_PodIP pod)
              (MetadataIP server) (MetadataPort server) (HostIP server) (NMIPort server)
              (mkWorld (trace w) (<[UID pod := Status_PodIP pod]> (podMap w)) (Initialized w)))
    as (r & evs & Hrun & Hevs & _).
  exists r, evs. split; [exact Hrun|].
  unfold WindowsRedirector.Sync_select. rewrite (guard_true pod Hnode Hhost), run_bind.
  unfold WindowsRedirector.podMap_lookup at 1. cbn beta iota.
  rewrite Hlook, run_bind. unfold WindowsRedirector.podMap_store at 1. cbn beta iota.
  rewrite run_bind, Hrun.
  split; [reflexivity|].
  destruct (redirector_facts.gateway_no_calls evs Hevs). auto.
Qed.

Lemma event_with_entry pod recorded w :
  NodeName server = Spec_NodeName pod -> HostIP server <> Status_PodIP pod ->
  podMap w !! UID pod = Some recorded ->
  exists evs,
    WindowsRedirector.Sync_select env server (PodObjChannel pod) w
    = (Ret tt, mkWorld (trace w ++ EvDeleteCall recorded :: evs)
                       (delete (UID pod) (podMap w)) (Initialized w)) /\
    deleteCalls evs = [] /\ applyCalls evs = [].
Proof.
  intros Hnode Hhost Hlook.
  destruct (editor_facts.DeleteEndpointRoutePolicy_returns env recorded (MetadataIP server) w)
    as (r & evs & Hrun & Hevs & _).
  exists evs. unfold WindowsRedirector.Sync_select.
  rewrite (guard_true pod Hnode Hhost), run_bind.
  unfold WindowsRedirector.podMap_lookup at 1. cbn beta iota.
  rewrite Hlook, run_bind, Hrun. split; [reflexivity|].
  destruct (redirector_facts.gateway_no_calls evs Hevs). auto.
Qed.

End WithEnv.

End podMap_facts.



(* ===================================================================== *)
(** ** The health probe and the node's taints *)
(* ===================================================================== *)

Module probe_facts.
Import probes.

Lemma removeTaint_loop_filter taints taintName acc :
  removeTaint_loop taints taintName acc = acc ++ otherKeys taintName taints.
Proof.
  revert acc. induction taints as [|t taints IH]; intros acc; simpl.
  - by rewrite app_nil_r.
  - unfold hasKey. destruct (String.eqb (Key t) taintName); simpl.
    + apply IH.
    + rewrite IH, <- app_assoc. reflexivity.
Qed.

(** [removeTaint] keeps exactly the taints with another key, in order. *)
Lemma removeTaint_filter taints taintName :
  removeTaint taints taintName = otherKeys taintName taints.
Proof. apply removeTaint_loop_filter. Qed.

Lemma countKey_otherKeys key taints : countKey key (otherKeys key taints) = 0%nat.
Proof.
  unfold countKey, otherKeys. induction taints as [|t taints IH]; simpl; [reflexivity|].
  destruct (hasKey key t) eqn:E; simpl; [exact IH|]. rewrite E. exact IH.
Qed.

Lemma otherKeys_idem key taints : otherKeys key (otherKeys key taints) = otherKeys key taints.
Proof.
  unfold otherKeys. induction taints as [|t taints IH]; simpl; [reflexivity|].
  destruct (hasKey key t) eqn:E; simpl; [exact IH|]. rewrite E. simpl. by rewrite IH.
Qed.

Lemma countKey_append_failed taints :
  countKey hcnagentfailed (taints ++ [failedTaint]) = S (countKey hcnagentfailed taints).
Proof.
  unfold countKey. rewrite List.filter_app, length_app. simpl. lia.
Qed.

Lemma otherKeys_append_failed taints :
  otherKeys hcnagentfailed (taints ++ [failedTaint]) = otherKeys hcnagentfailed taints.
Proof.
  unfold otherKeys. rewrite List.filter_app. simpl. by rewrite app_nil_r.
Qed.

End probe_facts.

(** Counterexample to C9 as stated: after a probe, more than one marker with
    the fixed key can be present.  The backend is down and the node API stores what is
    submitted; after two probes in a row the node submitted last carries the
    marker twice. *)
Lemma healthz_marker_twice :
  ~ (countKey probes.hcnagentfailed
       (Spec_Taints
          (lastUpdate
             (trace (snd ((_ ← probes.healthz (envNodeStore cleanNode) true "node-1";
                           probes.healthz (envNodeStore cleanNode) true "node-1") world0)))
             cleanNode))
     <= 1)%nat.
Proof. vm_compute. lia. Qed.

(** C9, as the code has it.  The probe calls the backend, fetches the node,
    submits it with changed taints, then answers.  When the backend call
    fails, the submitted taints are the fetched ones followed by one marker
    with the fixed key, and the status is 500: the taints with other keys are
    the same, and the number of markers with the fixed key has grown by one
    (so there is one only if there was none).  When the call succeeds, the
    submitted taints are the fetched ones without those of the fixed key, and
    the status is 200: the taints with other keys are the same and no marker
    with the fixed key is left. *)
Theorem healthz_taints_node (env : Env) (condition : bool) (nodeName : string) (w : World) :
  let request := mkHNSRequest EndpointV1 Enumerate NoBody in
  let res := InvokeHNSRequestFunc env (trace w) request in
  let node := fst (Nodes_Get env (trace w ++ [EvInvokeHNS request]) nodeName) in
  let body := if condition then "Active" else "Not Active" in
  exists taints,
    probes.healthz env condition nodeName w
    = (Ret tt,
       extend w [EvInvokeHNS request; EvNodeGet nodeName;
                 EvNodeUpdate (mkNode (ObjectMeta_Name node) taints);
                 EvWriteHeader (match Error_ res with Some _ => 500 | None => 200 end);
                 EvWrite body]) /\
    otherKeys probes.hcnagentfailed taints = otherKeys probes.hcnagentfailed (Spec_Taints node) /\
    match Error_ res with
    | Some _ =>
        taints = Spec_Taints node ++ [failedTaint] /\
        countKey probes.hcnagentfailed taints
        = S (countKey probes.hcnagentfailed (Spec_Taints node))
    | None =>
        taints = otherKeys probes.hcnagentfailed (Spec_Taints node) /\
        countKey probes.hcnagentfailed taints = 0%nat
    end.
Proof.
  cbv zeta.
  set (request := mkHNSRequest EndpointV1 Enumerate NoBody).
  assert (Hrun : probes.healthz env condition nodeName w
    = (Ret tt,
       extend w [EvInvokeHNS request; EvNodeGet nodeName;
                 EvNodeUpdate
                   (mkNode (ObjectMeta_Name
                              (fst (Nodes_Get env (trace w ++ [EvInvokeHNS request]) nodeName)))
                      match Error_ (InvokeHNSRequestFunc env (trace w) request) with
                      | Some _ =>
                          Spec_Taints (fst (Nodes_Get env (trace w ++ [EvInvokeHNS request])
                                              nodeName)) ++ [failedTaint]
                      | None =>
                          probes.removeTaint
                            (Spec_Taints (fst (Nodes_Get env (trace w ++ [EvInvokeHNS request])
                                                 nodeName))) probes.hcnagentfailed
                      end);
                 EvWriteHeader (match Error_ (InvokeHNSRequestFunc env (trace w) request) with
                                | Some _ => 500 | None => 200 end);
                 EvWrite (if condition then "Active" else "Not Active")])).
  { destruct w as [tr pm ini].
    unfold probes.healthz, probes.hcnclient_InvokeHNSRequest, probes.Nodes_Get_,
      probes.Nodes_Update_. fold request. unfold_M. unfold extend. cbn -[request].
    destruct (Error_ (InvokeHNSRequestFunc env tr request)); cbn -[request];
      destruct (Nodes_Get env (tr ++ [EvInvokeHNS request]) nodeName) as [node err];
      cbn -[request]; rewrite <- ?app_assoc; destruct condition; cbn -[request];
      rewrite <- ?app_assoc; reflexivity. }
  rewrite Hrun. clear Hrun.
  destruct (Error_ (InvokeHNSRequestFunc env (trace w) request)) as [e|].
  - eexists. split; [reflexivity|].
    split; [apply probe_facts.otherKeys_append_failed|].
    split; [reflexivity|apply probe_facts.countKey_append_failed].
  - eexists. split; [reflexivity|]. rewrite probe_facts.removeTaint_filter.
    split; [apply probe_facts.otherKeys_idem|].
    split; [reflexivity|apply probe_facts.countKey_otherKeys].
Qed.

(* ===================================================================== *)
(** ** The removal scan and the upsert *)
(* ===================================================================== *)

Module scan_facts.
Import endpointpolicy.

(** [addEndpointPolicy] always returns, and the endpoint it leaves has the
    policies [addedPolicies], whatever the backend answers. *)
Lemma addEndpointPolicy_policies env endpoint metadataIP metadataPort nmiIP nmiPort w :
  exists err w',
    addEndpointPolicy env endpoint metadataIP metadataPort nmiIP nmiPort w
    = (Ret (mkHNSEndpoint (Id endpoint) (IPAddress endpoint)
              (addedPolicies (Policies endpoint) metadataIP metadataPort nmiIP nmiPort),
            err), w').
Proof.
  unfold addEndpointPolicy. cbv zeta.
  destruct (MarshalEndpoint _) as [jsonStr [err|]].
  - eexists _, _. reflexivity.
  - rewrite run_bind.
    destruct (gateway_facts.callHcnProxyAgent_returns env
                (mkHNSRequest EndpointV1 Modify jsonStr) w) as ([b err] & evs & Hrun & _).
    rewrite Hrun. eexists _, _. reflexivity.
Qed.

End scan_facts.

(** C2, evaluated.  On the collection [imdsEntry; otherEntry; imdsEntry] the
    scan for the metadata address returns the empty collection: it removes
    [otherEntry], whose decoded address is another one, where the
    specification's removal keeps it.  On [imdsEntry; aclEntry] it returns the
    empty collection as well: [aclEntry] has no address member, decodes on its
    own to the empty address, and is removed. *)
Theorem updateEndpointPolicies_removes_unrelated_entries :
  endpointpolicy.updateEndpointPolicies [imdsEntry; otherEntry; imdsEntry] imds = [] /\
  spec_removeTarget [imdsEntry; otherEntry; imdsEntry] imds = [otherEntry] /\
  endpointpolicy.updateEndpointPolicies [imdsEntry; aclEntry] imds = [] /\
  spec_removeTarget [imdsEntry; aclEntry] imds = [aclEntry].
Proof. repeat split; vm_compute; reflexivity. Qed.

(** C1, evaluated.  (1) An endpoint that holds the redirection entry for the
    metadata address twice, followed by another entry: after one
    [addEndpointPolicy], whatever the backend answers, its collection holds
    two entries whose decoded address is the metadata address.  (2) An
    endpoint that holds that entry four times, followed by another entry:
    after [addEndpointPolicy] twice in a row, its collection again holds two
    such entries. *)
Theorem addEndpointPolicy_twice_leaves_two_entries (env : Env) (w : World) :
  (exists e1 err1 w1,
     endpointpolicy.addEndpointPolicy env
       (mkHNSEndpoint "ep-5" "10.0.0.5" [imdsEntry; imdsEntry; otherEntry])
       imds "80" "10.0.0.1" "8429" w
     = (Ret (e1, err1), w1) /\
     Policies e1 = [imdsEntry; otherEntry; imdsEntry] /\
     countTarget imds (Policies e1) = 2%nat) /\
  (exists e1 err1 w1 e2 err2 w2,
     endpointpolicy.addEndpointPolicy env
       (mkHNSEndpoint "ep-5" "10.0.0.5" [imdsEntry; imdsEntry; imdsEntry; imdsEntry; otherEntry])
       imds "80" "10.0.0.1" "8429" w
     = (Ret (e1, err1), w1) /\
     endpointpolicy.addEndpointPolicy env e1 imds "80" "10.0.0.1" "8429" w1
     = (Ret (e2, err2), w2) /\
     Policies e2 = [imdsEntry; imdsEntry] /\
     countTarget imds (Policies e2) = 2%nat).
Proof.
  split.
  - destruct (scan_facts.addEndpointPolicy_policies env
                (mkHNSEndpoint "ep-5" "10.0.0.5" [imdsEntry; imdsEntry; otherEntry])
                imds "80" "10.0.0.1" "8429" w) as (err1 & w1 & H1).
    eexists _, err1, w1. split; [exact H1|]. split; vm_compute; reflexivity.
  - set (endpoint := mkHNSEndpoint "ep-5" "10.0.0.5"
                       [imdsEntry; imdsEntry; imdsEntry; imdsEntry; otherEntry]).
    destruct (scan_facts.addEndpointPolicy_policies env endpoint imds "80" "10.0.0.1" "8429" w)
      as (err1 & w1 & H1).
    destruct (scan_facts.addEndpointPolicy_policies env
                (mkHNSEndpoint (Id endpoint) (IPAddress endpoint)
                   (addedPolicies (Policies endpoint) imds "80" "10.0.0.1" "8429"))
                imds "80" "10.0.0.1" "8429" w1)
      as (err2 & w2 & H2).
    eexists _, err1, w1, _, err2, w2. split; [exact H1|]. split; [exact H2|].
    split; vm_compute; reflexivity.
Qed.

(* ===================================================================== *)
(** ** Where the removal scan is right *)
(* ===================================================================== *)

Module scan_refinement.
Import endpointpolicy.

Section Scan.
Variable targetAddr : string.

Lemma targets_matchesIn p : targets targetAddr p = matchesIn targetAddr zeroProxyPolicy p.
Proof.
  unfold targets, decodedTarget, matchesIn.
  destruct (json.Unmarshal p zeroProxyPolicy) as [pp [e|]]; reflexivity.
Qed.

(** One iteration on an entry the scan does not take for a target: only
    [proxyPolicy] changes. *)
Lemma body_skip i st p :
  backing st !! i = Some p ->
  matchesIn targetAddr (proxyPolicy st) p = false ->
  backing (body targetAddr i st) = backing st /\
  epLen (body targetAddr i st) = epLen st /\
  count (body targetAddr i st) = count st.
Proof.
  intros Hp Hm. unfold body. rewrite Hp. unfold matchesIn in Hm.
  destruct (json.Unmarshal p (proxyPolicy st)) as [pp [e|]]; [auto|].
  rewrite Hm. auto.
Qed.

(** One iteration on an entry the scan takes for a target. *)
Lemma body_cut i st p :
  backing st !! i = Some p ->
  matchesIn targetAddr (proxyPolicy st) p = true ->
  backing (body targetAddr i st)
  = appendCut (backing st) (epLen st) (Z.to_nat (Z.of_nat i - (count st + 1))) /\
  epLen (body targetAddr i st) = (epLen st - 1)%nat /\
  count (body targetAddr i st) = count st + 1.
Proof.
  intros Hp Hm. unfold body. rewrite Hp. unfold matchesIn in Hm.
  destruct (json.Unmarshal p (proxyPolicy st)) as [pp [e|]]; [discriminate|].
  rewrite Hm. auto.
Qed.

Lemma loop_skip idxs :
  forall st,
    (forall i p, i ∈ idxs -> backing st !! i = Some p ->
                 forall pp, matchesIn targetAddr pp p = false) ->
    (forall i, i ∈ idxs -> is_Some (backing st !! i)) ->
    backing (loop targetAddr idxs st) = backing st /\
    epLen (loop targetAddr idxs st) = epLen st /\
    count (loop targetAddr idxs st) = count st.
Proof.
  induction idxs as [|i idxs IH]; intros st Hno Hin; [auto|].
  unfold loop. cbn [fold_left]. fold (loop targetAddr idxs (body targetAddr i st)).
  destruct (Hin i) as [p Hp]; [left|].
  destruct (body_skip i st p Hp (Hno i p ltac:(left) Hp _)) as (Hb & He & Hc).
  destruct (IH (body targetAddr i st)) as (Hb' & He' & Hc').
  - intros j q Hj Hq. rewrite Hb in Hq. apply (Hno j q); [by right|exact Hq].
  - intros j Hj. rewrite Hb. apply Hin. by right.
  - rewrite Hb', He', Hc'. auto.
Qed.

Lemma spec_removeTarget_app l1 l2 :
  spec_removeTarget (l1 ++ l2) targetAddr
  = spec_removeTarget l1 targetAddr ++ spec_removeTarget l2 targetAddr.
Proof. apply List.filter_app. Qed.

Lemma spec_removeTarget_none l :
  Forall (fun p => targets targetAddr p = false) l -> spec_removeTarget l targetAddr = l.
Proof.
  induction 1 as [|p l Hp _ IH]; [reflexivity|].
  unfold spec_removeTarget in *. simpl. rewrite Hp. simpl. by rewrite IH.
Qed.

Lemma countTarget_none l :
  Forall (fun p => targets targetAddr p = false) l <-> countTarget targetAddr l = 0%nat.
Proof.
  unfold countTarget. induction l as [|p l IH]; simpl.
  - split; auto.
  - destruct (targets targetAddr p) eqn:E; simpl.
    + split; [|discriminate]. inversion 1; congruence.
    + rewrite <- IH. split; [by inversion 1|]. by constructor.
Qed.

(** With at most one target entry, the collection has none, or it splits
    around the one it has. *)
Lemma at_most_one_split l :
  (countTarget targetAddr l <= 1)%nat ->
  Forall (fun p => targets targetAddr p = false) l \/
  exists l1 t l2, l = l1 ++ t :: l2 /\ targets targetAddr t = true /\
                  Forall (fun p => targets targetAddr p = false) l1 /\
                  Forall (fun p => targets targetAddr p = false) l2.
Proof.
  induction l as [|p l IH]; intros Hc; [left; constructor|].
  unfold countTarget in Hc. simpl in Hc.
  destruct (targets targetAddr p) eqn:E.
  - right. exists [], p, l. simpl in Hc. repeat split; auto.
    apply countTarget_none. unfold countTarget. lia.
  - destruct (IH Hc) as [Hall|(l1 & t & l2 & -> & Ht & H1 & H2)].
    + left. by constructor.
    + right. exists (p :: l1), t, l2. repeat split; auto.
Qed.

Lemma appendCut_middle (l1 : list RawMessage) (t : RawMessage) (l2 : list RawMessage) :
  appendCut (l1 ++ t :: l2) (length (l1 ++ t :: l2)) (length l1)
  = l1 ++ l2 ++ drop (length l1 + length l2) (l1 ++ t :: l2).
Proof.
  unfold appendCut. rewrite length_app. cbn [length].
  rewrite take_app_length.
  replace (length l1 + 1)%nat with (length (l1 ++ [t])) by (rewrite length_app; simpl; lia).
  replace (l1 ++ t :: l2) with ((l1 ++ [t]) ++ l2) at 1 by (by rewrite <- app_assoc).
  rewrite drop_app_length.
  replace (length l1 + S (length l2) - length (l1 ++ [t]))%nat with (length l2)
    by (rewrite length_app; simpl; lia).
  rewrite firstn_all.
  replace (length l1 + S (length l2) - 1)%nat with (length l1 + length l2)%nat by lia.
  reflexivity.
Qed.

(** In the array after the cut, every cell from [length l1 + 1] on holds
    an entry of [l2]. *)
Lemma after_cut_lookup (l1 : list RawMessage) (t : RawMessage) (l2 : list RawMessage)
      (i : nat) (p : RawMessage) :
  (length l1 < i)%nat ->
  (l1 ++ l2 ++ drop (length l1 + length l2) (l1 ++ t :: l2)) !! i = Some p ->
  p ∈ l2.
Proof.
  intros Hi Hp.
  rewrite lookup_app_r in Hp by lia.
  destruct (decide (i - length l1 < length l2)%nat) as [Hlt|Hge].
  - rewrite lookup_app_l in Hp by exact Hlt. eapply list_elem_of_lookup_2, Hp.
  - rewrite lookup_app_r in Hp by lia.
    rewrite lookup_drop in Hp.
    rewrite lookup_app_r in Hp by lia.
    remember (length l1 + length l2 + (i - length l1 - length l2) - length l1)%nat
      as j eqn:Hj.
    destruct j as [|j]; [lia|].
    simpl in Hp. eapply list_elem_of_lookup_2, Hp.
Qed.

(** For a collection of self-contained entries with at most one entry for
    the target address, the scan is the removal the specification
    describes. *)
Theorem updateEndpointPolicies_refines (policies : list RawMessage) :
  Forall (selfContained targetAddr) policies ->
  (countTarget targetAddr policies <= 1)%nat ->
  updateEndpointPolicies policies targetAddr = spec_removeTarget policies targetAddr.
Proof.
  intros Hself Hone. unfold updateEndpointPolicies. cbv zeta.
  set (st0 := mkLoopState policies (length policies) (-1) 0 zeroProxyPolicy).
  assert (Hskip : forall q, q ∈ policies -> targets targetAddr q = false ->
                            forall pp, matchesIn targetAddr pp q = false).
  { intros q Hq Hnt pp. rewrite Forall_forall in Hself. rewrite (Hself q Hq pp). exact Hnt. }
  destruct (at_most_one_split policies Hone) as [Hall|(l1 & t & l2 & Hsplit & Ht & H1 & H2)].
  - destruct (loop_skip (seq 0 (length policies)) st0) as (Hb & He & _).
    + intros i p _ Hp pp. apply Hskip; [eapply list_elem_of_lookup_2, Hp|].
      rewrite Forall_forall in Hall. apply Hall. eapply list_elem_of_lookup_2, Hp.
    + intros i Hi. apply lookup_lt_is_Some. apply elem_of_seq in Hi. simpl. lia.
    + rewrite Hb, He. simpl. rewrite firstn_all. symmetry. by apply spec_removeTarget_none.
  - assert (Hlen : length policies = (length l1 + S (length l2))%nat)
      by (rewrite Hsplit, length_app; reflexivity).
    assert (Hseq : seq 0 (length policies)
                   = seq 0 (length l1) ++ length l1 :: seq (S (length l1)) (length l2)).
    { rewrite Hlen, seq_app. reflexivity. }
    rewrite Hseq. unfold loop. rewrite fold_left_app. cbn [fold_left].
    fold (loop targetAddr (seq 0 (length l1)) st0).
    set (st1 := loop targetAddr (seq 0 (length l1)) st0).
    fold (loop targetAddr (seq (S (length l1)) (length l2)) (body targetAddr (length l1) st1)).
    destruct (loop_skip (seq 0 (length l1)) st0) as (Hb1 & He1 & Hc1).
    { intros i p Hi Hp pp. apply elem_of_seq in Hi. simpl in Hp.
      rewrite Hsplit, lookup_app_l in Hp by lia.
      apply Hskip.
      - rewrite Hsplit. apply elem_of_app. left. eapply list_elem_of_lookup_2, Hp.
      - rewrite Forall_forall in H1. apply H1. eapply list_elem_of_lookup_2, Hp. }
    { intros i Hi. apply lookup_lt_is_Some. apply elem_of_seq in Hi. simpl. lia. }
    fold st1 in Hb1, He1, Hc1. simpl in Hb1, He1, Hc1.
    assert (Htk : backing st1 !! length l1 = Some t).
    { rewrite Hb1, Hsplit. rewrite lookup_app_r by lia.
      replace (length l1 - length l1)%nat with 0%nat by lia. reflexivity. }
    assert (Hmt : matchesIn targetAddr (proxyPolicy st1) t = true).
    { rewrite Forall_forall in Hself. rewrite (Hself t); [exact Ht|].
      rewrite Hsplit. apply elem_of_app. right. left. }
    destruct (body_cut (length l1) st1 t Htk Hmt) as (Hb2 & He2 & Hc2).
    rewrite Hb1, He1, Hc1 in Hb2. rewrite He1 in He2.
    replace (Z.to_nat (Z.of_nat (length l1) - (-1 + 1))) with (length l1) in Hb2 by lia.
    rewrite Hsplit in Hb2 at 1. rewrite Hlen in Hb2.
    replace (length l1 + S (length l2))%nat with (length (l1 ++ t :: l2)) in Hb2
      by (rewrite length_app; reflexivity).
    rewrite appendCut_middle in Hb2.
    set (st2 := body targetAddr (length l1) st1) in *.
    destruct (loop_skip (seq (S (length l1)) (length l2)) st2) as (Hb3 & He3 & _).
    { intros i p Hi Hp pp. apply elem_of_seq in Hi. rewrite Hb2 in Hp.
      assert (Hin : p ∈ l2) by (eapply after_cut_lookup; [|exact Hp]; lia).
      apply Hskip.
      - rewrite Hsplit. apply elem_of_app. right. by right.
      - rewrite Forall_forall in H2. by apply H2. }
    { intros i Hi. apply elem_of_seq in Hi. apply lookup_lt_is_Some.
      rewrite Hb2, !length_app, length_drop, length_app. simpl. lia. }
    rewrite Hb3, He3, Hb2, He2, Hlen.
    replace (length l1 + S (length l2) - 1)%nat with (length (l1 ++ l2))
      by (rewrite length_app; lia).
    rewrite app_assoc, take_app_length.
    rewrite Hsplit, spec_removeTarget_app.
    unfold spec_removeTarget at 2. cbn [List.filter]. rewrite Ht. cbn [negb].
    fold (spec_removeTarget l2 targetAddr).
    by rewrite !spec_removeTarget_none.
Qed.

End Scan.

End scan_refinement.

Module upsert_facts.
Import endpointpolicy scan_refinement.

Lemma length_appendCut (arr : list RawMessage) (len idx : nat) :
  (idx < len)%nat -> (len <= length arr)%nat -> length (appendCut arr len idx) = length arr.
Proof.
  intros Hidx Hlen. unfold appendCut.
  rewrite !length_app, !length_take, !length_drop. lia.
Qed.

(** The loop's bookkeeping after the first [k] iterations: the array keeps
    its length, [len(endpointPolicies)] is [len(policies)] minus the number
    of removals [count + 1], and there were at most [k] removals. *)
Lemma loop_invariant (policies : list RawMessage) (metadataIP : string) (k : nat) :
  (k <= length policies)%nat ->
  let st := loop metadataIP (seq 0 k)
              (mkLoopState policies (length policies) (-1) 0 zeroProxyPolicy) in
  length (backing st) = length policies /\
  Z.of_nat (epLen st) = Z.of_nat (length policies) - (count st + 1) /\
  0 <= count st + 1 <= Z.of_nat k.
Proof.
  induction k as [|k IH]; intros Hk; cbv zeta.
  - simpl. lia.
  - rewrite seq_S. unfold loop. rewrite fold_left_app. cbn [fold_left].
    fold (loop metadataIP (seq 0 k)
            (mkLoopState policies (length policies) (-1) 0 zeroProxyPolicy)).
    destruct (IH ltac:(lia)) as (Hlen & Hep & Hcnt).
    set (st := loop metadataIP (seq 0 k) _) in *. cbn [Nat.add].
    unfold body. destruct (backing st !! k) as [p|]; [|lia].
    destruct (json.Unmarshal p (proxyPolicy st)) as [pp [e|]]; cbn; [lia|].
    destruct (String.eqb (IP pp) metadataIP); cbn; [|lia].
    rewrite length_appendCut by lia. lia.
Qed.

(** The slice expressions [endpointPolicies[:index]] and
    [endpointPolicies[index+1:]] are in range whenever they are evaluated:
    the scan cannot panic. *)
Lemma slice_expressions_in_range (policies : list RawMessage) (metadataIP : string) (i : nat) :
  (i < length policies)%nat ->
  let st := loop metadataIP (seq 0 i)
              (mkLoopState policies (length policies) (-1) 0 zeroProxyPolicy) in
  let index' := Z.of_nat i - (count st + 1) in
  0 <= index' /\ index' + 1 <= Z.of_nat (epLen st).
Proof.
  intros Hi. cbv zeta. destruct (loop_invariant policies metadataIP i ltac:(lia))
    as (_ & Hep & Hcnt). lia.
Qed.

Section Upsert.
Variables metadataIP metadataPort nmiIP nmiPort : string.
Hypothesis metadataIP_nonempty : metadataIP <> "".

(** The entry [addEndpointPolicy] appends reads as an entry for the
    metadata address whatever was decoded before it. *)
Lemma fresh_matches pp :
  matchesIn metadataIP pp (freshEntry metadataIP metadataPort nmiIP nmiPort) = true.
Proof.
  apply String.eqb_neq in metadataIP_nonempty.
  unfold freshEntry, json.Marshal, json.omitempty, matchesIn. cbn [IP Port Destination Type_].
  rewrite metadataIP_nonempty.
  destruct (String.eqb metadataPort ""), (String.eqb (nmiIP +:+ ":" +:+ nmiPort) "");
    cbn; apply String.eqb_refl.
Qed.

Lemma fresh_targets :
  targets metadataIP (freshEntry metadataIP metadataPort nmiIP nmiPort) = true.
Proof. rewrite targets_matchesIn. apply fresh_matches. Qed.

Lemma fresh_selfContained :
  selfContained metadataIP (freshEntry metadataIP metadataPort nmiIP nmiPort).
Proof. intros pp. by rewrite fresh_matches, fresh_targets. Qed.

Lemma countTarget_app l1 l2 :
  countTarget metadataIP (l1 ++ l2) = (countTarget metadataIP l1 + countTarget metadataIP l2)%nat.
Proof. unfold countTarget. by rewrite List.filter_app, length_app. Qed.

Lemma countTarget_removed l : countTarget metadataIP (spec_removeTarget l metadataIP) = 0%nat.
Proof.
  unfold countTarget, spec_removeTarget. induction l as [|p l IH]; simpl; [reflexivity|].
  destruct (targets metadataIP p) eqn:E; simpl; [exact IH|]. rewrite E. exact IH.
Qed.

Lemma selfContained_removed l :
  Forall (selfContained metadataIP) l ->
  Forall (selfContained metadataIP) (spec_removeTarget l metadataIP).
Proof.
  unfold spec_removeTarget. induction 1 as [|p l Hp _ IH]; simpl; [constructor|].
  destruct (negb (targets metadataIP p)); [by constructor|exact IH].
Qed.

(** The upsert on collections that respect the invariant: when the entries
    are self-contained and at most one is for the metadata address, one
    [addEndpointPolicy] leaves the other entries in order followed by the
    fresh entry, which is then the only one for the address, and a second
    [addEndpointPolicy] changes nothing. *)
Theorem addedPolicies_upsert (policies : list RawMessage) :
  Forall (selfContained metadataIP) policies ->
  (countTarget metadataIP policies <= 1)%nat ->
  let once := addedPolicies policies metadataIP metadataPort nmiIP nmiPort in
  let twice := addedPolicies once metadataIP metadataPort nmiIP nmiPort in
  once = spec_removeTarget policies metadataIP
         ++ [freshEntry metadataIP metadataPort nmiIP nmiPort] /\
  twice = once /\
  countTarget metadataIP twice = 1%nat.
Proof.
  intros Hself Hone. cbv zeta. unfold addedPolicies. 
  rewrite (updateEndpointPolicies_refines metadataIP policies Hself Hone).
  assert (Hcount : countTarget metadataIP
                     (spec_removeTarget policies metadataIP
                      ++ [freshEntry metadataIP metadataPort nmiIP nmiPort]) = 1%nat).
  { rewrite countTarget_app, countTarget_removed. unfold countTarget. simpl.
    rewrite fresh_targets. reflexivity. }
  assert (Hself' : Forall (selfContained metadataIP)
                          (spec_removeTarget policies metadataIP
                           ++ [freshEntry metadataIP metadataPort nmiIP nmiPort])).
  { apply Forall_app. split; [by apply selfContained_removed|].
    constructor; [apply fresh_selfContained|constructor]. }
  rewrite (updateEndpointPolicies_refines metadataIP _ Hself' ltac:(lia)).
  rewrite spec_removeTarget_app.
  rewrite (spec_removeTarget_none metadataIP (spec_removeTarget policies metadataIP)).
  - unfold spec_removeTarget at 2. simpl. rewrite fresh_targets. simpl.
    rewrite app_nil_r. auto.
  - apply countTarget_none, countTarget_removed.
Qed.

End Upsert.

End upsert_facts.

(* ===================================================================== *)
(** ** Further properties of endpointpolicy.go *)
(* ===================================================================== *)

Module cost_facts.
Import endpointpolicy.

Lemma requestsOf_app a b : requestsOf (a ++ b) = requestsOf a ++ requestsOf b.
Proof. apply omap_app. Qed.

Lemma sleptOf_app a b : sleptOf (a ++ b) = sleptOf a + sleptOf b.
Proof.
  induction a as [|e a IH]; [reflexivity|].
  destruct e; cbn [app sleptOf]; rewrite IH; lia.
Qed.

Lemma retryState_next rc sf : retryState rc sf -> rc <= 4 -> retryState (rc + 1) (sf * 2).
Proof. unfold retryState. lia. Qed.

Section WithEnv.
Variable env : Env.

(** What the gateway's loop costs from a loop state on: at most [6 - rc]
    requests, all of them [req], and sleeps that add up to at most
    [16 - sf]; an error comes only out of the attempt made with
    [retryCount = 5]. *)
Lemma callHcnProxyAgent_loop_cost req :
  forall fuel rc sf w,
    retryState rc sf -> 5 - rc < Z.of_nat fuel ->
    exists r evs,
      callHcnProxyAgent_loop env fuel req rc sf w = (Ret r, extend w evs) /\
      Forall (fun e => isGateway e = true) evs /\
      Forall (eq req) (requestsOf evs) /\
      (1 <= length (requestsOf evs))%nat /\
      Z.of_nat (length (requestsOf evs)) <= 6 - rc /\
      0 <= sleptOf evs <= 16 - sf /\
      (Error_ (InvokeHNSRequestFunc env (trace w) req) = None -> evs = [EvInvokeHNS req]) /\
      (snd r <> None ->
       fst r = NoBody /\ Z.of_nat (length (requestsOf evs)) = 6 - rc /\
       sleptOf evs = 16 - sf).
Proof.
  induction fuel as [|fuel IH]; intros rc sf w Hst Hfuel; [unfold retryState in Hst; lia|].
  rewrite gateway_facts.callHcnProxyAgent_loop_step.
  destruct (Error_ (InvokeHNSRequestFunc env (trace w) req)) as [e|] eqn:E.
  - destruct (rc >? maxRetryCount) eqn:Hgt; unfold maxRetryCount in Hgt.
    + apply Z.gtb_lt in Hgt. exists (NoBody, Some e), [EvInvokeHNS req].
      split; [reflexivity|]. unfold retryState in Hst. cbn.
      split; [repeat constructor|]. split; [repeat constructor|].
      split; [lia|]. split; [lia|]. split; [lia|]. split; [discriminate|].
      intros _. split; [reflexivity|]. split; lia.
    + rewrite Z.gtb_ltb in Hgt. apply Z.ltb_ge in Hgt.
      destruct (IH (rc + 1) (sf * 2) (extend w [EvInvokeHNS req; EvSleep sf]))
        as (r & evs & Hrun & Hgw & Hreq & Hlo & Hhi & Hsl & _ & Herr);
        [apply retryState_next; [exact Hst|lia]|lia|].
      exists r, ([EvInvokeHNS req; EvSleep sf] ++ evs).
      rewrite Hrun, extend_extend. split; [reflexivity|].
      unfold retryState in Hst.
      change (requestsOf ([EvInvokeHNS req; EvSleep sf] ++ evs)) with (req :: requestsOf evs).
      change (sleptOf ([EvInvokeHNS req; EvSleep sf] ++ evs)) with (sf + sleptOf evs).
      cbn [length].
      split; [repeat constructor; exact Hgw|].
      split; [constructor; [reflexivity|exact Hreq]|].
      split; [lia|]. split; [lia|]. split; [lia|]. split; [discriminate|].
      intros H. destruct (Herr H) as (Hb & Hn & Hs). split; [exact Hb|]. split; lia.
  - exists (Response (InvokeHNSRequestFunc env (trace w) req), None), [EvInvokeHNS req].
    split; [reflexivity|]. unfold retryState in Hst. cbn.
    split; [repeat constructor|]. split; [repeat constructor|].
    split; [lia|]. split; [lia|]. split; [lia|]. split; [reflexivity|].
    intros H; contradiction.
Qed.

Lemma callHcnProxyAgent_cost req w :
  exists r evs,
    callHcnProxyAgent env req w = (Ret r, extend w evs) /\
    Forall (fun e => isGateway e = true) evs /\
    Forall (eq req) (requestsOf evs) /\
    (1 <= length (requestsOf evs) <= 5)%nat /\
    0 <= sleptOf evs <= 15 /\
    (Error_ (InvokeHNSRequestFunc env (trace w) req) = None -> evs = [EvInvokeHNS req]) /\
    (snd r <> None ->
     fst r = NoBody /\ length (requestsOf evs) = 5%nat /\ sleptOf evs = 15).
Proof.
  destruct (callHcnProxyAgent_loop_cost req 5 1 1 w)
    as (r & evs & Hrun & Hgw & Hreq & Hlo & Hhi & Hsl & Hfirst & Herr);
    [unfold retryState; lia|lia|].
  exists r, evs. split; [exact Hrun|]. split; [exact Hgw|]. split; [exact Hreq|].
  split; [lia|]. split; [lia|]. split; [exact Hfirst|].
  intros H. destruct (Herr H) as (Hb & Hn & Hs). split; [exact Hb|]. split; lia.
Qed.

Lemma enumerate_cost w :
  exists r evs,
    enumerate env w = (Ret r, extend w evs) /\
    Forall (fun e => isGateway e = true) evs /\
    Forall (eq enumerateRequest) (requestsOf evs) /\
    (1 <= length (requestsOf evs) <= 5)%nat /\
    0 <= sleptOf evs <= 15.
Proof.
  destruct (callHcnProxyAgent_cost enumerateRequest w)
    as (r & evs & Hrun & Hgw & Hreq & Hn & Hs & _).
  exists r, evs. auto.
Qed.

(** What the locator's loop costs from a loop state on. *)
Lemma getEndpointByIP_loop_cost ip :
  forall fuel rc sf w,
    retryState rc sf -> 5 - rc < Z.of_nat fuel ->
    exists r evs,
      getEndpointByIP_loop env fuel ip rc sf w = (Ret r, extend w evs) /\
      Forall (fun e => isGateway e = true) evs /\
      Forall (eq enumerateRequest) (requestsOf evs) /\
      (1 <= length (requestsOf evs))%nat /\
      Z.of_nat (length (requestsOf evs)) <= 5 * (6 - rc) /\
      0 <= sleptOf evs <= 15 * (6 - rc) + (16 - sf) /\
      locatorResult ip r /\
      (r = (None, Some (notFoundError ip)) ->
       6 - rc <= Z.of_nat (length (requestsOf evs)) /\ 16 - sf <= sleptOf evs).
Proof.
  induction fuel as [|fuel IH]; intros rc sf w Hst Hfuel; [unfold retryState in Hst; lia|].
  destruct (enumerate_cost w) as (r & evs & Hen & Hgw & Hreq & Hn & Hs).
  rewrite (locator_facts.getEndpointByIP_loop_step env fuel ip rc sf w r _ Hen).
  destruct (classify ip r) as [e|ep|] eqn:Hcl.
  - eexists _, evs. split; [reflexivity|]. unfold retryState in Hst.
    split; [exact Hgw|]. split; [exact Hreq|]. split; [lia|]. split; [lia|]. split; [lia|].
    split; [right; left; eauto|]. intros H. discriminate H.
  - eexists _, evs. split; [reflexivity|]. unfold retryState in Hst.
    split; [exact Hgw|]. split; [exact Hreq|]. split; [lia|]. split; [lia|]. split; [lia|].
    split; [|intros H; discriminate H].
    left. exists ep. split; [reflexivity|]. unfold classify in Hcl.
    destruct r as [b [?|]]; [discriminate|].
    destruct (UnmarshalEndpoints b) as [eps [?|]]; [discriminate|].
    destruct (scan eps ip) eqn:Hsc; [|discriminate]. injection Hcl as <-.
    eapply locator_facts.scan_found, Hsc.
  - destruct (rc >? maxRetryCount) eqn:Hgt; unfold maxRetryCount in Hgt.
    + apply Z.gtb_lt in Hgt. eexists _, evs. split; [reflexivity|].
      unfold retryState in Hst.
      split; [exact Hgw|]. split; [exact Hreq|]. split; [lia|]. split; [lia|]. split; [lia|].
      split; [right; right; reflexivity|]. intros _. lia.
    + rewrite Z.gtb_ltb in Hgt. apply Z.ltb_ge in Hgt.
      destruct (IH (rc + 1) (sf * 2) (extend (extend w evs) [EvSleep sf]))
        as (r' & evs' & Hrun & Hgw' & Hreq' & Hlo' & Hhi' & Hs' & Hres & Hnf);
        [apply retryState_next; [exact Hst|lia]|lia|].
      exists r', (evs ++ [EvSleep sf] ++ evs').
      rewrite Hrun, !extend_extend. split; [reflexivity|].
      rewrite !requestsOf_app, !sleptOf_app, !length_app. unfold retryState in Hst.
      change (requestsOf [EvSleep sf]) with (@nil HNSRequest).
      change (sleptOf [EvSleep sf]) with (sf + 0). cbn [length app].
      split; [apply Forall_app; split; [exact Hgw|]; constructor; [reflexivity|exact Hgw']|].
      split; [apply Forall_app; split; [exact Hreq|exact Hreq']|].
      split; [lia|]. split; [lia|]. split; [lia|]. split; [exact Hres|].
      intros H. destruct (Hnf H). lia.
Qed.

Lemma getEndpointByIP_cost ip w :
  exists r evs,
    getEndpointByIP env ip w = (Ret r, extend w evs) /\
    Forall (fun e => isGateway e = true) evs /\
    Forall (eq enumerateRequest) (requestsOf evs) /\
    (1 <= length (requestsOf evs) <= 25)%nat /\
    0 <= sleptOf evs <= 90 /\
    locatorResult ip r /\
    (r = (None, Some (notFoundError ip)) ->
     (5 <= length (requestsOf evs))%nat /\ 15 <= sleptOf evs).
Proof.
  destruct (getEndpointByIP_loop_cost ip 5 1 1 w)
    as (r & evs & Hrun & Hgw & Hreq & Hlo & Hhi & Hs & Hres & Hnf);
    [unfold retryState; lia|lia|].
  exists r, evs. split; [exact Hrun|]. split; [exact Hgw|]. split; [exact Hreq|].
  split; [lia|]. split; [lia|]. split; [exact Hres|].
  intros H. destruct (Hnf H). lia.
Qed.

(** [json.Marshal(endpoint)] fails exactly when an entry is not JSON text. *)
Lemma MarshalEndpoint_cases endpoint :
  (forallb isText (Policies endpoint) = true /\
   MarshalEndpoint endpoint = (EndpointJSON endpoint, None)) \/
  (forallb isText (Policies endpoint) = false /\
   MarshalEndpoint endpoint = (NoBody, Some marshalerError)).
Proof.
  unfold MarshalEndpoint. destruct (forallb isText (Policies endpoint)); auto.
Qed.

Lemma addEndpointPolicy_unfold endpoint metadataIP metadataPort nmiIP nmiPort :
  addEndpointPolicy env endpoint metadataIP metadataPort nmiIP nmiPort =
  match MarshalEndpoint (upserted endpoint metadataIP metadataPort nmiIP nmiPort) with
  | (_, Some err) => mret (upserted endpoint metadataIP metadataPort nmiIP nmiPort, Some err)
  | (jsonStr, None) =>
      '(_, err) ← callHcnProxyAgent env (mkHNSRequest EndpointV1 Modify jsonStr);
      mret (upserted endpoint metadataIP metadataPort nmiIP nmiPort, err)
  end.
Proof. reflexivity. Qed.

Lemma deleteEndpointPolicy_unfold endpoint metadataIP :
  deleteEndpointPolicy env endpoint metadataIP =
  match MarshalEndpoint (scanned endpoint metadataIP) with
  | (_, Some err) => mret (scanned endpoint metadataIP, Some err)
  | (jsonStr, None) =>
      '(_, err) ← callHcnProxyAgent env (mkHNSRequest EndpointV1 Modify jsonStr);
      mret (scanned endpoint metadataIP, err)
  end.
Proof. reflexivity. Qed.

(** The editor's two functions: the endpoint they leave, and what they ask
    of the backend. *)
Lemma addEndpointPolicy_cost endpoint metadataIP metadataPort nmiIP nmiPort w :
  exists err evs,
    addEndpointPolicy env endpoint metadataIP metadataPort nmiIP nmiPort w
    = (Ret (upserted endpoint metadataIP metadataPort nmiIP nmiPort, err), extend w evs) /\
    Forall (fun e => isGateway e = true) evs /\
    Forall (eq (modifyRequest (upserted endpoint metadataIP metadataPort nmiIP nmiPort)))
           (requestsOf evs) /\
    (length (requestsOf evs) <= 5)%nat /\
    0 <= sleptOf evs <= 15 /\
    (forallb isText (Policies (upserted endpoint metadataIP metadataPort nmiIP nmiPort)) = false ->
     err = Some marshalerError /\ evs = []) /\
    (forallb isText (Policies (upserted endpoint metadataIP metadataPort nmiIP nmiPort)) = true ->
     (1 <= length (requestsOf evs))%nat /\
     (err <> None -> length (requestsOf evs) = 5%nat /\ sleptOf evs = 15)).
Proof.
  rewrite addEndpointPolicy_unfold.
  destruct (MarshalEndpoint_cases (upserted endpoint metadataIP metadataPort nmiIP nmiPort))
    as [[Htxt ->]|[Htxt ->]].
  - rewrite run_bind.
    destruct (callHcnProxyAgent_cost
                (mkHNSRequest EndpointV1 Modify
                   (EndpointJSON (upserted endpoint metadataIP metadataPort nmiIP nmiPort))) w)
      as ([b err] & evs & Hrun & Hgw & Hreq & Hn & Hs & _ & Herr).
    rewrite Hrun. exists err, evs. split; [reflexivity|].
    split; [exact Hgw|]. split; [exact Hreq|]. split; [lia|]. split; [lia|].
    split; [intros H; congruence|]. intros _. split; [lia|].
    intros H. destruct (Herr H) as (_ & Hn5 & Hs15). auto.
  - exists (Some marshalerError), []. rewrite extend_nil. split; [reflexivity|].
    split; [constructor|]. split; [constructor|]. split; [cbn; lia|]. split; [cbn; lia|].
    split; [auto|]. intros H. congruence.
Qed.

Lemma deleteEndpointPolicy_cost endpoint metadataIP w :
  exists err evs,
    deleteEndpointPolicy env endpoint metadataIP w
    = (Ret (scanned endpoint metadataIP, err), extend w evs) /\
    Forall (fun e => isGateway e = true) evs /\
    Forall (eq (modifyRequest (scanned endpoint metadataIP))) (requestsOf evs) /\
    (length (requestsOf evs) <= 5)%nat /\
    0 <= sleptOf evs <= 15 /\
    (forallb isText (Policies (scanned endpoint metadataIP)) = false ->
     err = Some marshalerError /\ evs = []) /\
    (forallb isText (Policies (scanned endpoint metadataIP)) = true ->
     (1 <= length (requestsOf evs))%nat /\
     (err <> None -> length (requestsOf evs) = 5%nat /\ sleptOf evs = 15)).
Proof.
  rewrite deleteEndpointPolicy_unfold.
  destruct (MarshalEndpoint_cases (scanned endpoint metadataIP)) as [[Htxt ->]|[Htxt ->]].
  - rewrite run_bind.
    destruct (callHcnProxyAgent_cost
                (mkHNSRequest EndpointV1 Modify (EndpointJSON (scanned endpoint metadataIP))) w)
      as ([b err] & evs & Hrun & Hgw & Hreq & Hn & Hs & _ & Herr).
    rewrite Hrun. exists err, evs. split; [reflexivity|].
    split; [exact Hgw|]. split; [exact Hreq|]. split; [lia|]. split; [lia|].
    split; [intros H; congruence|]. intros _. split; [lia|].
    intros H. destruct (Herr H) as (_ & Hn5 & Hs15). auto.
  - exists (Some marshalerError), []. rewrite extend_nil. split; [reflexivity|].
    split; [constructor|]. split; [constructor|]. split; [cbn; lia|]. split; [cbn; lia|].
    split; [auto|]. intros H. congruence.
Qed.

End WithEnv.

End cost_facts.

(** X1.  [updateEndpointPolicies] on a collection that respects the
    invariant.  When every entry is self-contained and at most one entry is
    for the address, the scan returns the collection without that entry, the
    others in their order; no entry for the address is left; and when there
    was none, the collection comes back unchanged.  Entries that fail to
    decode are among the ones kept. *)
Theorem updateEndpointPolicies_single_target (targetAddr : string) (policies : list RawMessage) :
  Forall (selfContained targetAddr) policies ->
  (countTarget targetAddr policies <= 1)%nat ->
  endpointpolicy.updateEndpointPolicies policies targetAddr
  = spec_removeTarget policies targetAddr /\
  countTarget targetAddr (endpointpolicy.updateEndpointPolicies policies targetAddr) = 0%nat /\
  (countTarget targetAddr policies = 0%nat ->
   endpointpolicy.updateEndpointPolicies policies targetAddr = policies).
Proof.
  intros Hself Hone.
  rewrite (scan_refinement.updateEndpointPolicies_refines targetAddr policies Hself Hone).
  split; [reflexivity|]. split.
  - unfold countTarget, spec_removeTarget. clear Hself Hone.
    induction policies as [|p l IH]; simpl; [reflexivity|].
    destruct (targets targetAddr p) eqn:E; simpl; [exact IH|]. rewrite E. exact IH.
  - intros Hnone. apply scan_refinement.spec_removeTarget_none.
    by apply scan_refinement.countTarget_none.
Qed.

Lemma updateEndpointPolicies_single_target_witness :
  endpointpolicy.updateEndpointPolicies [otherEntry; imdsEntry; Garbage "{"] imds
  = spec_removeTarget [otherEntry; imdsEntry; Garbage "{"] imds /\
  countTarget imds (endpointpolicy.updateEndpointPolicies
                      [otherEntry; imdsEntry; Garbage "{"] imds) = 0%nat /\
  (countTarget imds [otherEntry; imdsEntry; Garbage "{"] = 0%nat ->
   endpointpolicy.updateEndpointPolicies [otherEntry; imdsEntry; Garbage "{"] imds
   = [otherEntry; imdsEntry; Garbage "{"]).
Proof.
  apply (updateEndpointPolicies_single_target imds [otherEntry; imdsEntry; Garbage "{"]).
  - repeat constructor; intros [ty ip port dest]; reflexivity.
  - vm_compute. lia.
Defined.

(** X2.  The scan of [updateEndpointPolicies] stays in range on every
    collection: whenever iteration [i] evaluates [endpointPolicies[:index]]
    and [endpointPolicies[index+1:]], [0 <= index] and
    [index + 1 <= len(endpointPolicies)], and that length never exceeds the
    array; so the function cannot panic, and what it returns is never longer
    than what it was given. *)
Theorem updateEndpointPolicies_in_range (policies : list RawMessage) (metadataIP : string) :
  (length (endpointpolicy.updateEndpointPolicies policies metadataIP) <= length policies)%nat /\
  forall i : nat,
    (i < length policies)%nat ->
    let st := endpointpolicy.loop metadataIP (seq 0 i)
                (endpointpolicy.mkLoopState policies (length policies) (-1) 0 zeroProxyPolicy) in
    let index' := Z.of_nat i - (endpointpolicy.count st + 1) in
    0 <= index' /\
    index' + 1 <= Z.of_nat (endpointpolicy.epLen st) /\
    (endpointpolicy.epLen st <= length (endpointpolicy.backing st))%nat.
Proof.
  split.
  - unfold endpointpolicy.updateEndpointPolicies. cbv zeta.
    rewrite length_take.
    destruct (upsert_facts.loop_invariant policies metadataIP (length policies) ltac:(lia))
      as (Hlen & _ & _). lia.
  - intros i Hi. cbv zeta.
    destruct (upsert_facts.loop_invariant policies metadataIP i ltac:(lia))
      as (Hlen & Hep & Hcnt). lia.
Qed.

Lemma updateEndpointPolicies_in_range_witness :
  let st := endpointpolicy.loop imds (seq 0 2)
              (endpointpolicy.mkLoopState [imdsEntry; otherEntry; imdsEntry] 3 (-1) 0
                 zeroProxyPolicy) in
  let index' := Z.of_nat 2 - (endpointpolicy.count st + 1) in
  0 <= index' /\
  index' + 1 <= Z.of_nat (endpointpolicy.epLen st) /\
  (endpointpolicy.epLen st <= length (endpointpolicy.backing st))%nat.
Proof.
  apply (proj2 (updateEndpointPolicies_in_range [imdsEntry; otherEntry; imdsEntry] imds) 2%nat).
  simpl. lia.
Defined.

(** X3.  [addEndpointPolicy] is an idempotent upsert on endpoints that
    respect the invariant.  With a non-empty metadata address, self-contained
    entries and at most one entry for the address, whatever the backend
    answers: the first call leaves the other entries in their order followed
    by the fresh entry, the second call leaves the same endpoint, and exactly
    one entry is for the address. *)
Theorem addEndpointPolicy_upsert_idempotent
        (env : Env) (endpoint : HNSEndpoint) (metadataIP metadataPort nmiIP nmiPort : string)
        (w : World) :
  metadataIP <> "" ->
  Forall (selfContained metadataIP) (Policies endpoint) ->
  (countTarget metadataIP (Policies endpoint) <= 1)%nat ->
  exists e1 err1 w1 err2 w2,
    endpointpolicy.addEndpointPolicy env endpoint metadataIP metadataPort nmiIP nmiPort w
    = (Ret (e1, err1), w1) /\
    endpointpolicy.addEndpointPolicy env e1 metadataIP metadataPort nmiIP nmiPort w1
    = (Ret (e1, err2), w2) /\
    Id e1 = Id endpoint /\ IPAddress e1 = IPAddress endpoint /\
    Policies e1 = spec_removeTarget (Policies endpoint) metadataIP
                  ++ [freshEntry metadataIP metadataPort nmiIP nmiPort] /\
    countTarget metadataIP (Policies e1) = 1%nat.
Proof.
  intros Hne Hself Hone.
  destruct (upsert_facts.addedPolicies_upsert metadataIP metadataPort nmiIP nmiPort Hne
              (Policies endpoint) Hself Hone) as (Honce & Htwice & Hcount).
  destruct (cost_facts.addEndpointPolicy_cost env endpoint metadataIP metadataPort nmiIP nmiPort w)
    as (err1 & evs1 & Hrun1 & _).
  destruct (cost_facts.addEndpointPolicy_cost env
              (upserted endpoint metadataIP metadataPort nmiIP nmiPort)
              metadataIP metadataPort nmiIP nmiPort (extend w evs1))
    as (err2 & evs2 & Hrun2 & _).
  exists (upserted endpoint metadataIP metadataPort nmiIP nmiPort), err1, (extend w evs1),
    err2, (extend (extend w evs1) evs2).
  split; [exact Hrun1|]. split.
  - rewrite Hrun2. unfold upserted. cbn [Id IPAddress Policies].
    cbv zeta in Htwice. rewrite Htwice. reflexivity.
  - unfold upserted. cbn [Id IPAddress Policies]. cbv zeta in Honce, Hcount, Htwice.
    rewrite Htwice in Hcount. auto.
Qed.

Lemma addEndpointPolicy_upsert_idempotent_witness :
  exists e1 err1 w1 err2 w2,
    endpointpolicy.addEndpointPolicy (envOf backendDown [])
      (mkHNSEndpoint "ep-5" "10.0.0.5" [imdsEntry; otherEntry]) imds "80" "10.0.0.1" "8429" world0
    = (Ret (e1, err1), w1) /\
    endpointpolicy.addEndpointPolicy (envOf backendDown []) e1 imds "80" "10.0.0.1" "8429" w1
    = (Ret (e1, err2), w2) /\
    Id e1 = "ep-5" /\ IPAddress e1 = "10.0.0.5" /\
    Policies e1 = spec_removeTarget [imdsEntry; otherEntry] imds
                  ++ [freshEntry imds "80" "10.0.0.1" "8429"] /\
    countTarget imds (Policies e1) = 1%nat.
Proof.
  apply (addEndpointPolicy_upsert_idempotent (envOf backendDown [])
           (mkHNSEndpoint "ep-5" "10.0.0.5" [imdsEntry; otherEntry])
           imds "80" "10.0.0.1" "8429" world0).
  - discriminate.
  - repeat constructor; intros [ty ip port dest]; reflexivity.
  - vm_compute. lia.
Defined.

(** X4.  [deleteEndpointPolicy] undoes [addEndpointPolicy].  Under the same
    invariant, whatever the backend answers to either call, the endpoint
    left by a delete that follows an add holds the original entries without
    the one for the address; when the original endpoint had no entry for the
    address, it is the original endpoint. *)
Theorem deleteEndpointPolicy_undoes_addEndpointPolicy
        (env : Env) (endpoint : HNSEndpoint) (metadataIP metadataPort nmiIP nmiPort : string)
        (w : World) :
  metadataIP <> "" ->
  Forall (selfContained metadataIP) (Policies endpoint) ->
  (countTarget metadataIP (Policies endpoint) <= 1)%nat ->
  exists e1 err1 w1 e2 err2 w2,
    endpointpolicy.addEndpointPolicy env endpoint metadataIP metadataPort nmiIP nmiPort w
    = (Ret (e1, err1), w1) /\
    endpointpolicy.deleteEndpointPolicy env e1 metadataIP w1 = (Ret (e2, err2), w2) /\
    e2 = mkHNSEndpoint (Id endpoint) (IPAddress endpoint)
           (spec_removeTarget (Policies endpoint) metadataIP) /\
    (countTarget metadataIP (Policies endpoint) = 0%nat -> e2 = endpoint).
Proof.
  intros Hne Hself Hone.
  destruct (upsert_facts.addedPolicies_upsert metadataIP metadataPort nmiIP nmiPort Hne
              (Policies endpoint) Hself Hone) as (Honce & Htwice & Hcount).
  destruct (cost_facts.addEndpointPolicy_cost env endpoint metadataIP metadataPort nmiIP nmiPort w)
    as (err1 & evs1 & Hrun1 & _).
  destruct (cost_facts.deleteEndpointPolicy_cost env
              (upserted endpoint metadataIP metadataPort nmiIP nmiPort) metadataIP
              (extend w evs1))
    as (err2 & evs2 & Hrun2 & _).
  eexists _, err1, _, _, err2, _. split; [exact Hrun1|]. split; [exact Hrun2|].
  assert (Hscan : endpointpolicy.updateEndpointPolicies
                    (addedPolicies (Policies endpoint) metadataIP metadataPort nmiIP nmiPort)
                    metadataIP
                  = spec_removeTarget (Policies endpoint) metadataIP).
  { assert (Happ : addedPolicies
                     (addedPolicies (Policies endpoint) metadataIP metadataPort nmiIP nmiPort)
                     metadataIP metadataPort nmiIP nmiPort
                   = spec_removeTarget (Policies endpoint) metadataIP
                     ++ [freshEntry metadataIP metadataPort nmiIP nmiPort])
      by (cbv zeta in Htwice, Honce; rewrite Htwice; exact Honce).
    unfold addedPolicies at 1 in Happ. by apply app_inv_tail in Happ. }
  unfold scanned, upserted. cbn [Id IPAddress Policies]. rewrite Hscan.
  split; [reflexivity|]. intros Hnone.
  rewrite scan_refinement.spec_removeTarget_none
    by (by apply scan_refinement.countTarget_none).
  destruct endpoint; reflexivity.
Qed.

Lemma deleteEndpointPolicy_undoes_addEndpointPolicy_witness :
  exists e1 err1 w1 e2 err2 w2,
    endpointpolicy.addEndpointPolicy (envOf (backendWith []) [])
      (mkHNSEndpoint "ep-5" "10.0.0.5" [otherEntry]) imds "80" "10.0.0.1" "8429" world0
    = (Ret (e1, err1), w1) /\
    endpointpolicy.deleteEndpointPolicy (envOf (backendWith []) []) e1 imds w1
    = (Ret (e2, err2), w2) /\
    e2 = mkHNSEndpoint "ep-5" "10.0.0.5" (spec_removeTarget [otherEntry] imds) /\
    (countTarget imds [otherEntry] = 0%nat -> e2 = mkHNSEndpoint "ep-5" "10.0.0.5" [otherEntry]).
Proof.
  apply (deleteEndpointPolicy_undoes_addEndpointPolicy (envOf (backendWith []) [])
           (mkHNSEndpoint "ep-5" "10.0.0.5" [otherEntry]) imds "80" "10.0.0.1" "8429" world0).
  - discriminate.
  - repeat constructor; intros [ty ip port dest]; reflexivity.
  - vm_compute. lia.
Defined.

Module apply_facts.
Import endpointpolicy.

Section WithEnv.
Variable env : Env.

(** [ApplyEndpointRoutePolicy] with an address, taken apart: the locator's
    events [evs1], then the editor's events [evs2], and the three ways it
    can end. *)
Lemma ApplyEndpointRoutePolicy_anatomy podIP metadataIP metadataPort nmiIP nmiPort w :
  podIP <> "" ->
  exists r evs1 evs2,
    ApplyEndpointRoutePolicy env podIP metadataIP metadataPort nmiIP nmiPort w
    = (Ret r, extend w (EvApplyCall podIP :: evs1 ++ evs2)) /\
    Forall (fun e => isGateway e = true) (evs1 ++ evs2) /\
    Forall (eq enumerateRequest) (requestsOf evs1) /\
    (1 <= length (requestsOf evs1) <= 25)%nat /\
    0 <= sleptOf evs1 <= 90 /\
    ((exists found err,
        IPAddress found = podIP /\
        r = applied podIP (Id found) err /\
        Forall (eq (modifyRequest (upserted found metadataIP metadataPort nmiIP nmiPort)))
               (requestsOf evs2) /\
        (length (requestsOf evs2) <= 5)%nat /\
        0 <= sleptOf evs2 <= 15 /\
        (forallb isText (Policies (upserted found metadataIP metadataPort nmiIP nmiPort)) = false ->
         err = Some marshalerError /\ evs2 = []) /\
        (forallb isText (Policies (upserted found metadataIP metadataPort nmiIP nmiPort)) = true ->
         (1 <= length (requestsOf evs2))%nat)) \/
     (exists inner,
        evs2 = [] /\ r = (Some (Errorf_w (locateFailed podIP) inner), InvalidOperation)) \/
     (evs2 = [] /\ r = (None, "") /\
      (5 <= length (requestsOf evs1))%nat /\ 15 <= sleptOf evs1)).
Proof.
  intros Hne. rewrite editor_facts.ApplyEndpointRoutePolicy_nonempty by exact Hne.
  destruct (cost_facts.getEndpointByIP_cost env podIP (extend w [EvApplyCall podIP]))
    as (r1 & evs1 & Hrun1 & Hgw1 & Hreq1 & Hn1 & Hs1 & Hres & Hnf).
  rewrite Hrun1, extend_extend. cbn [app].
  destruct Hres as [(found & -> & Hip) | [(inner & ->) | ->]].
  - destruct (cost_facts.addEndpointPolicy_cost env found metadataIP metadataPort nmiIP nmiPort
                (extend w (EvApplyCall podIP :: evs1)))
      as (err & evs2 & Hrun2 & Hgw2 & Hreq2 & Hn2 & Hs2 & Hbad & Hgood).
    rewrite Hrun2, extend_extend. cbn [app].
    exists (applied podIP (Id found) err), evs1, evs2.
    split; [destruct err; reflexivity|].
    split; [apply Forall_app; auto|]. split; [exact Hreq1|]. split; [exact Hn1|].
    split; [exact Hs1|]. left. exists found, err.
    split; [exact Hip|]. split; [reflexivity|]. split; [exact Hreq2|]. split; [exact Hn2|].
    split; [exact Hs2|]. split; [exact Hbad|]. intros H. apply (Hgood H).
  - eexists _, evs1, []. rewrite app_nil_r. cbn. split; [reflexivity|].
    split; [exact Hgw1|]. split; [exact Hreq1|]. split; [exact Hn1|]. split; [exact Hs1|].
    right. left. exists inner. auto.
  - eexists _, evs1, []. rewrite app_nil_r. cbn. split; [reflexivity|].
    split; [exact Hgw1|]. split; [exact Hreq1|]. split; [exact Hn1|]. split; [exact Hs1|].
    right. right. destruct (Hnf eq_refl). auto.
Qed.

Lemma DeleteEndpointRoutePolicy_anatomy podIP metadataIP w :
  podIP <> "" ->
  exists r evs1 evs2,
    DeleteEndpointRoutePolicy env podIP metadataIP w
    = (Ret r, extend w (EvDeleteCall podIP :: evs1 ++ evs2)) /\
    Forall (fun e => isGateway e = true) (evs1 ++ evs2) /\
    Forall (eq enumerateRequest) (requestsOf evs1) /\
    (1 <= length (requestsOf evs1) <= 25)%nat /\
    0 <= sleptOf evs1 <= 90 /\
    ((exists found err,
        IPAddress found = podIP /\
        r = deleted podIP (Id found) err /\
        Forall (eq (modifyRequest (scanned found metadataIP))) (requestsOf evs2) /\
        (length (requestsOf evs2) <= 5)%nat /\
        0 <= sleptOf evs2 <= 15 /\
        (forallb isText (Policies (scanned found metadataIP)) = false ->
         err = Some marshalerError /\ evs2 = []) /\
        (forallb isText (Policies (scanned found metadataIP)) = true ->
         (1 <= length (requestsOf evs2))%nat)) \/
     (exists inner,
        evs2 = [] /\ r = (Some (Errorf_w (locateFailed podIP) inner), InvalidOperation)) \/
     (evs2 = [] /\ r = (None, "") /\
      (5 <= length (requestsOf evs1))%nat /\ 15 <= sleptOf evs1)).
Proof.
  intros Hne. rewrite editor_facts.DeleteEndpointRoutePolicy_nonempty by exact Hne.
  destruct (cost_facts.getEndpointByIP_cost env podIP (extend w [EvDeleteCall podIP]))
    as (r1 & evs1 & Hrun1 & Hgw1 & Hreq1 & Hn1 & Hs1 & Hres & Hnf).
  rewrite Hrun1, extend_extend. cbn [app].
  destruct Hres as [(found & -> & Hip) | [(inner & ->) | ->]].
  - destruct (cost_facts.deleteEndpointPolicy_cost env found metadataIP
                (extend w (EvDeleteCall podIP :: evs1)))
      as (err & evs2 & Hrun2 & Hgw2 & Hreq2 & Hn2 & Hs2 & Hbad & Hgood).
    rewrite Hrun2, extend_extend. cbn [app].
    exists (deleted podIP (Id found) err), evs1, evs2.
    split; [destruct err; reflexivity|].
    split; [apply Forall_app; auto|]. split; [exact Hreq1|]. split; [exact Hn1|].
    split; [exact Hs1|]. left. exists found, err.
    split; [exact Hip|]. split; [reflexivity|]. split; [exact Hreq2|]. split; [exact Hn2|].
    split; [exact Hs2|]. split; [exact Hbad|]. intros H. apply (Hgood H).
  - eexists _, evs1, []. rewrite app_nil_r. cbn. split; [reflexivity|].
    split; [exact Hgw1|]. split; [exact Hreq1|]. split; [exact Hn1|]. split; [exact Hs1|].
    right. left. exists inner. auto.
  - eexists _, evs1, []. rewrite app_nil_r. cbn. split; [reflexivity|].
    split; [exact Hgw1|]. split; [exact Hreq1|]. split; [exact Hn1|]. split; [exact Hs1|].
    right. right. destruct (Hnf eq_refl). auto.
Qed.

(** Both operations for any address: they return; after the mark of their
    entry they only use the gateway, for at most 30 requests and 105 seconds
    of sleep. *)
Lemma ApplyEndpointRoutePolicy_bounded podIP metadataIP metadataPort nmiIP nmiPort w :
  exists r evs,
    ApplyEndpointRoutePolicy env podIP metadataIP metadataPort nmiIP nmiPort w
    = (Ret r, extend w (EvApplyCall podIP :: evs)) /\
    Forall (fun e => isGateway e = true) evs /\
    ((podIP = "" /\ evs = [] /\ r = missingIP) \/ (podIP <> "" /\ editResult r)) /\
    (length (requestsOf evs) <= 30)%nat /\
    0 <= sleptOf evs <= 105.
Proof.
  destruct (decide (podIP = "")) as [->|Hne].
  - exists missingIP, []. split; [reflexivity|]. split; [constructor|].
    split; [left; auto|]. cbn. lia.
  - destruct (ApplyEndpointRoutePolicy_anatomy podIP metadataIP metadataPort nmiIP nmiPort w Hne)
      as (r & evs1 & evs2 & Hrun & Hgw & _ & Hn1 & Hs1 & Hcases).
    exists r, (evs1 ++ evs2). split; [exact Hrun|]. split; [exact Hgw|].
    rewrite cost_facts.requestsOf_app, cost_facts.sleptOf_app, length_app.
    destruct Hcases as [(found & err & _ & -> & _ & Hn2 & Hs2 & _)
                       |[(inner & -> & ->)|(-> & -> & _)]].
    + split; [|lia]. right. split; [exact Hne|].
      destruct err; [right; right; eexists; reflexivity|left; reflexivity].
    + split; [|cbn; lia]. right. split; [exact Hne|]. right; left; eexists; reflexivity.
    + split; [|cbn; lia]. right. split; [exact Hne|]. left; reflexivity.
Qed.

Lemma DeleteEndpointRoutePolicy_bounded podIP metadataIP w :
  exists r evs,
    DeleteEndpointRoutePolicy env podIP metadataIP w
    = (Ret r, extend w (EvDeleteCall podIP :: evs)) /\
    Forall (fun e => isGateway e = true) evs /\
    ((podIP = "" /\ evs = [] /\ r = missingIP) \/ (podIP <> "" /\ editResult r)) /\
    (length (requestsOf evs) <= 30)%nat /\
    0 <= sleptOf evs <= 105.
Proof.
  destruct (decide (podIP = "")) as [->|Hne].
  - exists missingIP, []. split; [reflexivity|]. split; [constructor|].
    split; [left; auto|]. cbn. lia.
  - destruct (DeleteEndpointRoutePolicy_anatomy podIP metadataIP w Hne)
      as (r & evs1 & evs2 & Hrun & Hgw & _ & Hn1 & Hs1 & Hcases).
    exists r, (evs1 ++ evs2). split; [exact Hrun|]. split; [exact Hgw|].
    rewrite cost_facts.requestsOf_app, cost_facts.sleptOf_app, length_app.
    destruct Hcases as [(found & err & _ & -> & _ & Hn2 & Hs2 & _)
                       |[(inner & -> & ->)|(-> & -> & _)]].
    + split; [|lia]. right. split; [exact Hne|].
      destruct err; [right; right; eexists; reflexivity|left; reflexivity].
    + split; [|cbn; lia]. right. split; [exact Hne|]. right; left; eexists; reflexivity.
    + split; [|cbn; lia]. right. split; [exact Hne|]. left; reflexivity.
Qed.

End WithEnv.

End apply_facts.

(** X5.  What one call of the gateway [callHcnProxyAgent] costs, whatever
    the backend does: it always returns; it passes between 1 and 5 requests
    to the backend, every one of them the request it was given, and sleeps
    at most 15 seconds in all; when the first attempt succeeds that is the
    only attempt and there is no sleep; an error comes back only after all
    5 attempts and the full 15 seconds, and then without a response body. *)
Theorem callHcnProxyAgent_costs (env : Env) (req : HNSRequest) (w : World) :
  exists r evs,
    endpointpolicy.callHcnProxyAgent env req w = (Ret r, extend w evs) /\
    Forall (eq req) (requestsOf evs) /\
    (1 <= length (requestsOf evs) <= 5)%nat /\
    0 <= sleptOf evs <= 15 /\
    applyCalls evs = [] /\ deleteCalls evs = [] /\
    (Error_ (InvokeHNSRequestFunc env (trace w) req) = None -> evs = [EvInvokeHNS req]) /\
    (snd r <> None ->
     fst r = NoBody /\ length (requestsOf evs) = 5%nat /\ sleptOf evs = 15).
Proof.
  destruct (cost_facts.callHcnProxyAgent_cost env req w)
    as (r & evs & Hrun & Hgw & Hreq & Hn & Hs & Hfirst & Herr).
  destruct (redirector_facts.gateway_no_calls evs Hgw) as [Ha Hd].
  exists r, evs. auto 10.
Qed.

(** X6.  What one call of the locator [getEndpointByIP] costs, whatever the
    backend does: it always returns; every request it passes to the backend
    is the enumerate request, at most 25 of them; it sleeps at most 90
    seconds in all; it returns an endpoint whose address is the one asked
    for, or an [endpointPolicyError] classified [InvalidOperation] or
    [NotFound], never anything else; and [NotFound] comes back only after at
    least 5 requests and at least 15 seconds of sleep. *)
Theorem getEndpointByIP_costs (env : Env) (ip : string) (w : World) :
  exists r evs,
    endpointpolicy.getEndpointByIP env ip w = (Ret r, extend w evs) /\
    Forall (eq endpointpolicy.enumerateRequest) (requestsOf evs) /\
    (1 <= length (requestsOf evs) <= 25)%nat /\
    0 <= sleptOf evs <= 90 /\
    applyCalls evs = [] /\ deleteCalls evs = [] /\
    locatorResult ip r /\
    (r = (None, Some (notFoundError ip)) ->
     (5 <= length (requestsOf evs))%nat /\ 15 <= sleptOf evs).
Proof.
  destruct (cost_facts.getEndpointByIP_cost env ip w)
    as (r & evs & Hrun & Hgw & Hreq & Hn & Hs & Hres & Hnf).
  destruct (redirector_facts.gateway_no_calls evs Hgw) as [Ha Hd].
  exists r, evs. auto 10.
Qed.

(** X7.  What [ApplyEndpointRoutePolicy] and [DeleteEndpointRoutePolicy] ask
    of the backend.  Each returns after at most 30 requests and at most 105
    seconds of sleep.  The requests are enumerate requests followed by
    [Modify] requests; every [Modify] carries one and the same endpoint, the
    one found for the pod address with its policies rewritten (with the
    fresh entry appended for apply), so no other endpoint is ever modified;
    with an empty pod address nothing is asked at all. *)
Theorem exported_operations_requests
        (env : Env) (podIP metadataIP metadataPort nmiIP nmiPort : string) (w : World) :
  (exists r evs reqs1 reqs2 found,
     endpointpolicy.ApplyEndpointRoutePolicy env podIP metadataIP metadataPort nmiIP nmiPort w
     = (Ret r, extend w (EvApplyCall podIP :: evs)) /\
     requestsOf evs = reqs1 ++ reqs2 /\
     Forall (eq endpointpolicy.enumerateRequest) reqs1 /\
     Forall (eq (modifyRequest (upserted found metadataIP metadataPort nmiIP nmiPort))) reqs2 /\
     (reqs2 <> [] -> IPAddress found = podIP) /\
     (length (requestsOf evs) <= 30)%nat /\
     0 <= sleptOf evs <= 105 /\
     (podIP = "" -> evs = [])) /\
  (exists r evs reqs1 reqs2 found,
     endpointpolicy.DeleteEndpointRoutePolicy env podIP metadataIP w
     = (Ret r, extend w (EvDeleteCall podIP :: evs)) /\
     requestsOf evs = reqs1 ++ reqs2 /\
     Forall (eq endpointpolicy.enumerateRequest) reqs1 /\
     Forall (eq (modifyRequest (scanned found metadataIP))) reqs2 /\
     (reqs2 <> [] -> IPAddress found = podIP) /\
     (length (requestsOf evs) <= 30)%nat /\
     0 <= sleptOf evs <= 105 /\
     (podIP = "" -> evs = [])).
Proof.
  split.
  - destruct (decide (podIP = "")) as [->|Hne].
    + exists missingIP, [], [], [], noEndpoint. split; [reflexivity|].
      cbn. split; [reflexivity|]. split; [constructor|]. split; [constructor|].
      split; [intros H; contradiction|]. split; [lia|]. split; [lia|]. reflexivity.
    + destruct (apply_facts.ApplyEndpointRoutePolicy_anatomy env podIP metadataIP metadataPort
                  nmiIP nmiPort w Hne)
        as (r & evs1 & evs2 & Hrun & _ & Hreq1 & Hn1 & Hs1 & Hcases).
      destruct Hcases as [(found & err & Hip & _ & Hreq2 & Hn2 & Hs2 & _)
                         |[(inner & -> & _)|(-> & _)]].
      * exists r, (evs1 ++ evs2), (requestsOf evs1), (requestsOf evs2), found.
        split; [exact Hrun|]. rewrite cost_facts.requestsOf_app, cost_facts.sleptOf_app, length_app.
        split; [reflexivity|]. split; [exact Hreq1|]. split; [exact Hreq2|].
        split; [intros _; exact Hip|]. split; [lia|]. split; [lia|].
        intros H; contradiction.
      * exists r, (evs1 ++ []), (requestsOf evs1), [], noEndpoint.
        split; [exact Hrun|]. rewrite !app_nil_r.
        split; [reflexivity|]. split; [exact Hreq1|]. split; [constructor|].
        split; [intros H; contradiction|]. split; [lia|]. split; [lia|].
        intros H; contradiction.
      * exists r, (evs1 ++ []), (requestsOf evs1), [], noEndpoint.
        split; [exact Hrun|]. rewrite !app_nil_r.
        split; [reflexivity|]. split; [exact Hreq1|]. split; [constructor|].
        split; [intros H; contradiction|]. split; [lia|]. split; [lia|].
        intros H; contradiction.
  - destruct (decide (podIP = "")) as [->|Hne].
    + exists missingIP, [], [], [], noEndpoint. split; [reflexivity|].
      cbn. split; [reflexivity|]. split; [constructor|]. split; [constructor|].
      split; [intros H; contradiction|]. split; [lia|]. split; [lia|]. reflexivity.
    + destruct (apply_facts.DeleteEndpointRoutePolicy_anatomy env podIP metadataIP w Hne)
        as (r & evs1 & evs2 & Hrun & _ & Hreq1 & Hn1 & Hs1 & Hcases).
      destruct Hcases as [(found & err & Hip & _ & Hreq2 & Hn2 & Hs2 & _)
                         |[(inner & -> & _)|(-> & _)]].
      * exists r, (evs1 ++ evs2), (requestsOf evs1), (requestsOf evs2), found.
        split; [exact Hrun|]. rewrite cost_facts.requestsOf_app, cost_facts.sleptOf_app, length_app.
        split; [reflexivity|]. split; [exact Hreq1|]. split; [exact Hreq2|].
        split; [intros _; exact Hip|]. split; [lia|]. split; [lia|].
        intros H; contradiction.
      * exists r, (evs1 ++ []), (requestsOf evs1), [], noEndpoint.
        split; [exact Hrun|]. rewrite !app_nil_r.
        split; [reflexivity|]. split; [exact Hreq1|]. split; [constructor|].
        split; [intros H; contradiction|]. split; [lia|]. split; [lia|].
        intros H; contradiction.
      * exists r, (evs1 ++ []), (requestsOf evs1), [], noEndpoint.
        split; [exact Hrun|]. rewrite !app_nil_r.
        split; [reflexivity|]. split; [exact Hreq1|]. split; [constructor|].
        split; [intros H; contradiction|]. split; [lia|]. split; [lia|].
        intros H; contradiction.
Qed.

Module mock_facts.
Import endpointpolicy.

Lemma append_assoc (s1 s2 s3 : string) : (s1 +:+ s2) +:+ s3 = s1 +:+ (s2 +:+ s3).
Proof.
  induction s1 as [|a s1 IH]; [reflexivity|].
  change (String a ((s1 +:+ s2) +:+ s3) = String a (s1 +:+ (s2 +:+ s3))).
  rewrite IH. reflexivity.
Qed.

(** Every entry the scan leaves was in the array it was given. *)
Lemma Forall_appendCut (P : RawMessage -> Prop) arr len idx :
  Forall P arr -> Forall P (appendCut arr len idx).
Proof.
  intros H. unfold appendCut.
  repeat apply Forall_app_2; auto using Forall_take, Forall_drop.
Qed.

Lemma Forall_body (P : RawMessage -> Prop) metadataIP i st :
  Forall P (backing st) -> Forall P (backing (body metadataIP i st)).
Proof.
  intros H. unfold body. destruct (backing st !! i) as [p|]; [|exact H].
  destruct (json.Unmarshal p (proxyPolicy st)) as [pp [e|]]; [exact H|].
  destruct (String.eqb (IP pp) metadataIP); [|exact H].
  cbn. apply Forall_appendCut, H.
Qed.

Lemma Forall_loop (P : RawMessage -> Prop) metadataIP idxs :
  forall st, Forall P (backing st) -> Forall P (backing (loop metadataIP idxs st)).
Proof.
  induction idxs as [|i idxs IH]; intros st H; [exact H|].
  cbn. apply IH, Forall_body, H.
Qed.

Lemma Forall_updateEndpointPolicies (P : RawMessage -> Prop) policies metadataIP :
  Forall P policies -> Forall P (updateEndpointPolicies policies metadataIP).
Proof.
  intros H. unfold updateEndpointPolicies. cbv zeta.
  apply Forall_take, Forall_loop. exact H.
Qed.

Lemma isText_upserted endpoint metadataIP metadataPort nmiIP nmiPort :
  forallb isText (Policies endpoint) = true ->
  forallb isText (Policies (upserted endpoint metadataIP metadataPort nmiIP nmiPort)) = true.
Proof.
  intros H. apply forallb_forall. intros p Hin. cbn in Hin. unfold addedPolicies in Hin.
  apply in_app_or in Hin. destruct Hin as [Hin|[<-|[]]]; [|reflexivity].
  assert (Hall : Forall (fun p => isText p = true) (Policies endpoint)).
  { apply List.Forall_forall. intros q Hq. exact (proj1 (forallb_forall _ _) H q Hq). }
  apply (Forall_updateEndpointPolicies _ _ metadataIP) in Hall.
  exact (proj1 (List.Forall_forall _ _) Hall p Hin).
Qed.

Lemma isText_scanned endpoint metadataIP :
  forallb isText (Policies endpoint) = true ->
  forallb isText (Policies (scanned endpoint metadataIP)) = true.
Proof.
  intros H. apply forallb_forall. intros p Hin. cbn in Hin.
  assert (Hall : Forall (fun p => isText p = true) (Policies endpoint)).
  { apply List.Forall_forall. intros q Hq. exact (proj1 (forallb_forall _ _) H q Hq). }
  apply (Forall_updateEndpointPolicies _ _ metadataIP) in Hall.
  exact (proj1 (List.Forall_forall _ _) Hall p Hin).
Qed.

Section WithEnv.
Variable env : Env.

(** The gateway against a backend that fails [req] whatever happened
    before: the whole schedule, then the last attempt, then the error. *)
Lemma gateway_always_fails req e w :
  (forall tr, Error_ (InvokeHNSRequestFunc env tr req) = Some e) ->
  callHcnProxyAgent env req w
  = (Ret (NoBody, Some e), extend w (schedule req ++ [EvInvokeHNS req])).
Proof.
  intros H. unfold callHcnProxyAgent.
  do 4 (rewrite gateway_facts.callHcnProxyAgent_loop_step, H;
        change (_ >? maxRetryCount) with false; cbv iota; rewrite ?extend_extend).
  rewrite gateway_facts.callHcnProxyAgent_loop_step, H.
  change (_ >? maxRetryCount) with true. cbv iota. rewrite extend_extend. reflexivity.
Qed.

(** The gateway when the first attempt succeeds. *)
Lemma gateway_first_ok req w :
  Error_ (InvokeHNSRequestFunc env (trace w) req) = None ->
  callHcnProxyAgent env req w
  = (Ret (Response (InvokeHNSRequestFunc env (trace w) req), None), extend w [EvInvokeHNS req]).
Proof.
  intros H. unfold callHcnProxyAgent.
  rewrite gateway_facts.callHcnProxyAgent_loop_step, H. reflexivity.
Qed.

Lemma locator_enumerate_fails ip e w :
  (forall tr, Error_ (InvokeHNSRequestFunc env tr enumerateRequest) = Some e) ->
  getEndpointByIP env ip w
  = (Ret (None, Some (endpointPolicyError InvalidOperation e)),
     extend w (schedule enumerateRequest ++ [EvInvokeHNS enumerateRequest])).
Proof.
  intros H. unfold getEndpointByIP.
  rewrite (locator_facts.getEndpointByIP_loop_step env 4 ip 1 1 w _ _
             (gateway_always_fails enumerateRequest e w H)).
  reflexivity.
Qed.

Lemma locator_first_found ip endpoints found w :
  InvokeHNSRequestFunc env (trace w) enumerateRequest
  = mkHNSResponse None (EndpointsJSON endpoints) ->
  scan endpoints ip = Some found ->
  getEndpointByIP env ip w = (Ret (Some found, None), extend w [EvInvokeHNS enumerateRequest]).
Proof.
  intros H Hscan. unfold getEndpointByIP.
  assert (Hok : Error_ (InvokeHNSRequestFunc env (trace w) enumerateRequest) = None)
    by (rewrite H; reflexivity).
  rewrite (locator_facts.getEndpointByIP_loop_step env 4 ip 1 1 w _ _
             (gateway_first_ok enumerateRequest w Hok)).
  rewrite H. unfold classify. cbn. rewrite Hscan. reflexivity.
Qed.

End WithEnv.

End mock_facts.

Module scenario_facts.
Import endpointpolicy.

Section WithEnv.
Variable env : Env.

(** The two shapes of an editor call that reaches the backend: one
    [Modify] request for [endpoint], through the gateway. *)
Lemma editor_run (endpoint : HNSEndpoint) (w : World) (err : option error) (evs : list Event)
      (b : Body) :
  forallb isText (Policies endpoint) = true ->
  callHcnProxyAgent env (modifyRequest endpoint) w = (Ret (b, err), extend w evs) ->
  (match MarshalEndpoint endpoint with
   | (_, Some err) => mret (endpoint, Some err)
   | (jsonStr, None) =>
       '(_, err) ← callHcnProxyAgent env (mkHNSRequest EndpointV1 Modify jsonStr);
       mret (endpoint, err)
   end) w = (Ret (endpoint, err), extend w evs).
Proof.
  intros Htxt Hrun. unfold MarshalEndpoint. rewrite Htxt. rewrite run_bind.
  unfold modifyRequest in Hrun. rewrite Hrun. reflexivity.
Qed.

Lemma addEndpointPolicy_run endpoint metadataIP metadataPort nmiIP nmiPort w err evs b :
  forallb isText (Policies endpoint) = true ->
  callHcnProxyAgent env (modifyRequest (upserted endpoint metadataIP metadataPort nmiIP nmiPort)) w
  = (Ret (b, err), extend w evs) ->
  addEndpointPolicy env endpoint metadataIP metadataPort nmiIP nmiPort w
  = (Ret (upserted endpoint metadataIP metadataPort nmiIP nmiPort, err), extend w evs).
Proof.
  intros Htxt Hrun. rewrite cost_facts.addEndpointPolicy_unfold.
  apply (editor_run _ w err evs b); [|exact Hrun].
  apply mock_facts.isText_upserted, Htxt.
Qed.

Lemma deleteEndpointPolicy_run endpoint metadataIP w err evs b :
  forallb isText (Policies endpoint) = true ->
  callHcnProxyAgent env (modifyRequest (scanned endpoint metadataIP)) w
  = (Ret (b, err), extend w evs) ->
  deleteEndpointPolicy env endpoint metadataIP w
  = (Ret (scanned endpoint metadataIP, err), extend w evs).
Proof.
  intros Htxt Hrun. rewrite cost_facts.deleteEndpointPolicy_unfold.
  apply (editor_run _ w err evs b); [|exact Hrun].
  apply mock_facts.isText_scanned, Htxt.
Qed.

End WithEnv.

End scenario_facts.

(** X8.  The scan of [updateEndpointPolicies] never invents an entry: on
    every collection and for every address, each entry of the result is an
    entry of the collection that was passed in, so a property that holds of
    all entries passed in holds of all entries returned. *)
Theorem updateEndpointPolicies_keeps_only_given_entries
        (policies : list RawMessage) (metadataIP : string) :
  (forall p, In p (endpointpolicy.updateEndpointPolicies policies metadataIP) -> In p policies) /\
  (forall P : RawMessage -> Prop,
     Forall P policies -> Forall P (endpointpolicy.updateEndpointPolicies policies metadataIP)).
Proof.
  split.
  - intros p Hin.
    assert (H : Forall (fun q => In q policies)
                       (endpointpolicy.updateEndpointPolicies policies metadataIP)).
    { apply mock_facts.Forall_updateEndpointPolicies. apply List.Forall_forall. auto. }
    exact (proj1 (List.Forall_forall _ _) H p Hin).
  - intros P. apply mock_facts.Forall_updateEndpointPolicies.
Qed.

(** X9.  An endpoint that holds an entry that is not JSON text cannot be
    edited.  When the endpoint respects the invariant (self-contained
    entries, at most one for the address) and one of its entries is not JSON
    text, [addEndpointPolicy] and [deleteEndpointPolicy] return the error of
    [json.Marshal] without passing any request to the backend and without
    sleeping; the endpoint's [Policies] field has been rewritten all the
    same. *)
Theorem editor_marshal_failure
        (env : Env) (endpoint : HNSEndpoint) (bytes : string)
        (metadataIP metadataPort nmiIP nmiPort : string) (w : World) :
  Forall (selfContained metadataIP) (Policies endpoint) ->
  (countTarget metadataIP (Policies endpoint) <= 1)%nat ->
  In (Garbage bytes) (Policies endpoint) ->
  endpointpolicy.addEndpointPolicy env endpoint metadataIP metadataPort nmiIP nmiPort w
  = (Ret (mkHNSEndpoint (Id endpoint) (IPAddress endpoint)
            (spec_removeTarget (Policies endpoint) metadataIP
             ++ [freshEntry metadataIP metadataPort nmiIP nmiPort]),
          Some marshalerError), w) /\
  endpointpolicy.deleteEndpointPolicy env endpoint metadataIP w
  = (Ret (mkHNSEndpoint (Id endpoint) (IPAddress endpoint)
            (spec_removeTarget (Policies endpoint) metadataIP),
          Some marshalerError), w).
Proof.
  intros Hself Hone Hin.
  assert (Hkept : In (Garbage bytes) (spec_removeTarget (Policies endpoint) metadataIP)).
  { unfold spec_removeTarget. apply filter_In. split; [exact Hin|reflexivity]. }
  assert (Hscan := scan_refinement.updateEndpointPolicies_refines metadataIP (Policies endpoint)
                     Hself Hone).
  split.
  - rewrite cost_facts.addEndpointPolicy_unfold. unfold upserted, addedPolicies.
    rewrite Hscan. unfold endpointpolicy.MarshalEndpoint. cbn [Policies].
    replace (forallb endpointpolicy.isText _) with false; [reflexivity|].
    symmetry. apply not_true_is_false. intros Hall.
    pose proof (proj1 (forallb_forall _ _) Hall (Garbage bytes)
                  (in_or_app _ _ _ (or_introl Hkept))) as Habs.
    discriminate Habs.
  - rewrite cost_facts.deleteEndpointPolicy_unfold. unfold scanned.
    rewrite Hscan. unfold endpointpolicy.MarshalEndpoint. cbn [Policies].
    replace (forallb endpointpolicy.isText _) with false; [reflexivity|].
    symmetry. apply not_true_is_false. intros Hall.
    pose proof (proj1 (forallb_forall _ _) Hall (Garbage bytes) Hkept) as Habs.
    discriminate Habs.
Qed.

Lemma editor_marshal_failure_witness :
  endpointpolicy.addEndpointPolicy (envOf (backendWith []) [])
    (mkHNSEndpoint "ep-5" "10.0.0.5" [imdsEntry; Garbage "{"]) imds "80" "10.0.0.1" "8429" world0
  = (Ret (mkHNSEndpoint "ep-5" "10.0.0.5"
            (spec_removeTarget [imdsEntry; Garbage "{"] imds
             ++ [freshEntry imds "80" "10.0.0.1" "8429"]),
          Some marshalerError), world0) /\
  endpointpolicy.deleteEndpointPolicy (envOf (backendWith []) [])
    (mkHNSEndpoint "ep-5" "10.0.0.5" [imdsEntry; Garbage "{"]) imds world0
  = (Ret (mkHNSEndpoint "ep-5" "10.0.0.5" (spec_removeTarget [imdsEntry; Garbage "{"] imds),
          Some marshalerError), world0).
Proof.
  apply (editor_marshal_failure (envOf (backendWith []) [])
           (mkHNSEndpoint "ep-5" "10.0.0.5" [imdsEntry; Garbage "{"]) "{"
           imds "80" "10.0.0.1" "8429" world0).
  - repeat constructor; intros [ty ip port dest]; reflexivity.
  - vm_compute. lia.
  - right. left. reflexivity.
Defined.

(** X10.  How [ApplyEndpointRoutePolicy] and [DeleteEndpointRoutePolicy]
    classify what went wrong, for every backend.  Each returns one of: the
    error "Missing IP Address" with type [NotFound], exactly when the pod
    address is empty; no error with the empty type; an error with type
    [InvalidOperation] whose message is the locate message followed by the
    cause's, and which wraps the cause; or an error with type [UnKnown] from
    the editor, which wraps the cause for apply ([%w]) and does not for
    delete ([%v]).  So the type is empty exactly when the error is nil, and
    the [UnKnown] return that follows the type switch on the locator's error
    is never taken. *)
Theorem exported_operations_error_classes
        (env : Env) (podIP metadataIP metadataPort nmiIP nmiPort : string) (w : World) :
  (exists r w',
     endpointpolicy.ApplyEndpointRoutePolicy env podIP metadataIP metadataPort nmiIP nmiPort w
     = (Ret r, w') /\
     (fst r = None <-> snd r = "") /\
     ((podIP = "" /\ r = missingIP) \/
      (podIP <> "" /\ r = (None, "")) \/
      (podIP <> "" /\ exists cause e,
         r = (Some e, endpointpolicy.InvalidOperation) /\
         Error e = locateFailed podIP +:+ Error cause /\ Unwrap e = Some cause) \/
      (podIP <> "" /\ exists id cause e,
         r = (Some e, endpointpolicy.UnKnown) /\
         Error e = addFailed podIP id +:+ Error cause /\ Unwrap e = Some cause))) /\
  (exists r w',
     endpointpolicy.DeleteEndpointRoutePolicy env podIP metadataIP w = (Ret r, w') /\
     (fst r = None <-> snd r = "") /\
     ((podIP = "" /\ r = missingIP) \/
      (podIP <> "" /\ r = (None, "")) \/
      (podIP <> "" /\ exists cause e,
         r = (Some e, endpointpolicy.InvalidOperation) /\
         Error e = locateFailed podIP +:+ Error cause /\ Unwrap e = Some cause) \/
      (podIP <> "" /\ exists id cause e,
         r = (Some e, endpointpolicy.UnKnown) /\
         Error e = deleteFailed podIP id +:+ Error cause /\ Unwrap e = None))).
Proof.
  split.
  - destruct (decide (podIP = "")) as [->|Hne].
    + exists missingIP, (extend w [EvApplyCall ""]). split; [reflexivity|].
      split; [split; discriminate|]. left. auto.
    + destruct (apply_facts.ApplyEndpointRoutePolicy_anatomy env podIP metadataIP metadataPort
                  nmiIP nmiPort w Hne) as (r & evs1 & evs2 & Hrun & _ & _ & _ & _ & Hcases).
      exists r, (extend w (EvApplyCall podIP :: evs1 ++ evs2)). split; [exact Hrun|].
      destruct Hcases as [(found & [cause|] & _ & -> & _)|[(inner & _ & ->)|(_ & -> & _)]].
      * split; [split; discriminate|]. right. right. right. split; [exact Hne|].
        exists (Id found), cause, (Errorf_w (addFailed podIP (Id found)) cause). auto.
      * split; [split; reflexivity|]. right. left. auto.
      * split; [split; discriminate|]. right. right. left. split; [exact Hne|].
        exists inner, (Errorf_w (locateFailed podIP) inner). auto.
      * split; [split; reflexivity|]. right. left. auto.
  - destruct (decide (podIP = "")) as [->|Hne].
    + exists missingIP, (extend w [EvDeleteCall ""]). split; [reflexivity|].
      split; [split; discriminate|]. left. auto.
    + destruct (apply_facts.DeleteEndpointRoutePolicy_anatomy env podIP metadataIP w Hne)
        as (r & evs1 & evs2 & Hrun & _ & _ & _ & _ & Hcases).
      exists r, (extend w (EvDeleteCall podIP :: evs1 ++ evs2)). split; [exact Hrun|].
      destruct Hcases as [(found & [cause|] & _ & -> & _)|[(inner & _ & ->)|(_ & -> & _)]].
      * split; [split; discriminate|]. right. right. right. split; [exact Hne|].
        exists (Id found), cause, (Errorf_v (deleteFailed podIP (Id found)) cause). auto.
      * split; [split; reflexivity|]. right. left. auto.
      * split; [split; discriminate|]. right. right. left. split; [exact Hne|].
        exists inner, (Errorf_w (locateFailed podIP) inner). auto.
      * split; [split; reflexivity|]. right. left. auto.
Qed.

(** X11.  The scenario "Failed getEndpointByIP" of the repository's tests,
    for every backend that fails each enumerate request with the same error
    [cause]: with a non-empty pod address both operations return an error
    whose message is "Get endpoint for Pod IP - <podIP>. Error: " followed
    by the cause's message, with type [InvalidOperation]; the backend saw
    five enumerate requests with sleeps of 1, 2, 4 and 8 seconds between
    them, and no [Modify] request. *)
Theorem enumerate_failure_scenario
        (env : Env) (cause : error) (podIP metadataIP metadataPort nmiIP nmiPort : string)
        (w : World) :
  podIP <> "" ->
  (forall tr, Error_ (InvokeHNSRequestFunc env tr endpointpolicy.enumerateRequest) = Some cause) ->
  endpointpolicy.ApplyEndpointRoutePolicy env podIP metadataIP metadataPort nmiIP nmiPort w
  = (Ret (Some (Errorf_w (locateFailed podIP) cause), endpointpolicy.InvalidOperation),
     extend w (EvApplyCall podIP :: schedule endpointpolicy.enumerateRequest
               ++ [EvInvokeHNS endpointpolicy.enumerateRequest])) /\
  endpointpolicy.DeleteEndpointRoutePolicy env podIP metadataIP w
  = (Ret (Some (Errorf_w (locateFailed podIP) cause), endpointpolicy.InvalidOperation),
     extend w (EvDeleteCall podIP :: schedule endpointpolicy.enumerateRequest
               ++ [EvInvokeHNS endpointpolicy.enumerateRequest])) /\
  Error (Errorf_w (locateFailed podIP) cause)
  = "Get endpoint for Pod IP - " +:+ podIP +:+ ". Error: " +:+ Error cause.
Proof.
  intros Hne Hfail. split; [|split].
  - rewrite editor_facts.ApplyEndpointRoutePolicy_nonempty by exact Hne.
    rewrite (mock_facts.locator_enumerate_fails env podIP cause _ Hfail).
    rewrite extend_extend. reflexivity.
  - rewrite editor_facts.DeleteEndpointRoutePolicy_nonempty by exact Hne.
    rewrite (mock_facts.locator_enumerate_fails env podIP cause _ Hfail).
    rewrite extend_extend. reflexivity.
  - cbn. unfold locateFailed. rewrite !mock_facts.append_assoc. reflexivity.
Qed.

Lemma enumerate_failure_scenario_witness :
  endpointpolicy.ApplyEndpointRoutePolicy (envOf backendDown []) "127.10.0.152"
    "169.254.169.254" "80" "127.10.0.23" "8329" world0
  = (Ret (Some (Errorf_w (locateFailed "127.10.0.152") (errorString "hcn agent unreachable")),
          endpointpolicy.InvalidOperation),
     extend world0 (EvApplyCall "127.10.0.152" :: schedule endpointpolicy.enumerateRequest
                    ++ [EvInvokeHNS endpointpolicy.enumerateRequest])) /\
  endpointpolicy.DeleteEndpointRoutePolicy (envOf backendDown []) "127.10.0.152"
    "169.254.169.254" world0
  = (Ret (Some (Errorf_w (locateFailed "127.10.0.152") (errorString "hcn agent unreachable")),
          endpointpolicy.InvalidOperation),
     extend world0 (EvDeleteCall "127.10.0.152" :: schedule endpointpolicy.enumerateRequest
                    ++ [EvInvokeHNS endpointpolicy.enumerateRequest])) /\
  Error (Errorf_w (locateFailed "127.10.0.152") (errorString "hcn agent unreachable"))
  = "Get endpoint for Pod IP - " +:+ "127.10.0.152" +:+ ". Error: "
    +:+ Error (errorString "hcn agent unreachable").
Proof.
  apply (enumerate_failure_scenario (envOf backendDown []) (errorString "hcn agent unreachable")
           "127.10.0.152" "169.254.169.254" "80" "127.10.0.23" "8329" world0).
  - discriminate.
  - intros tr. reflexivity.
Defined.

(** X12.  The scenario "Failed addEndpointPolicy" of the repository's
    tests, for every backend that answers each enumerate request with the
    same list and fails each [Modify] request with the same error [cause]:
    when the first listed endpoint with the pod address is [found] and its
    entries are JSON text, apply returns "Could not add policy for ip
    [<podIP>] to endpoint - <id>. Error: <cause>" and delete returns
    "Could't delete policy for ip [<podIP>] to endpoint - <id>. Error:
    <cause>", both with type [UnKnown]; the backend saw one enumerate
    request and then five [Modify] requests for that endpoint, with sleeps of
    1, 2, 4 and 8 seconds. *)
Theorem modify_failure_scenario
        (env : Env) (cause : error) (endpoints : list HNSEndpoint) (found : HNSEndpoint)
        (podIP metadataIP metadataPort nmiIP nmiPort : string) (w : World) :
  podIP <> "" ->
  (forall tr, InvokeHNSRequestFunc env tr endpointpolicy.enumerateRequest
              = mkHNSResponse None (EndpointsJSON endpoints)) ->
  (forall tr req, Operation req = Modify ->
                  Error_ (InvokeHNSRequestFunc env tr req) = Some cause) ->
  endpointpolicy.scan endpoints podIP = Some found ->
  forallb endpointpolicy.isText (Policies found) = true ->
  let add := modifyRequest (upserted found metadataIP metadataPort nmiIP nmiPort) in
  let del := modifyRequest (scanned found metadataIP) in
  endpointpolicy.ApplyEndpointRoutePolicy env podIP metadataIP metadataPort nmiIP nmiPort w
  = (Ret (Some (Errorf_w (addFailed podIP (Id found)) cause), endpointpolicy.UnKnown),
     extend w (EvApplyCall podIP :: EvInvokeHNS endpointpolicy.enumerateRequest
               :: schedule add ++ [EvInvokeHNS add])) /\
  endpointpolicy.DeleteEndpointRoutePolicy env podIP metadataIP w
  = (Ret (Some (Errorf_v (deleteFailed podIP (Id found)) cause), endpointpolicy.UnKnown),
     extend w (EvDeleteCall podIP :: EvInvokeHNS endpointpolicy.enumerateRequest
               :: schedule del ++ [EvInvokeHNS del])) /\
  Error (Errorf_w (addFailed podIP (Id found)) cause)
  = "Could not add policy for ip [" +:+ podIP +:+ "] to endpoint - " +:+ Id found
    +:+ ". Error: " +:+ Error cause /\
  Error (Errorf_v (deleteFailed podIP (Id found)) cause)
  = "Could't delete policy for ip [" +:+ podIP +:+ "] to endpoint - " +:+ Id found
    +:+ ". Error: " +:+ Error cause.
Proof.
  intros Hne Henum Hmod Hscan Htxt add del. split; [|split; [|split]].
  - rewrite editor_facts.ApplyEndpointRoutePolicy_nonempty by exact Hne.
    rewrite (mock_facts.locator_first_found env podIP endpoints found _ (Henum _) Hscan).
    rewrite extend_extend.
    rewrite (scenario_facts.addEndpointPolicy_run env found metadataIP metadataPort nmiIP nmiPort
               _ (Some cause) (schedule add ++ [EvInvokeHNS add]) NoBody Htxt).
    + rewrite extend_extend. reflexivity.
    + apply mock_facts.gateway_always_fails. intros tr. apply Hmod. reflexivity.
  - rewrite editor_facts.DeleteEndpointRoutePolicy_nonempty by exact Hne.
    rewrite (mock_facts.locator_first_found env podIP endpoints found _ (Henum _) Hscan).
    rewrite extend_extend.
    rewrite (scenario_facts.deleteEndpointPolicy_run env found metadataIP
               _ (Some cause) (schedule del ++ [EvInvokeHNS del]) NoBody Htxt).
    + rewrite extend_extend. reflexivity.
    + apply mock_facts.gateway_always_fails. intros tr. apply Hmod. reflexivity.
  - cbn. unfold addFailed. rewrite !mock_facts.append_assoc. reflexivity.
  - cbn. unfold deleteFailed. rewrite !mock_facts.append_assoc. reflexivity.
Qed.

Lemma modify_failure_scenario_witness :
  let found := mkHNSEndpoint "testid" "127.10.0.152" [] in
  let env := envOf (backendModifyFails [found]) [] in
  let add := modifyRequest (upserted found "169.254.169.254" "80" "127.10.0.23" "8329") in
  let del := modifyRequest (scanned found "169.254.169.254") in
  endpointpolicy.ApplyEndpointRoutePolicy env "127.10.0.152" "169.254.169.254" "80"
    "127.10.0.23" "8329" world0
  = (Ret (Some (Errorf_w (addFailed "127.10.0.152" (Id found)) (errorString "boom")),
          endpointpolicy.UnKnown),
     extend world0 (EvApplyCall "127.10.0.152" :: EvInvokeHNS endpointpolicy.enumerateRequest
                    :: schedule add ++ [EvInvokeHNS add])) /\
  endpointpolicy.DeleteEndpointRoutePolicy env "127.10.0.152" "169.254.169.254" world0
  = (Ret (Some (Errorf_v (deleteFailed "127.10.0.152" (Id found)) (errorString "boom")),
          endpointpolicy.UnKnown),
     extend world0 (EvDeleteCall "127.10.0.152" :: EvInvokeHNS endpointpolicy.enumerateRequest
                    :: schedule del ++ [EvInvokeHNS del])) /\
  Error (Errorf_w (addFailed "127.10.0.152" (Id found)) (errorString "boom"))
  = "Could not add policy for ip [" +:+ "127.10.0.152" +:+ "] to endpoint - " +:+ Id found
    +:+ ". Error: " +:+ Error (errorString "boom") /\
  Error (Errorf_v (deleteFailed "127.10.0.152" (Id found)) (errorString "boom"))
  = "Could't delete policy for ip [" +:+ "127.10.0.152" +:+ "] to endpoint - " +:+ Id found
    +:+ ". Error: " +:+ Error (errorString "boom").
Proof.
  intros found env.
  apply (modify_failure_scenario env (errorString "boom") [found] found
           "127.10.0.152" "169.254.169.254" "80" "127.10.0.23" "8329" world0).
  - discriminate.
  - intros tr. reflexivity.
  - intros tr [entity op request] Hop. cbn in Hop. subst op. reflexivity.
  - reflexivity.
  - reflexivity.
Defined.

(** X13.  The scenario "SuccessApplyPolicy" of the repository's tests, for
    every backend that accepts each request and answers with the same list:
    when the first listed endpoint with the pod address is [found] and its
    entries are JSON text, both operations return no error and the empty
    type after exactly two requests and no sleep: one enumerate request,
    then one [Modify] request that carries [found] with its policies
    rewritten. *)
Theorem success_scenario
        (env : Env) (endpoints : list HNSEndpoint) (found : HNSEndpoint)
        (podIP metadataIP metadataPort nmiIP nmiPort : string) (w : World) :
  podIP <> "" ->
  (forall tr req, InvokeHNSRequestFunc env tr req = mkHNSResponse None (EndpointsJSON endpoints)) ->
  endpointpolicy.scan endpoints podIP = Some found ->
  forallb endpointpolicy.isText (Policies found) = true ->
  endpointpolicy.ApplyEndpointRoutePolicy env podIP metadataIP metadataPort nmiIP nmiPort w
  = (Ret (None, ""),
     extend w [EvApplyCall podIP; EvInvokeHNS endpointpolicy.enumerateRequest;
               EvInvokeHNS (modifyRequest
                              (upserted found metadataIP metadataPort nmiIP nmiPort))]) /\
  endpointpolicy.DeleteEndpointRoutePolicy env podIP metadataIP w
  = (Ret (None, ""),
     extend w [EvDeleteCall podIP; EvInvokeHNS endpointpolicy.enumerateRequest;
               EvInvokeHNS (modifyRequest (scanned found metadataIP))]).
Proof.
  intros Hne Hok Hscan Htxt. split.
  - rewrite editor_facts.ApplyEndpointRoutePolicy_nonempty by exact Hne.
    rewrite (mock_facts.locator_first_found env podIP endpoints found _ (Hok _ _) Hscan).
    rewrite extend_extend.
    rewrite (scenario_facts.addEndpointPolicy_run env found metadataIP metadataPort nmiIP nmiPort
               _ None [EvInvokeHNS (modifyRequest
                                      (upserted found metadataIP metadataPort nmiIP nmiPort))]
               (EndpointsJSON endpoints) Htxt).
    + rewrite extend_extend. reflexivity.
    + rewrite mock_facts.gateway_first_ok by (rewrite Hok; reflexivity).
      rewrite Hok. reflexivity.
  - rewrite editor_facts.DeleteEndpointRoutePolicy_nonempty by exact Hne.
    rewrite (mock_facts.locator_first_found env podIP endpoints found _ (Hok _ _) Hscan).
    rewrite extend_extend.
    rewrite (scenario_facts.deleteEndpointPolicy_run env found metadataIP
               _ None [EvInvokeHNS (modifyRequest (scanned found metadataIP))]
               (EndpointsJSON endpoints) Htxt).
    + rewrite extend_extend. reflexivity.
    + rewrite mock_facts.gateway_first_ok by (rewrite Hok; reflexivity).
      rewrite Hok. reflexivity.
Qed.

Lemma success_scenario_witness :
  let found := mkHNSEndpoint "testid" "127.10.0.153" [] in
  let env := envOf (backendWith [found]) [] in
  endpointpolicy.ApplyEndpointRoutePolicy env "127.10.0.153" "169.254.169.254" "80"
    "127.10.0.23" "8329" world0
  = (Ret (None, ""),
     extend world0 [EvApplyCall "127.10.0.153"; EvInvokeHNS endpointpolicy.enumerateRequest;
                    EvInvokeHNS (modifyRequest
                                   (upserted found "169.254.169.254" "80" "127.10.0.23" "8329"))]) /\
  endpointpolicy.DeleteEndpointRoutePolicy env "127.10.0.153" "169.254.169.254" world0
  = (Ret (None, ""),
     extend world0 [EvDeleteCall "127.10.0.153"; EvInvokeHNS endpointpolicy.enumerateRequest;
                    EvInvokeHNS (modifyRequest (scanned found "169.254.169.254"))]).
Proof.
  intros found env.
  apply (success_scenario env [found] found
           "127.10.0.153" "169.254.169.254" "80" "127.10.0.23" "8329" world0).
  - discriminate.
  - intros tr req. reflexivity.
  - reflexivity.
  - reflexivity.
Defined.

Module sync_facts.
Import endpointpolicy redirector_windows.

Lemma countReports_app a b : countReports (a ++ b) = countReports a ++ countReports b.
Proof. apply omap_app. Qed.

Lemma failedReports_app a b : failedReports (a ++ b) = failedReports a ++ failedReports b.
Proof. apply omap_app. Qed.

Lemma reportNodes_app a b : reportNodes (a ++ b) = reportNodes a ++ reportNodes b.
Proof. apply omap_app. Qed.

Lemma listings_app a b : listings (a ++ b) = (listings a + listings b)%nat.
Proof. unfold listings. rewrite List.filter_app, length_app. reflexivity. Qed.

Lemma gateway_no_reports evs :
  Forall (fun e => isGateway e = true) evs ->
  countReports evs = [] /\ failedReports evs = [] /\ reportNodes evs = [] /\
  listings evs = 0%nat.
Proof.
  induction 1 as [|e evs He _ IH]; [repeat split; reflexivity|].
  destruct e; try discriminate He; exact IH.
Qed.

Lemma metricsOf_reports err server ip :
  countReports (metricsOf err server ip) = [ip] /\
  failedReports (metricsOf err server ip) = match err with Some _ => [ip] | None => [] end /\
  reportNodes (metricsOf err server ip)
  = match err with Some _ => [NodeName server] | None => [] end ++ [NodeName server] /\
  listings (metricsOf err server ip) = 0%nat /\
  sleptOf (metricsOf err server ip) = 0.
Proof. destruct err; repeat split; reflexivity. Qed.

Lemma accounted_operation server ip (mark : Event) evs (r : option error * string) :
  isGateway mark = false -> mark <> EvListPods ->
  (forall podIP nodeName m, mark <> EvReport podIP nodeName m) ->
  Forall (fun e => isGateway e = true) evs ->
  (ip = "" /\ evs = [] /\ r = missingIP) \/ (ip <> "" /\ editResult r) ->
  accounted server ip ((mark :: evs) ++ metricsOf (fst r) server ip).
Proof.
  intros _ Hlist Hrep Hevs Hres.
  destruct (gateway_no_reports evs Hevs) as (Hc & Hf & Hn & Hl).
  destruct (metricsOf_reports (fst r) server ip) as (Mc & Mf & Mn & Ml & _).
  assert (Hmark : countReports [mark] = [] /\ failedReports [mark] = [] /\
                  reportNodes [mark] = [] /\ listings [mark] = 0%nat).
  { destruct mark; try (repeat split; reflexivity).
    - contradiction.
    - exfalso. eapply Hrep. reflexivity. }
  destruct Hmark as (Kc & Kf & Kn & Kl).
  change (mark :: evs) with ([mark] ++ evs).
  unfold accounted.
  rewrite !countReports_app, !failedReports_app, !reportNodes_app, !listings_app.
  rewrite Hc, Hf, Hn, Kc, Kf, Kn, Mc, Mf, Mn, Hl, Kl, Ml. cbn [app].
  split; [reflexivity|]. split; [destruct (fst r); auto|].
  split; [|split; [destruct (fst r); repeat constructor|reflexivity]].
  intros Hip. destruct Hres as [(_ & _ & ->)|(Hne & _)]; [reflexivity|contradiction].
Qed.

Section WithEnv.
Variable env : Env.

(** One apply with its metrics, as the two loops of the file run it. *)
Lemma apply_and_report server ip w :
  exists evs,
    ('(err, _) ← ApplyEndpointRoutePolicy env ip (MetadataIP server)
                   (MetadataPort server) (HostIP server) (NMIPort server);
     uploadIPRoutePolicyMetrics err server ip) w = (Ret tt, extend w evs) /\
    applyCalls evs = [ip] /\ deleteCalls evs = [] /\ accounted server ip evs /\
    0 <= sleptOf evs <= 105.
Proof.
  rewrite run_bind.
  destruct (apply_facts.ApplyEndpointRoutePolicy_bounded env ip
              (MetadataIP server) (MetadataPort server) (HostIP server) (NMIPort server) w)
    as ([err t] & evs & Hrun & Hevs & Hres & _ & Hs).
  rewrite Hrun, redirector_facts.uploadIPRoutePolicyMetrics_run, extend_extend.
  exists ((EvApplyCall ip :: evs) ++ metricsOf err server ip). split; [reflexivity|].
  destruct (redirector_facts.gateway_no_calls evs Hevs) as [Ha0 Hd0].
  destruct (redirector_facts.metrics_no_calls err server ip) as [Ha1 Hd1].
  rewrite redirector_facts.applyCalls_app, redirector_facts.deleteCalls_app, Ha1, Hd1.
  change (applyCalls (EvApplyCall ip :: evs)) with (ip :: applyCalls evs).
  change (deleteCalls (EvApplyCall ip :: evs)) with (deleteCalls evs).
  rewrite Ha0, Hd0. split; [reflexivity|]. split; [reflexivity|]. split.
  - apply (accounted_operation server ip (EvApplyCall ip) evs (err, t));
      [reflexivity|discriminate|discriminate|exact Hevs|exact Hres].
  - rewrite cost_facts.sleptOf_app.
    destruct (metricsOf_reports err server ip) as (_ & _ & _ & _ & Hm).
    rewrite Hm. change (sleptOf (EvApplyCall ip :: evs)) with (sleptOf evs). lia.
Qed.

(** One delete with its metrics, as the teardown loop runs it. *)
Lemma delete_and_report server ip w :
  exists evs,
    ('(err, _) ← DeleteEndpointRoutePolicy env ip (MetadataIP server);
     uploadIPRoutePolicyMetrics err server ip) w = (Ret tt, extend w evs) /\
    deleteCalls evs = [ip] /\ applyCalls evs = [] /\ accounted server ip evs /\
    0 <= sleptOf evs <= 105.
Proof.
  rewrite run_bind.
  destruct (apply_facts.DeleteEndpointRoutePolicy_bounded env ip (MetadataIP server) w)
    as ([err t] & evs & Hrun & Hevs & Hres & _ & Hs).
  rewrite Hrun, redirector_facts.uploadIPRoutePolicyMetrics_run, extend_extend.
  exists ((EvDeleteCall ip :: evs) ++ metricsOf err server ip). split; [reflexivity|].
  destruct (redirector_facts.gateway_no_calls evs Hevs) as [Ha0 Hd0].
  destruct (redirector_facts.metrics_no_calls err server ip) as [Ha1 Hd1].
  rewrite redirector_facts.applyCalls_app, redirector_facts.deleteCalls_app, Ha1, Hd1.
  change (deleteCalls (EvDeleteCall ip :: evs)) with (ip :: deleteCalls evs).
  change (applyCalls (EvDeleteCall ip :: evs)) with (applyCalls evs).
  rewrite Ha0, Hd0. split; [reflexivity|]. split; [reflexivity|]. split.
  - apply (accounted_operation server ip (EvDeleteCall ip) evs (err, t));
      [reflexivity|discriminate|discriminate|exact Hevs|exact Hres].
  - rewrite cost_facts.sleptOf_app.
    destruct (metricsOf_reports err server ip) as (_ & _ & _ & _ & Hm).
    rewrite Hm. change (sleptOf (EvDeleteCall ip :: evs)) with (sleptOf evs). lia.
Qed.

End WithEnv.

(** Accounting composes along a loop. *)
Lemma accountedAll_nil server : accountedAll server [] [].
Proof. repeat split; constructor. Qed.

Lemma accountedAll_cons server ip ips evs rest :
  accounted server ip evs -> accountedAll server ips rest ->
  accountedAll server (ip :: ips) (evs ++ rest).
Proof.
  intros (Hc & Hf & He & Hn & Hl) (Rc & Rf & Re & Rn & Rl). unfold accountedAll.
  rewrite countReports_app, failedReports_app, reportNodes_app, listings_app, Hc, Rc, Hl, Rl.
  split; [reflexivity|]. split; [|split; [|split; [apply Forall_app; auto|reflexivity]]].
  - destruct Hf as [->| ->]; cbn [app]; [apply sublist_skip|apply sublist_cons]; exact Rf.
  - rewrite List.filter_app, Re. cbn [List.filter].
    destruct (String.eqb "" ip) eqn:E.
    + apply String.eqb_eq in E. subst ip. rewrite (He eq_refl). reflexivity.
    + destruct Hf as [->| ->]; cbn [List.filter app]; [rewrite E|]; reflexivity.
Qed.

Section Loops.
Variable env : Env.
Variable server : Server.

Lemma apply_loop_accounted (pods : list Pod) :
  forall w,
    exists mid,
      forRange pods (fun podItem =>
        if listedPodInScope server podItem then
          '(err, _) ← ApplyEndpointRoutePolicy env (Status_PodIP podItem) (MetadataIP server)
                        (MetadataPort server) (HostIP server) (NMIPort server);
          uploadIPRoutePolicyMetrics err server (Status_PodIP podItem)
        else mret tt) w = (Ret tt, extend w mid) /\
      let ips := map Status_PodIP (List.filter (listedPodInScope server) pods) in
      applyCalls mid = ips /\ deleteCalls mid = [] /\ accountedAll server ips mid /\
      0 <= sleptOf mid <= 105 * Z.of_nat (length ips).
Proof.
  induction pods as [|pod pods IH]; intros w.
  - exists []. rewrite extend_nil. cbn. split; [reflexivity|].
    split; [reflexivity|]. split; [reflexivity|]. split; [apply accountedAll_nil|lia].
  - cbn [forRange List.filter]. rewrite run_bind.
    destruct (listedPodInScope server pod) eqn:Hin.
    + destruct (apply_and_report env server (Status_PodIP pod) w)
        as (evs & Hrun & Ha & Hd & Hacc & Hs).
      rewrite Hrun.
      destruct (IH (extend w evs)) as (mid & Hloop & Ha' & Hd' & Hacc' & Hs').
      rewrite Hloop, extend_extend. exists (evs ++ mid). split; [reflexivity|].
      cbv zeta in *. cbn [map length].
      rewrite redirector_facts.applyCalls_app, redirector_facts.deleteCalls_app,
        cost_facts.sleptOf_app, Ha, Hd, Ha', Hd'.
      split; [reflexivity|]. split; [reflexivity|].
      split; [apply accountedAll_cons; assumption|lia].
    + unfold_M. apply IH.
Qed.

Lemma delete_loop_accounted (pods : list Pod) :
  forall w,
    exists mid,
      forRange pods (fun podItem =>
        if String.eqb (Spec_NodeName podItem) (NodeName server) then
          '(err, _) ← DeleteEndpointRoutePolicy env (Status_PodIP podItem) (MetadataIP server);
          uploadIPRoutePolicyMetrics err server (Status_PodIP podItem)
        else mret tt) w = (Ret tt, extend w mid) /\
      let ips := map Status_PodIP (List.filter (onThisNode server) pods) in
      deleteCalls mid = ips /\ applyCalls mid = [] /\ accountedAll server ips mid /\
      0 <= sleptOf mid <= 105 * Z.of_nat (length ips).
Proof.
  induction pods as [|pod pods IH]; intros w.
  - exists []. rewrite extend_nil. cbn. split; [reflexivity|].
    split; [reflexivity|]. split; [reflexivity|]. split; [apply accountedAll_nil|lia].
  - cbn [forRange List.filter]. rewrite run_bind. cbn beta.
    destruct (onThisNode server pod) eqn:Hin; pose proof Hin as Hin';
      unfold onThisNode in Hin'; rewrite Hin'.
    + destruct (delete_and_report env server (Status_PodIP pod) w)
        as (evs & Hrun & Hd & Ha & Hacc & Hs).
      rewrite Hrun.
      destruct (IH (extend w evs)) as (mid & Hloop & Hd' & Ha' & Hacc' & Hs').
      rewrite Hloop, extend_extend. exists (evs ++ mid). split; [reflexivity|].
      cbv zeta in *. cbn [map length].
      rewrite redirector_facts.applyCalls_app, redirector_facts.deleteCalls_app,
        cost_facts.sleptOf_app, Ha, Hd, Ha', Hd'.
      split; [reflexivity|]. split; [reflexivity|].
      split; [apply accountedAll_cons; assumption|lia].
    + unfold_M. apply IH.
Qed.

(** Full reconciliation, with its accounting and its cost. *)
Lemma reconcile_accounted w :
  exists mid,
    ApplyRoutePolicyForExistingPods env server w = (Ret tt, extend w (EvListPods :: mid)) /\
    let ips := map Status_PodIP
                 (List.filter (listedPodInScope server) (fst (ListPods env (trace w)))) in
    applyCalls mid = ips /\ deleteCalls mid = [] /\ accountedAll server ips mid /\
    0 <= sleptOf mid <= 105 * Z.of_nat (length ips).
Proof.
  unfold ApplyRoutePolicyForExistingPods.
  rewrite run_bind, redirector_facts.PodClient_ListPods_run.
  destruct (ListPods env (trace w)) as [pods err]. cbn [fst].
  destruct (apply_loop_accounted pods (extend w [EvListPods])) as (mid & Hrun & Hrest).
  exists mid. rewrite Hrun, extend_extend. split; [reflexivity|exact Hrest].
Qed.

(** Teardown, with its accounting and its cost. *)
Lemma teardown_accounted w :
  exists mid,
    DeleteRoutePolicyForExistingPods env server w
    = (Exited (match snd (ListPods env (trace w)) with Some _ => 1 | None => 0 end),
       extend w (EvListPods :: mid ++ [EvSleep 10])) /\
    let ips := map Status_PodIP (List.filter (onThisNode server) (fst (ListPods env (trace w)))) in
    deleteCalls mid = ips /\ applyCalls mid = [] /\ accountedAll server ips mid /\
    0 <= sleptOf mid <= 105 * Z.of_nat (length ips).
Proof.
  unfold DeleteRoutePolicyForExistingPods.
  rewrite run_bind, redirector_facts.PodClient_ListPods_run.
  destruct (ListPods env (trace w)) as [pods err]. cbn [fst snd].
  destruct (delete_loop_accounted pods (extend w [EvListPods])) as (mid & Hrun & Hrest).
  exists mid. rewrite run_bind, Hrun. unfold_M. unfold os_Exit.
  rewrite !extend_extend. split; [reflexivity|exact Hrest].
Qed.

End Loops.

End sync_facts.

Module event_facts.
Import endpointpolicy redirector_windows.

Lemma forRange_app {A} (xs ys : list A) (body : A -> M unit) (w : World) :
  forRange (xs ++ ys) body w =
  match forRange xs body w with
  | (Ret _, w') => forRange ys body w'
  | (Exited c, w') => (Exited c, w')
  | (Panic, w') => (Panic, w')
  | (OutOfFuel, w') => (OutOfFuel, w')
  end.
Proof.
  revert w. induction xs as [|x xs IH]; intros w; [reflexivity|].
  cbn [app forRange]. rewrite !run_bind.
  destruct (body x w) as [[[]|c| |] w']; try reflexivity. apply IH.
Qed.

Lemma scope_applicable server (pods : list Pod) :
  Forall (applicable server) (map Status_PodIP (List.filter (listedPodInScope server) pods)).
Proof.
  apply List.Forall_forall. intros ip Hin.
  apply in_map_iff in Hin as (pod & <- & Hin).
  apply filter_In in Hin as [_ Hsc].
  apply redirector_facts.listedPodInScope_spec in Hsc as (_ & H1 & H2). split; assumption.
Qed.

Section WithEnv.
Variable env : Env.
Variable server : Server.

(** One pod event: it returns; it issues no remove call and lists the pods
    at most once; every apply call is for an applicable address. *)
Lemma pod_event_run pod w :
  exists evs,
    Sync_select env server (PodObjChannel pod) w = (Ret tt, extend w evs) /\
    deleteCalls evs = [] /\
    Forall (applicable server) (applyCalls evs) /\
    (listings evs <= 1)%nat /\
    (~ inScope server pod -> evs = []).
Proof.
  unfold Sync_select. destruct (eventPodInScope server pod) eqn:Hsc.
  - apply redirector_facts.eventPodInScope_spec in Hsc. destruct Hsc as (Hnode & Hip & Hhost).
    rewrite run_bind.
    destruct (apply_facts.ApplyEndpointRoutePolicy_bounded env (Status_PodIP pod)
                (MetadataIP server) (MetadataPort server) (HostIP server) (NMIPort server) w)
      as ([err t] & evs & Hrun & Hevs & _).
    rewrite Hrun, redirector_facts.afterApply_run.
    destruct (redirector_facts.gateway_no_calls evs Hevs) as [Ha0 Hd0].
    destruct (sync_facts.gateway_no_reports evs Hevs) as (_ & _ & _ & Hl0).
    destruct (redirector_facts.metrics_no_calls err server (Status_PodIP pod)) as [Ha1 Hd1].
    destruct (sync_facts.metricsOf_reports err server (Status_PodIP pod))
      as (_ & _ & _ & Hl1 & _).
    assert (Hplain :
      deleteCalls ((EvApplyCall (Status_PodIP pod) :: evs)
                   ++ metricsOf err server (Status_PodIP pod)) = [] /\
      applyCalls ((EvApplyCall (Status_PodIP pod) :: evs)
                  ++ metricsOf err server (Status_PodIP pod)) = [Status_PodIP pod] /\
      listings ((EvApplyCall (Status_PodIP pod) :: evs)
                ++ metricsOf err server (Status_PodIP pod)) = 0%nat).
    { rewrite redirector_facts.deleteCalls_app, redirector_facts.applyCalls_app,
        sync_facts.listings_app, Ha1, Hd1, Hl1.
      change (deleteCalls (EvApplyCall (Status_PodIP pod) :: evs)) with (deleteCalls evs).
      change (applyCalls (EvApplyCall (Status_PodIP pod) :: evs))
        with (Status_PodIP pod :: applyCalls evs).
      change (listings (EvApplyCall (Status_PodIP pod) :: evs)) with (listings evs).
      rewrite Ha0, Hd0, Hl0. auto. }
    destruct Hplain as (Pd & Pa & Pl).
    assert (Hself : applicable server (Status_PodIP pod)) by (split; assumption).
    assert (Hquiet : exists evs0,
      (Ret tt, extend (extend w (EvApplyCall (Status_PodIP pod) :: evs))
                      (metricsOf err server (Status_PodIP pod)))
      = (Ret tt, extend w evs0) /\
      deleteCalls evs0 = [] /\ Forall (applicable server) (applyCalls evs0) /\
      (listings evs0 <= 1)%nat /\ (~ inScope server pod -> evs0 = [])).
    { eexists. rewrite extend_extend. split; [reflexivity|]. rewrite Pd, Pa, Pl.
      split; [reflexivity|]. split; [repeat constructor; assumption|]. split; [lia|].
      intros Hout. exfalso. apply Hout. repeat split; assumption. }
    destruct err as [e|]; [|exact Hquiet].
    destruct (negb (String.eqb t NotFound)); [|exact Hquiet].
    destruct (sync_facts.reconcile_accounted env server
                (extend (extend w (EvApplyCall (Status_PodIP pod) :: evs))
                        (metricsOf (Some e) server (Status_PodIP pod) ++ [EvSleep 10])))
      as (mid & Hheal & Ha & Hd & (_ & _ & _ & _ & Hl) & _).
    rewrite Hheal, !extend_extend.
    exists (((EvApplyCall (Status_PodIP pod) :: evs)
             ++ metricsOf (Some e) server (Status_PodIP pod))
            ++ ([EvSleep 10] ++ EvListPods :: mid)).
    split; [rewrite <- !app_assoc; reflexivity|].
    cbv zeta in Ha.
    rewrite redirector_facts.deleteCalls_app, redirector_facts.applyCalls_app,
      sync_facts.listings_app, Pd, Pa, Pl.
    change (deleteCalls ([EvSleep 10] ++ EvListPods :: mid)) with (deleteCalls mid).
    change (applyCalls ([EvSleep 10] ++ EvListPods :: mid)) with (applyCalls mid).
    change (listings ([EvSleep 10] ++ EvListPods :: mid)) with (S (listings mid)).
    rewrite Hd, Ha, Hl.
    split; [reflexivity|]. split; [|split; [lia|]].
    + constructor; [exact Hself|apply scope_applicable].
    + intros Hout. exfalso. apply Hout. repeat split; assumption.
  - exists []. rewrite extend_nil. split; [reflexivity|]. split; [reflexivity|].
    split; [constructor|]. split; [cbn; lia|]. reflexivity.
Qed.

(** A run of pod events. *)
Lemma pod_events_run (pods : list Pod) :
  forall w,
    exists evs,
      forRange (map PodObjChannel pods) (Sync_select env server) w = (Ret tt, extend w evs) /\
      deleteCalls evs = [] /\
      Forall (applicable server) (applyCalls evs) /\
      (listings evs <= length pods)%nat.
Proof.
  induction pods as [|pod pods IH]; intros w.
  - exists []. rewrite extend_nil. split; [reflexivity|]. split; [reflexivity|].
    split; [constructor|]. cbn. lia.
  - cbn [map forRange]. rewrite run_bind.
    destruct (pod_event_run pod w) as (evs & Hrun & Hd & Ha & Hl & _).
    rewrite Hrun. destruct (IH (extend w evs)) as (rest & Hloop & Hd' & Ha' & Hl').
    rewrite Hloop, extend_extend. exists (evs ++ rest). split; [reflexivity|].
    rewrite redirector_facts.deleteCalls_app, redirector_facts.applyCalls_app,
      sync_facts.listings_app, Hd, Hd'.
    split; [reflexivity|]. split; [apply Forall_app; auto|]. cbn [length]. lia.
Qed.

(** [Sync] up to the end of a run of pod events. *)
Lemma Sync_pod_events_run (pods : list Pod) w :
  exists evs,
    (forall rest,
       Sync env server (map PodObjChannel pods ++ rest) w
       = forRange rest (Sync_select env server)
           (mkWorld (trace w ++ EvListPods :: evs) (podMap w) true)) /\
    deleteCalls evs = [] /\
    Forall (applicable server) (applyCalls evs) /\
    (listings evs <= length pods)%nat.
Proof.
  destruct (sync_facts.reconcile_accounted env server w) as (mid & Hrun & Ha & Hd & Hacc & _).
  destruct Hacc as (_ & _ & _ & _ & Hl).
  destruct (pod_events_run pods
              (mkWorld (trace (extend w (EvListPods :: mid)))
                       (podMap (extend w (EvListPods :: mid))) true))
    as (evs & Hloop & Hd' & Ha' & Hl').
  exists (mid ++ evs). split.
  - intros rest. unfold Sync. rewrite run_bind, Hrun, run_bind.
    unfold setInitialized at 1. cbn beta iota. rewrite forRange_app, Hloop.
    unfold extend. cbn [trace podMap Initialized]. rewrite <- app_assoc. reflexivity.
  - rewrite redirector_facts.deleteCalls_app, redirector_facts.applyCalls_app,
      sync_facts.listings_app, Hd, Hd', Hl, Ha.
    split; [reflexivity|]. split; [|lia].
    apply Forall_app. split; [apply scope_applicable|exact Ha'].
Qed.

End WithEnv.

End event_facts.

(** X14.  [Sync] of redirector_windows.go while it receives pod events only.
    Whatever the backend and the pod source answer, it reconciles once, sets
    [server.Initialized] and handles every event: it never exits and never
    panics; it issues no remove call; every apply call it issues, at startup,
    for an event or in a self-heal, is for an address that is neither empty
    nor the host's; [Initialized] is true afterwards even when the listing
    or an apply failed; and the pods are listed at most once per event after
    the listing of the startup. *)
Theorem Sync_serves_pod_events (env : Env) (server : Server) (pods : list Pod) (w : World) :
  exists evs,
    redirector_windows.Sync env server (map PodObjChannel pods) w
    = (Ret tt, mkWorld (trace w ++ EvListPods :: evs) (podMap w) true) /\
    deleteCalls evs = [] /\
    Forall (applicable server) (applyCalls evs) /\
    (listings evs <= length pods)%nat.
Proof.
  destruct (event_facts.Sync_pod_events_run env server pods w) as (evs & Hrun & Hrest).
  specialize (Hrun []). rewrite app_nil_r in Hrun.
  exists evs. split; [exact Hrun|exact Hrest].
Qed.

(** X15.  [Sync] ends at the first signal.  When pod events are followed by
    a termination or shutdown signal, the process exits in the teardown of
    that signal: no remove call was issued before it, the remove calls of
    the teardown are those for the pods of this node in the listing taken
    then, the last event is the sleep of 10 seconds, the exit code is 1
    exactly when that listing returned an error, and nothing that is
    received after the signal has any effect. *)
Theorem Sync_ends_at_first_signal
        (env : Env) (server : Server) (pods : list Pod) (sig : Received)
        (post : list Received) (w : World) :
  isSignal sig = true ->
  exists evs mid,
    let before := trace w ++ EvListPods :: evs in
    redirector_windows.Sync env server (map PodObjChannel pods ++ sig :: post) w
    = (Exited (match snd (ListPods env before) with Some _ => 1 | None => 0 end),
       mkWorld (before ++ EvListPods :: mid ++ [EvSleep 10]) (podMap w) true) /\
    deleteCalls evs = [] /\
    deleteCalls mid
    = map Status_PodIP (List.filter (onThisNode server) (fst (ListPods env before))) /\
    applyCalls mid = [] /\
    redirector_windows.Sync env server (map PodObjChannel pods ++ sig :: post) w
    = redirector_windows.Sync env server (map PodObjChannel pods ++ [sig]) w.
Proof.
  intros Hsig.
  destruct (event_facts.Sync_pod_events_run env server pods w) as (evs & Hrun & Hd & _).
  set (w1 := mkWorld (trace w ++ EvListPods :: evs) (podMap w) true) in *.
  destruct (sync_facts.teardown_accounted env server w1) as (mid & Htear & Hdel & Hap & _).
  assert (Hend : forall rest,
            forRange (sig :: rest) (redirector_windows.Sync_select env server) w1
            = (Exited (match snd (ListPods env (trace w1)) with Some _ => 1 | None => 0 end),
               extend w1 (EvListPods :: mid ++ [EvSleep 10]))).
  { intros rest. cbn [forRange]. rewrite run_bind.
    destruct sig; try discriminate Hsig;
      unfold redirector_windows.Sync_select; rewrite run_bind, Htear; reflexivity. }
  exists evs, mid. cbv zeta.
  split; [rewrite Hrun, Hend; reflexivity|]. split; [exact Hd|].
  split; [exact Hdel|]. split; [exact Hap|].
  rewrite !Hrun, !Hend. reflexivity.
Qed.

Lemma Sync_ends_at_first_signal_witness :
  exists evs mid,
    let before := trace world0 ++ EvListPods :: evs in
    redirector_windows.Sync (envOf backendDown [podA; podB; podC]) thisServer
      (map PodObjChannel [podC] ++ signalChan :: [PodObjChannel podA]) world0
    = (Exited (match snd (ListPods (envOf backendDown [podA; podB; podC]) before) with
               | Some _ => 1
               | None => 0
               end),
       mkWorld (before ++ EvListPods :: mid ++ [EvSleep 10]) (podMap world0) true) /\
    deleteCalls evs = [] /\
    deleteCalls mid
    = map Status_PodIP
        (List.filter (onThisNode thisServer)
           (fst (ListPods (envOf backendDown [podA; podB; podC]) before))) /\
    applyCalls mid = [] /\
    redirector_windows.Sync (envOf backendDown [podA; podB; podC]) thisServer
      (map PodObjChannel [podC] ++ signalChan :: [PodObjChannel podA]) world0
    = redirector_windows.Sync (envOf backendDown [podA; podB; podC]) thisServer
        (map PodObjChannel [podC] ++ [signalChan]) world0.
Proof.
  apply (Sync_ends_at_first_signal (envOf backendDown [podA; podB; podC]) thisServer
           [podC] signalChan [PodObjChannel podA] world0).
  reflexivity.
Defined.

(** X16.  The metrics of the two listing passes of redirector_windows.go,
    whatever the backend and the pod source answer.  Full reconciliation
    lists the pods once and reports one [NMIHostPolicyApplyCountM] for each
    apply call, in the order of the calls; its
    [NMIHostPolicyApplyFailedCountM] reports are for some of these calls, in
    order.  Teardown lists the pods once and reports the same
    [NMIHostPolicyApplyCountM] for each remove call; a pod of this node
    without an address gets a remove call with the empty address and a
    failure report.  Every report carries this node's name, and a pass
    sleeps at most 105 seconds for each pod it handles. *)
Theorem listing_passes_metrics (env : Env) (server : Server) (w : World) :
  (exists mid,
     redirector_windows.ApplyRoutePolicyForExistingPods env server w
     = (Ret tt, extend w (EvListPods :: mid)) /\
     listings mid = 0%nat /\
     countReports mid = applyCalls mid /\
     sublist (failedReports mid) (applyCalls mid) /\
     Forall (eq (NodeName server)) (reportNodes mid) /\
     0 <= sleptOf mid <= 105 * Z.of_nat (length (applyCalls mid))) /\
  (exists code mid,
     redirector_windows.DeleteRoutePolicyForExistingPods env server w
     = (Exited code, extend w (EvListPods :: mid ++ [EvSleep 10])) /\
     listings mid = 0%nat /\
     countReports mid = deleteCalls mid /\
     sublist (failedReports mid) (deleteCalls mid) /\
     List.filter (String.eqb "") (failedReports mid)
     = List.filter (String.eqb "") (deleteCalls mid) /\
     Forall (eq (NodeName server)) (reportNodes mid) /\
     0 <= sleptOf mid <= 105 * Z.of_nat (length (deleteCalls mid))).
Proof.
  split.
  - destruct (sync_facts.reconcile_accounted env server w)
      as (mid & Hrun & Ha & _ & (Hc & Hf & _ & Hn & Hl) & Hs).
    cbv zeta in *. exists mid. rewrite Ha. auto 10.
  - destruct (sync_facts.teardown_accounted env server w)
      as (mid & Hrun & Hd & _ & (Hc & Hf & He & Hn & Hl) & Hs).
    cbv zeta in *. eexists _, mid. rewrite Hd. split; [exact Hrun|]. auto 10.
Qed.

Module incremental_facts.
Import endpointpolicy.

Section WithEnv.
Variable env : Env.
Variable server : Server.







End WithEnv.

End incremental_facts.

(** X17.  One pod event of the incremental redirector, whatever the backend
    answers: it returns; it changes [podMap] at the pod's own UID only; it
    issues at most one call, an apply or a remove; and when the pod is
    assigned to another node, or its address is the host's, it does nothing
    at all, also when [podMap] holds an entry for the pod. *)
Theorem incremental_event_frame (env : Env) (server : Server) (pod : Pod) (w : World) :
  exists evs m,
    WindowsRedirector.Sync_select env server (PodObjChannel pod) w
    = (Ret tt, mkWorld (trace w ++ evs) m (Initialized w)) /\
    (forall uid, uid <> UID pod -> m !! uid = podMap w !! uid) /\
    (length (applyCalls evs) + length (deleteCalls evs) <= 1)%nat /\
    (NodeName server <> Spec_NodeName pod \/ HostIP server = Status_PodIP pod ->
     evs = [] /\ m = podMap w).
Proof.
  destruct (decide (NodeName server = Spec_NodeName pod)) as [Hnode|Hnode].
  - destruct (decide (HostIP server = Status_PodIP pod)) as [Hhost|Hhost].
    + exists [], (podMap w). split.
      * unfold WindowsRedirector.Sync_select.
        apply String.eqb_eq in Hhost. rewrite Hhost, andb_false_r.
        rewrite app_nil_r. destruct w; reflexivity.
      * split; [reflexivity|]. split; [cbn; lia|]. auto.
    + destruct (podMap w !! UID pod) as [recorded|] eqn:Hlook.
      * destruct (podMap_facts.event_with_entry env server pod recorded w Hnode Hhost Hlook)
          as (evs & Hsel & Hd & Ha).
        exists (EvDeleteCall recorded :: evs), (delete (UID pod) (podMap w)).
        split; [exact Hsel|]. split; [intros uid Hne; apply lookup_delete_ne; congruence|].
        change (applyCalls (EvDeleteCall recorded :: evs)) with (applyCalls evs).
        change (deleteCalls (EvDeleteCall recorded :: evs)) with (recorded :: deleteCalls evs).
        rewrite Ha, Hd. split; [cbn; lia|]. intros [H|H]; contradiction.
      * destruct (podMap_facts.event_without_entry env server pod w Hnode Hhost Hlook)
          as (r & evs & _ & Hsel & Hd & Ha).
        exists (EvApplyCall (Status_PodIP pod) :: evs),
               (<[UID pod := Status_PodIP pod]> (podMap w)).
        split; [exact Hsel|]. split; [intros uid Hne; apply lookup_insert_ne; congruence|].
        change (applyCalls (EvApplyCall (Status_PodIP pod) :: evs))
          with (Status_PodIP pod :: applyCalls evs).
        change (deleteCalls (EvApplyCall (Status_PodIP pod) :: evs)) with (deleteCalls evs).
        rewrite Ha, Hd. split; [cbn; lia|]. intros [H|H]; contradiction.
  - exists [], (podMap w). split.
    + unfold WindowsRedirector.Sync_select.
      apply String.eqb_neq in Hnode. rewrite Hnode. cbn [andb].
      rewrite app_nil_r. destruct w; reflexivity.
    + split; [reflexivity|]. split; [cbn; lia|]. auto.
Qed.


Module linux_facts.
Import redirector_linux.

Lemma run_bind_L {A B} (c : L A) (k : A -> L B) (s : State) :
  (c ≫= k) s =
  match c s with
  | (Ret a, s') => k a s'
  | (Exited code, s') => (Exited code, s')
  | (Panic, s') => (Panic, s')
  | (OutOfFuel, s') => (OutOfFuel, s')
  end.
Proof. reflexivity. Qed.

Section WithIptables.
Variable iptables : Iptables.
Variable server : Server.

(** One installation, by what the two calls answer. *)
Lemma updateIPTableRulesInternal_run s :
  updateIPTableRulesInternal iptables server s =
  match AddCustomChain iptables (done s) (MetadataIP server) (MetadataPort server)
          (HostIP server) (NMIPort server) with
  | Some _ =>
      (Exited 255,
       mkState (done s ++ [AddCustomChainCall (MetadataIP server) (MetadataPort server)
                             (HostIP server) (NMIPort server)]) (Initialized s))
  | None =>
      match LogCustomChain iptables
              (done s ++ [AddCustomChainCall (MetadataIP server) (MetadataPort server)
                            (HostIP server) (NMIPort server)]) with
      | Some _ => (Exited 255, mkState (done s ++ installation server) (Initialized s))
      | None => (Ret tt, mkState (done s ++ installation server) (Initialized s))
      end
  end.
Proof.
  unfold updateIPTableRulesInternal. rewrite run_bind_L. unfold act at 1. cbn beta iota.
  destruct (AddCustomChain iptables (done s) _ _ _ _); [reflexivity|].
  rewrite run_bind_L. unfold act at 1. cbn [done Initialized].
  unfold installation. rewrite <- app_assoc. cbn [app].
  destruct (LogCustomChain iptables _); reflexivity.
Qed.

Lemma handleTermination_run s :
  handleTermination iptables s =
  (Exited (match DeleteCustomChain iptables (done s) with Some _ => 1 | None => 0 end),
   mkState (done s ++ [DeleteCustomChainCall; SleepCall 10]) (Initialized s)).
Proof.
  unfold handleTermination. rewrite run_bind_L. unfold act at 1. cbn beta iota.
  rewrite run_bind_L. unfold act at 1. cbn [done Initialized].
  rewrite <- app_assoc. reflexivity.
Qed.

Lemma installations_snoc n :
  installations server n ++ installation server = installations server (S n).
Proof.
  induction n as [|n IH]; [reflexivity|].
  cbn [installations]. rewrite <- app_assoc, IH. reflexivity.
Qed.

(** Serving ticks and [mainRoutineDone] while the installation calls
    succeed: one installation per tick, and nothing else. *)
Lemma serve_no_signal pre :
  installs iptables -> noSignal pre ->
  forall rest s,
    serve iptables server (pre ++ rest) s
    = serve iptables server rest
        (mkState (done s ++ installations server (ticks pre)) (Initialized s)).
Proof.
  intros [Hadd Hlog] Hpre. induction Hpre as [|r pre Hr _ IH]; intros rest s.
  - cbn. rewrite app_nil_r. destruct s; reflexivity.
  - cbn [app serve]. rewrite run_bind_L. destruct r; [|contradiction|].
    + cbn. apply IH.
    + unfold updateIPTableRules_select. rewrite updateIPTableRulesInternal_run, Hadd, Hlog.
      rewrite IH. cbn [done Initialized]. rewrite <- app_assoc. reflexivity.
Qed.

End WithIptables.

End linux_facts.

(** X19.  Startup of the Linux redirector.  When the ticker's duration is
    not positive, [updateIPTableRules] panics in [time.NewTicker] before any
    rule is installed.  Otherwise it installs the rules once before it
    listens: when [AddCustomChain] fails the process exits with status 255
    and [LogCustomChain] is not called; when [LogCustomChain] fails it
    exits with status 255; in both cases [server.Initialized] is not set.
    Only after both calls succeeded is [Initialized] set, and with nothing
    received that is all that happens. *)
Theorem linux_startup
        (iptables : redirector_linux.Iptables) (server : redirector_linux.Server)
        (received : list redirector_linux.Received) (s : redirector_linux.State) :
  let add := redirector_linux.AddCustomChainCall
               (redirector_linux.MetadataIP server) (redirector_linux.MetadataPort server)
               (redirector_linux.HostIP server) (redirector_linux.NMIPort server) in
  let run := redirector_linux.updateIPTableRules iptables server received s in
  (redirector_linux.tickerDuration server <= 0 -> run = (Panic, s)) /\
  (0 < redirector_linux.tickerDuration server ->
   (redirector_linux.AddCustomChain iptables (redirector_linux.done s)
      (redirector_linux.MetadataIP server) (redirector_linux.MetadataPort server)
      (redirector_linux.HostIP server) (redirector_linux.NMIPort server) <> None ->
    run = (Exited 255,
           redirector_linux.mkState (redirector_linux.done s ++ [add])
             (redirector_linux.Initialized s))) /\
   (redirector_linux.AddCustomChain iptables (redirector_linux.done s)
      (redirector_linux.MetadataIP server) (redirector_linux.MetadataPort server)
      (redirector_linux.HostIP server) (redirector_linux.NMIPort server) = None ->
    redirector_linux.LogCustomChain iptables (redirector_linux.done s ++ [add]) <> None ->
    run = (Exited 255,
           redirector_linux.mkState
             (redirector_linux.done s ++ redirector_linux.installation server)
             (redirector_linux.Initialized s))) /\
   (redirector_linux.AddCustomChain iptables (redirector_linux.done s)
      (redirector_linux.MetadataIP server) (redirector_linux.MetadataPort server)
      (redirector_linux.HostIP server) (redirector_linux.NMIPort server) = None ->
    redirector_linux.LogCustomChain iptables (redirector_linux.done s ++ [add]) = None ->
    run = redirector_linux.serve iptables server received
            (redirector_linux.mkState
               (redirector_linux.done s ++ redirector_linux.installation server) true) /\
    redirector_linux.updateIPTableRules iptables server [] s
    = (Ret tt,
       redirector_linux.mkState
         (redirector_linux.done s ++ redirector_linux.installation server) true))).
Proof.
  cbv zeta. split.
  - intros Hd. unfold redirector_linux.updateIPTableRules.
    apply Z.leb_le in Hd. rewrite Hd. reflexivity.
  - intros Hd.
    assert (Hpos : (redirector_linux.tickerDuration server <=? 0) = false)
      by (apply Z.leb_gt; exact Hd).
    unfold redirector_linux.updateIPTableRules. rewrite Hpos.
    rewrite !linux_facts.run_bind_L, !linux_facts.updateIPTableRulesInternal_run.
    split; [|split].
    + intros Hadd. destruct (redirector_linux.AddCustomChain iptables _ _ _ _ _);
        [reflexivity|contradiction].
    + intros Hadd Hlog. rewrite Hadd.
      destruct (redirector_linux.LogCustomChain iptables _); [reflexivity|contradiction].
    + intros Hadd Hlog. rewrite Hadd, Hlog. split; reflexivity.
Qed.

(** X20.  The Linux redirector while its installation calls succeed.  With a
    positive ticker duration, ticks and [mainRoutineDone] followed by a
    signal: the rules are installed once at startup and once more for each
    tick, always with the server's metadata address and port, host address
    and NMI port; [mainRoutineDone] does nothing; the signal calls
    [DeleteCustomChain] once, sleeps 10 seconds and exits, with status 1
    exactly when the deletion failed; and what is received after the signal
    has no effect. *)
Theorem linux_ticks_then_termination
        (iptables : redirector_linux.Iptables) (server : redirector_linux.Server)
        (pre post : list redirector_linux.Received) (s : redirector_linux.State) :
  0 < redirector_linux.tickerDuration server ->
  redirector_linux.installs iptables ->
  redirector_linux.noSignal pre ->
  let installed := redirector_linux.done s
                   ++ redirector_linux.installations server (S (redirector_linux.ticks pre)) in
  redirector_linux.updateIPTableRules iptables server pre s
  = (Ret tt, redirector_linux.mkState installed true) /\
  redirector_linux.updateIPTableRules iptables server
    (pre ++ redirector_linux.signalChan :: post) s
  = (Exited (match redirector_linux.DeleteCustomChain iptables installed with
             | Some _ => 1
             | None => 0
             end),
     redirector_linux.mkState
       (installed ++ [redirector_linux.DeleteCustomChainCall; redirector_linux.SleepCall 10])
       true).
Proof.
  intros Hd Hok Hpre. cbv zeta.
  assert (Hpos : (redirector_linux.tickerDuration server <=? 0) = false)
    by (apply Z.leb_gt; exact Hd).
  assert (Hstart : forall received,
            redirector_linux.updateIPTableRules iptables server (pre ++ received) s
            = redirector_linux.serve iptables server received
                (redirector_linux.mkState
                   (redirector_linux.done s
                    ++ redirector_linux.installations server (S (redirector_linux.ticks pre)))
                   true)).
  { intros received. unfold redirector_linux.updateIPTableRules. rewrite Hpos.
    rewrite linux_facts.run_bind_L, linux_facts.updateIPTableRulesInternal_run.
    destruct Hok as [Hadd Hlog]. rewrite Hadd, Hlog.
    rewrite linux_facts.run_bind_L. unfold redirector_linux.setInitialized at 1.
    cbn [redirector_linux.done redirector_linux.Initialized].
    rewrite (linux_facts.serve_no_signal iptables server pre (conj Hadd Hlog) Hpre).
    cbn [redirector_linux.done redirector_linux.Initialized redirector_linux.installations].
    rewrite <- app_assoc. reflexivity. }
  split.
  - specialize (Hstart []). rewrite app_nil_r in Hstart. rewrite Hstart. reflexivity.
  - rewrite Hstart. cbn [redirector_linux.serve]. rewrite linux_facts.run_bind_L.
    unfold redirector_linux.updateIPTableRules_select.
    rewrite linux_facts.handleTermination_run. reflexivity.
Qed.

Lemma linux_ticks_then_termination_witness :
  let installed :=
    redirector_linux.done (redirector_linux.mkState [] false)
    ++ redirector_linux.installations redirector_linux.linuxServer
         (S (redirector_linux.ticks
               [redirector_linux.ticker_C; redirector_linux.mainRoutineDone;
                redirector_linux.ticker_C])) in
  redirector_linux.updateIPTableRules redirector_linux.iptablesKeepsChain
    redirector_linux.linuxServer
    [redirector_linux.ticker_C; redirector_linux.mainRoutineDone; redirector_linux.ticker_C]
    (redirector_linux.mkState [] false)
  = (Ret tt, redirector_linux.mkState installed true) /\
  redirector_linux.updateIPTableRules redirector_linux.iptablesKeepsChain
    redirector_linux.linuxServer
    ([redirector_linux.ticker_C; redirector_linux.mainRoutineDone; redirector_linux.ticker_C]
     ++ redirector_linux.signalChan :: [redirector_linux.ticker_C])
    (redirector_linux.mkState [] false)
  = (Exited (match redirector_linux.DeleteCustomChain redirector_linux.iptablesKeepsChain
                     installed with
             | Some _ => 1
             | None => 0
             end),
     redirector_linux.mkState
       (installed ++ [redirector_linux.DeleteCustomChainCall; redirector_linux.SleepCall 10])
       true).
Proof.
  apply (linux_ticks_then_termination redirector_linux.iptablesKeepsChain
           redirector_linux.linuxServer
           [redirector_linux.ticker_C; redirector_linux.mainRoutineDone;
            redirector_linux.ticker_C]
           [redirector_linux.ticker_C] (redirector_linux.mkState [] false)).
  - vm_compute. reflexivity.
  - split; intros; reflexivity.
  - repeat constructor; discriminate.
Defined.

(** X21.  [removeTaint] for every list of taints and every key: it returns
    the taints whose key is another, in their order; none with the key is
    left; the taints of every other key are as many as before; a list
    without the key comes back unchanged; removing twice is removing once;
    and the length drops by the number of taints that had the key. *)
Theorem removeTaint_keeps_other_keys (taints : list Taint) (taintName : string) :
  probes.removeTaint taints taintName = otherKeys taintName taints /\
  countKey taintName (probes.removeTaint taints taintName) = 0%nat /\
  (forall key, key <> taintName ->
     countKey key (probes.removeTaint taints taintName) = countKey key taints) /\
  (countKey taintName taints = 0%nat -> probes.removeTaint taints taintName = taints) /\
  probes.removeTaint (probes.removeTaint taints taintName) taintName
  = probes.removeTaint taints taintName /\
  (length (probes.removeTaint taints taintName) + countKey taintName taints)%nat
  = length taints.
Proof.
  rewrite !probe_facts.removeTaint_filter.
  split; [reflexivity|]. split; [apply probe_facts.countKey_otherKeys|].
  split; [|split; [|split; [apply probe_facts.otherKeys_idem|]]].
  - intros key Hne. unfold countKey, otherKeys.
    induction taints as [|t taints IH]; simpl; [reflexivity|].
    destruct (hasKey taintName t) eqn:E; simpl.
    + assert (Hk : hasKey key t = false).
      { unfold hasKey in *. apply String.eqb_eq in E. apply String.eqb_neq. congruence. }
      rewrite Hk. exact IH.
    + destruct (hasKey key t); simpl; rewrite IH; reflexivity.
  - unfold countKey, otherKeys. induction taints as [|t taints IH]; simpl; [reflexivity|].
    destruct (hasKey taintName t); simpl; [discriminate|].
    intros H. rewrite (IH H). reflexivity.
  - unfold countKey, otherKeys. induction taints as [|t taints IH]; simpl; [reflexivity|].
    destruct (hasKey taintName t); simpl; lia.
Qed.
